(** * AI survey agents: catalog store, source adapters, orchestrator and
      recommendation engine

    A shallow embedding of the survey-and-recommend pipeline of the
    repository (agents/database/manager.ts, agents/database/schema.sql,
    agents/surveyors/*.ts, agents/orchestrator.ts and
    agents/personalization/engine.ts) together with the properties the
    design document states about it.

    Conventions of the embedding:
    - a JavaScript [number] that the code compares or adds as a double is a
      primitive binary64 [float]; counters and identifiers are [nat] or [Z];
    - a thrown [Error] is its message; a call that may throw returns a
      [Completion];
    - [CURRENT_TIMESTAMP] of SQLite is read from an explicit clock: the
      database operations take the current time in seconds, the adapters
      carry a millisecond clock ([Date.now()]) in their [World];
    - the network is an oracle: [fetch] answers are supplied per attempt,
      the page fetchers of the adapters ([searchRepositories],
      [surveyModels], ...) are supplied per query dimension. *)

From Stdlib Require Import ZArith List String Ascii Bool Lia.
From Stdlib Require Import Floats Reals Lra.
From Stdlib Require DecimalString.
From Stdlib Require Import Permutation Sorted.
Import ListNotations.

Set Warnings "-inexact-float".

Local Open Scope string_scope.
Local Open Scope list_scope.

(** ** JavaScript values and library functions used by the agents *)

Module Js.

(** A promise that settles: either the value it resolves to, or the message
    of the [Error] it rejects with ([error instanceof Error ? error.message :
    String(error)] is how every catch block of the agents reads it). *)
Inductive Completion (A : Type) : Type :=
| Normal (value : A)
| Throw (message : string).
Arguments Normal {A} value.
Arguments Throw {A} message.

Definition is_throw {A} (c : Completion A) : bool :=
  match c with Throw _ => true | Normal _ => false end.

(** [String.prototype.toLowerCase], on the ASCII range. *)
Definition lower_ascii (c : ascii) : ascii :=
  let n := nat_of_ascii c in
  if (65 <=? n)%nat && (n <=? 90)%nat then ascii_of_nat (n + 32) else c.

Fixpoint toLowerCase (s : string) : string :=
  match s with
  | EmptyString => EmptyString
  | String c r => String (lower_ascii c) (toLowerCase r)
  end.

(** [String.prototype.includes]: [sub] occurs somewhere in [s]. *)
Fixpoint includes (s sub : string) : bool :=
  String.prefix sub s ||
  match s with
  | EmptyString => false
  | String _ r => includes r sub
  end.

(** [Array.prototype.join]. *)
Definition join (sep : string) (l : list string) : string :=
  String.concat sep l.

(** [Array.prototype.some]. *)
Definition some {A} (f : A -> bool) (l : list A) : bool := existsb f l.

(** Truthiness of the values the agents test with [if (x)] or [x || d]. *)
Definition truthy_string (s : string) : bool := negb (String.eqb s "").

Definition truthy_number (x : float) : bool :=
  negb (PrimFloat.is_zero x || PrimFloat.is_nan x).

Definition truthy_opt_bool (o : option bool) : bool :=
  match o with Some b => b | None => false end.

(** [x || 0] on an optional number. *)
Definition number_or_zero (o : option float) : float :=
  match o with
  | Some x => if truthy_number x then x else 0%float
  | None => 0%float
  end.

(** [Math.min] on two doubles: NaN if either is NaN, the smaller one
    otherwise; of two equal ones that differ, which are the two zeros, the
    negative. *)
Definition Math_min (a b : float) : float :=
  if PrimFloat.is_nan a || PrimFloat.is_nan b then PrimFloat.nan
  else if PrimFloat.ltb a b then a
  else if PrimFloat.ltb b a then b
  else if PrimFloat.is_zero a then (if PrimFloat.get_sign a then a else b)
  else a.

(** Comparison operators of the language on doubles. *)
Definition gt (a b : float) : bool := PrimFloat.ltb b a.

(** The double nearest to a non-negative integer (array lengths, clock
    differences). *)
Definition number_of_Z (z : Z) : float :=
  match z with
  | Z0 => 0%float
  | Zpos _ => PrimFloat.of_uint63 (Uint63.of_Z z)
  | Zneg p => PrimFloat.opp (PrimFloat.of_uint63 (Uint63.of_Z (Zpos p)))
  end.

Definition number_of_nat (n : nat) : float := number_of_Z (Z.of_nat n).

(** Decimal rendering of a natural number, as a template literal prints an
    integer. *)
Definition string_of_nat (n : nat) : string :=
  DecimalString.NilZero.string_of_uint (Nat.to_uint n).

(** *** [parseInt(s)] with the radix left out

    Leading white space is skipped, one sign is read, a [0x]/[0X] prefix
    selects base 16, and the longest run of digits is converted; no digit at
    all gives NaN, which is [None] here. *)
Definition is_space (c : ascii) : bool :=
  let n := nat_of_ascii c in
  (n =? 32)%nat || ((9 <=? n)%nat && (n <=? 13)%nat).

Fixpoint skip_spaces (s : string) : string :=
  match s with
  | String c r => if is_space c then skip_spaces r else s
  | EmptyString => s
  end.

Definition digit_value (c : ascii) : option Z :=
  let n := nat_of_ascii c in
  if (48 <=? n)%nat && (n <=? 57)%nat then Some (Z.of_nat (n - 48))
  else if (97 <=? n)%nat && (n <=? 102)%nat then Some (Z.of_nat (n - 87))
  else if (65 <=? n)%nat && (n <=? 70)%nat then Some (Z.of_nat (n - 55))
  else None.

Fixpoint read_digits (radix : Z) (acc : option Z) (s : string) : option Z :=
  match s with
  | EmptyString => acc
  | String c r =>
      match digit_value c with
      | Some d =>
          if (d <? radix)%Z
          then read_digits radix
                 (Some (match acc with Some a => a * radix + d | None => d end)%Z) r
          else acc
      | None => acc
      end
  end.

Definition parseInt (s : string) : option Z :=
  let s := skip_spaces s in
  let '(negative, s) :=
    match s with
    | String "-" r => (true, r)
    | String "+" r => (false, r)
    | _ => (false, s)
    end in
  let magnitude :=
    match s with
    | String "0" (String "x" r) => read_digits 16 None r
    | String "0" (String "X" r) => read_digits 16 None r
    | _ => read_digits 10 None s
    end in
  option_map (fun m => if negative then (- m)%Z else m) magnitude.

(** [Array.prototype.sort]: stable. [follows x y] says the comparator puts
    [x] strictly after [y]; an element moves back only past such elements. *)
Fixpoint insert_by {A} (follows : A -> A -> bool) (x : A) (l : list A) : list A :=
  match l with
  | [] => [x]
  | y :: r => if follows x y then y :: insert_by follows x r else x :: l
  end.

Definition sort_by {A} (follows : A -> A -> bool) (l : list A) : list A :=
  fold_right (insert_by follows) [] l.

(** [Array.prototype.slice(0, n)]. *)
Definition slice0 {A} (n : nat) (l : list A) : list A := firstn n l.

End Js.

Import Js.

(** ** The catalog store (database/manager.ts over database/schema.sql) *)

Module Db.

(** Seconds, as [CURRENT_TIMESTAMP] has them. *)
Abbreviation Timestamp := Z (only parsing).

(** The open-ended [metadata] bag. Its values are kept as strings: the only
    key the agents read back is [language]. *)
Definition Metadata := list (string * string).

Fixpoint metadata_get (key : string) (m : Metadata) : option string :=
  match m with
  | [] => None
  | (k, v) :: r => if String.eqb k key then Some v else metadata_get key r
  end.

(** [interface AITool], as an adapter builds it. The fields [id],
    [first_discovered] and [last_updated] of the interface are only ever
    produced by the store and are fields of [ToolRow]. *)
Record AITool := mkAITool {
  name : string;
  description : option string;
  url : option string;
  source : string;
  category : option string;
  subcategory : option string;
  capabilities : option (list string);
  api_available : option bool;
  open_source : option bool;
  pricing_model : option string;
  popularity_score : option float;
  relevance_score : option float;
  metadata : option Metadata
}.

(** [Partial<AITool>]: every field may be left out. *)
Record PartialAITool := mkPartial {
  p_name : option string;
  p_description : option string;
  p_url : option string;
  p_source : option string;
  p_category : option string;
  p_subcategory : option string;
  p_capabilities : option (list string);
  p_api_available : option bool;
  p_open_source : option bool;
  p_pricing_model : option string;
  p_popularity_score : option float;
  p_relevance_score : option float;
  p_metadata : option Metadata
}.

(** An [AITool] passed where a [Partial<AITool>] is expected. *)
Definition as_partial (t : AITool) : PartialAITool :=
  {| p_name := Some (name t);
     p_description := description t;
     p_url := url t;
     p_source := Some (source t);
     p_category := category t;
     p_subcategory := subcategory t;
     p_capabilities := capabilities t;
     p_api_available := api_available t;
     p_open_source := open_source t;
     p_pricing_model := pricing_model t;
     p_popularity_score := popularity_score t;
     p_relevance_score := relevance_score t;
     p_metadata := metadata t |}.

(** A row of table [ai_tools], read back through [parseToolRow]: the JSON
    columns [capabilities] and [metadata] are kept parsed, the two flags are
    booleans. *)
Record ToolRow := mkToolRow {
  row_id : Z;
  row_name : string;
  row_description : option string;
  row_url : option string;
  row_source : string;
  row_category : option string;
  row_subcategory : option string;
  row_capabilities : list string;
  row_api_available : bool;
  row_open_source : bool;
  row_pricing_model : option string;
  row_first_discovered : Timestamp;
  row_last_updated : Timestamp;
  row_popularity_score : float;
  row_relevance_score : float;
  row_metadata : Metadata
}.

Inductive SurveyStatus := success | partial | failed.

(** [interface SurveyRun] as [run()] fills it, and its row in
    [survey_runs]. *)
Record SurveyRun := mkSurveyRun {
  run_source : string;
  items_discovered : option nat;
  items_updated : option nat;
  status : SurveyStatus;
  error_log : option string;
  duration_seconds : option float
}.

Record SurveyRunRow := mkSurveyRunRow {
  sr_id : Z;
  sr_run_time : Timestamp;
  sr_source : string;
  sr_items_discovered : nat;
  sr_items_updated : nat;
  sr_status : SurveyStatus;
  sr_error_log : option string;
  sr_duration_seconds : option float
}.

(** [interface UserProject] and its row in [user_projects], read back with
    the two JSON arrays parsed. *)
Record UserProject := mkUserProject {
  project_name : string;
  path : option string;
  project_description : option string;
  tech_stack : option (list string);
  ai_needs : option (list string)
}.

Record ProjectRow := mkProjectRow {
  pr_id : Z;
  pr_name : string;
  pr_path : option string;
  pr_description : option string;
  pr_tech_stack : list string;
  pr_ai_needs : list string;
  pr_last_analyzed : Timestamp
}.

Inductive RecommendationStatus := pending | accepted | rejected | dismissed.

(** [interface Recommendation] as the engine builds and returns it, and its
    row in [recommendations]. *)
Record Recommendation := mkRecommendation {
  rec_id : option Z;
  tool_id : Z;
  user_project_id : option Z;
  rec_relevance_score : float;
  reason : string;
  rec_status : option RecommendationStatus;
  tool : option ToolRow
}.

Record RecommendationRow := mkRecommendationRow {
  rr_id : Z;
  rr_tool_id : Z;
  rr_user_project_id : option Z;
  rr_relevance_score : float;
  rr_reason : string;
  rr_status : RecommendationStatus;
  rr_created_at : Timestamp
}.

(** The database: each table in rowid order with the last key its
    [AUTOINCREMENT] primary key handed out. *)
Record Store := mkStore {
  ai_tools : list ToolRow;
  ai_tools_seq : Z;
  survey_runs : list SurveyRunRow;
  survey_runs_seq : Z;
  user_projects : list ProjectRow;
  user_projects_seq : Z;
  recommendations : list RecommendationRow;
  recommendations_seq : Z
}.

Definition empty : Store :=
  {| ai_tools := []; ai_tools_seq := 0;
     survey_runs := []; survey_runs_seq := 0;
     user_projects := []; user_projects_seq := 0;
     recommendations := []; recommendations_seq := 0 |}.

Definition set_ai_tools (rows : list ToolRow) (seq : Z) (s : Store) : Store :=
  {| ai_tools := rows; ai_tools_seq := seq;
     survey_runs := survey_runs s; survey_runs_seq := survey_runs_seq s;
     user_projects := user_projects s; user_projects_seq := user_projects_seq s;
     recommendations := recommendations s;
     recommendations_seq := recommendations_seq s |}.

(** [insertTool]: a plain [INSERT]; the key is the next one of the sequence
    and both timestamps take their [CURRENT_TIMESTAMP] default. Returns the
    store and [lastInsertRowid]. *)
Definition insertTool (now : Timestamp) (t : AITool) (s : Store) : Store * Z :=
  let id := (ai_tools_seq s + 1)%Z in
  let row :=
    {| row_id := id;
       row_name := name t;
       row_description := description t;
       row_url := url t;
       row_source := source t;
       row_category := category t;
       row_subcategory := subcategory t;
       row_capabilities :=
         match capabilities t with Some c => c | None => [] end;
       row_api_available := truthy_opt_bool (api_available t);
       row_open_source := truthy_opt_bool (open_source t);
       row_pricing_model := pricing_model t;
       row_first_discovered := now;
       row_last_updated := now;
       row_popularity_score := number_or_zero (popularity_score t);
       row_relevance_score := number_or_zero (relevance_score t);
       row_metadata := match metadata t with Some m => m | None => [] end |} in
  (set_ai_tools (ai_tools s ++ [row]) id s, id).

(** The [SET] clause [updateTool] assembles: one assignment for each of the
    six fields it tests against [undefined], then [last_updated]. *)
Definition apply_update (now : Timestamp) (p : PartialAITool) (r : ToolRow)
  : ToolRow :=
  {| row_id := row_id r;
     row_name := match p_name p with Some v => v | None => row_name r end;
     row_description :=
       match p_description p with Some v => Some v | None => row_description r end;
     row_url := match p_url p with Some v => Some v | None => row_url r end;
     row_source := row_source r;
     row_category :=
       match p_category p with Some v => Some v | None => row_category r end;
     row_subcategory := row_subcategory r;
     row_capabilities :=
       match p_capabilities p with Some v => v | None => row_capabilities r end;
     row_api_available := row_api_available r;
     row_open_source := row_open_source r;
     row_pricing_model := row_pricing_model r;
     row_first_discovered := row_first_discovered r;
     row_last_updated := now;
     row_popularity_score :=
       match p_popularity_score p with
       | Some v => v
       | None => row_popularity_score r
       end;
     row_relevance_score := row_relevance_score r;
     row_metadata := row_metadata r |}.

(** [updateTool]: [UPDATE ai_tools SET ... WHERE id = ?]. *)
Definition updateTool (now : Timestamp) (id : Z) (p : PartialAITool) (s : Store)
  : Store :=
  set_ai_tools
    (map (fun r => if (row_id r =? id)%Z then apply_update now p r else r)
       (ai_tools s))
    (ai_tools_seq s) s.

Definition has_url (u : string) (r : ToolRow) : bool :=
  match row_url r with Some v => String.eqb v u | None => false end.

(** [getToolByUrl]: the first row of [SELECT * FROM ai_tools WHERE url = ?]. *)
Definition getToolByUrl (u : string) (s : Store) : option ToolRow :=
  find (has_url u) (ai_tools s).

(** All the rows a url selects. *)
Definition rows_with_url (u : string) (s : Store) : list ToolRow :=
  filter (has_url u) (ai_tools s).

(** [ORDER BY popularity_score DESC, last_updated DESC]: [x] comes after [y]
    when [y] has the larger score, or the same score and the later update.
    A NaN score is stored as NULL, which sorts below every number. *)
Definition real_desc_follows (x y : float) : bool :=
  if PrimFloat.is_nan y then false
  else if PrimFloat.is_nan x then true
  else PrimFloat.ltb x y.

Definition real_same (x y : float) : bool :=
  (PrimFloat.is_nan x && PrimFloat.is_nan y) || PrimFloat.eqb x y.

Definition tools_order_follows (x y : ToolRow) : bool :=
  real_desc_follows (row_popularity_score x) (row_popularity_score y) ||
  (real_same (row_popularity_score x) (row_popularity_score y) &&
   (row_last_updated x <? row_last_updated y)%Z).

(** [getAllTools(limit, offset)]. *)
Definition getAllTools (limit offset : nat) (s : Store) : list ToolRow :=
  firstn limit (skipn offset (sort_by tools_order_follows (ai_tools s))).

(** [logSurveyRun]: appends to [survey_runs]; [run_time] takes its
    [CURRENT_TIMESTAMP] default. *)
Definition logSurveyRun (now : Timestamp) (run : SurveyRun) (s : Store)
  : Store * Z :=
  let id := (survey_runs_seq s + 1)%Z in
  let row :=
    {| sr_id := id;
       sr_run_time := now;
       sr_source := run_source run;
       sr_items_discovered :=
         match items_discovered run with Some n => n | None => 0%nat end;
       sr_items_updated :=
         match items_updated run with Some n => n | None => 0%nat end;
       sr_status := status run;
       sr_error_log := error_log run;
       sr_duration_seconds := duration_seconds run |} in
  ({| ai_tools := ai_tools s; ai_tools_seq := ai_tools_seq s;
      survey_runs := survey_runs s ++ [row]; survey_runs_seq := id;
      user_projects := user_projects s;
      user_projects_seq := user_projects_seq s;
      recommendations := recommendations s;
      recommendations_seq := recommendations_seq s |}, id).

(** [insertProject]: always a new row. *)
Definition insertProject (now : Timestamp) (p : UserProject) (s : Store)
  : Store * Z :=
  let id := (user_projects_seq s + 1)%Z in
  let row :=
    {| pr_id := id;
       pr_name := project_name p;
       pr_path := path p;
       pr_description := project_description p;
       pr_tech_stack := match tech_stack p with Some l => l | None => [] end;
       pr_ai_needs := match ai_needs p with Some l => l | None => [] end;
       pr_last_analyzed := now |} in
  ({| ai_tools := ai_tools s; ai_tools_seq := ai_tools_seq s;
      survey_runs := survey_runs s; survey_runs_seq := survey_runs_seq s;
      user_projects := user_projects s ++ [row]; user_projects_seq := id;
      recommendations := recommendations s;
      recommendations_seq := recommendations_seq s |}, id).

(** [getAllProjects]: [ORDER BY last_analyzed DESC]. *)
Definition getAllProjects (s : Store) : list ProjectRow :=
  sort_by (fun x y => (pr_last_analyzed x <? pr_last_analyzed y)%Z)
    (user_projects s).

(** [insertRecommendation]: always a new row, [status] defaulting to
    pending. *)
Definition insertRecommendation (now : Timestamp) (r : Recommendation)
  (s : Store) : Store * Z :=
  let id := (recommendations_seq s + 1)%Z in
  let row :=
    {| rr_id := id;
       rr_tool_id := tool_id r;
       rr_user_project_id := user_project_id r;
       rr_relevance_score := rec_relevance_score r;
       rr_reason := reason r;
       rr_status := match rec_status r with Some st => st | None => pending end;
       rr_created_at := now |} in
  ({| ai_tools := ai_tools s; ai_tools_seq := ai_tools_seq s;
      survey_runs := survey_runs s; survey_runs_seq := survey_runs_seq s;
      user_projects := user_projects s;
      user_projects_seq := user_projects_seq s;
      recommendations := recommendations s ++ [row];
      recommendations_seq := id |}, id).

(** The primary key of [ai_tools]: keys are pairwise distinct and none
    exceeds the sequence. *)
Definition tools_keyed (s : Store) : Prop :=
  NoDup (map row_id (ai_tools s)) /\
  Forall (fun r => (row_id r <= ai_tools_seq s)%Z) (ai_tools s).

End Db.

Import Db.

(** ** The base adapter (surveyors/baseSurveyor.ts) *)

Module Surveyor.

Record SurveyStats := mkStats {
  discovered : nat;
  updated : nat;
  stats_errors : nat
}.

(** [interface SurveyResult]. *)
Record SurveyResult := mkSurveyResult {
  tools : list AITool;
  stats : SurveyStats;
  errors : list string
}.

(** What an adapter runs in: the wall clock [Date.now()] in milliseconds and
    the database handle. *)
Record World := mkWorld {
  clock : Z;
  db : Store
}.

(** [CURRENT_TIMESTAMP] at the present clock. *)
Definition timestamp (w : World) : Timestamp := (clock w / 1000)%Z.

(** [await this.sleep(ms)]: the timer fires after [ms] milliseconds, at once
    for a delay that is not positive. *)
Definition sleep (ms : Z) (w : World) : World :=
  {| clock := clock w + Z.max 0 ms; db := db w |}.

Definition with_db (s : Store) (w : World) : World :=
  {| clock := clock w; db := s |}.

Definition at_clock (c : Z) (w : World) : World :=
  {| clock := c; db := db w |}.

(** [abstract class BaseSurveyor]: the source name and the abstract
    [survey()], which may change the world before it returns or throws. *)
Record BaseSurveyor := mkSurveyor {
  sourceName : string;
  survey : World -> World * Completion SurveyResult
}.

Definition newline : string := String (ascii_of_nat 10) EmptyString.

(** [run()]. *)
Definition run (a : BaseSurveyor) (w : World) : World * Completion unit :=
  let startTime := clock w in
  match survey a w with
  | (w1, Normal result) =>
      let duration := (number_of_Z (clock w1 - startTime) / 1000)%float in
      let logged :=
        logSurveyRun (timestamp w1)
          {| run_source := sourceName a;
             items_discovered := Some (discovered (stats result));
             items_updated := Some (updated (stats result));
             status :=
               if (0 <? stats_errors (stats result))%nat then partial else success;
             error_log :=
               if (0 <? List.length (errors result))%nat
               then Some (join newline (errors result))
               else None;
             duration_seconds := Some duration |} (db w1) in
      (with_db (fst logged) w1, Normal tt)
  | (w1, Throw errorMessage) =>
      let duration := (number_of_Z (clock w1 - startTime) / 1000)%float in
      let logged :=
        logSurveyRun (timestamp w1)
          {| run_source := sourceName a;
             items_discovered := Some 0%nat;
             items_updated := Some 0%nat;
             status := failed;
             error_log := Some errorMessage;
             duration_seconds := Some duration |} (db w1) in
      (with_db (fst logged) w1, Throw errorMessage)
  end.

(** *** [fetchWithRetry] *)

(** The part of a [Response] the retry loop looks at. *)
Record Response := mkResponse {
  resp_status : nat;
  statusText : string;
  retry_after : option string   (* response.headers.get('Retry-After') *)
}.

Definition ok (r : Response) : bool :=
  (200 <=? resp_status r)%nat && (resp_status r <=? 299)%nat.

(** How one call of [fetch] settles. *)
Inductive FetchOutcome :=
| Rejected (message : string)
| Responded (r : Response).

(** What the loop does that the outside can see, in program order: the
    requests it issues (with the loop index and the answer) and the timers it
    waits on ([None] is a NaN delay). *)
Inductive Event :=
| Fetch (attempt : nat) (o : FetchOutcome)
| Sleep (ms : option Z).

Definition backoff (i : nat) : Z := (2 ^ Z.of_nat i * 1000)%Z.

(** [retryAfter ? parseInt(retryAfter) * 1000 : Math.pow(2, i) * 1000]. *)
Definition rate_limit_wait (i : nat) (r : Response) : option Z :=
  match retry_after r with
  | Some h =>
      if truthy_string h
      then option_map (fun n => (n * 1000)%Z) (parseInt h)
      else Some (backoff i)
  | None => Some (backoff i)
  end.

Definition http_error (r : Response) : string :=
  "HTTP " ++ string_of_nat (resp_status r) ++ ": " ++ statusText r.

(** The [for] loop of [fetchWithRetry] from index [i] on, [remaining] being
    [maxRetries - i]. [net i] is how the request of iteration [i] settles. *)
Fixpoint fetch_loop (net : nat -> FetchOutcome) (maxRetries remaining i : nat)
  (lastError : option string) : Completion Response * list Event :=
  match remaining with
  | O =>
      (Throw (match lastError with
              | Some e => e
              | None => "Unknown error during fetch"
              end), [])
  | S remaining' =>
      let o := net i in
      let caught (e : string) :=
        let rest := fetch_loop net maxRetries remaining' (S i) (Some e) in
        (fst rest,
         Fetch i o ::
         (if (i <? maxRetries - 1)%nat then [Sleep (Some (backoff i))] else [])
         ++ snd rest) in
      match o with
      | Responded r =>
          if ok r then (Normal r, [Fetch i o])
          else if (resp_status r =? 429)%nat then
            let rest := fetch_loop net maxRetries remaining' (S i) lastError in
            (fst rest, Fetch i o :: Sleep (rate_limit_wait i r) :: snd rest)
          else caught (http_error r)
      | Rejected e => caught e
      end
  end.

(** [fetchWithRetry(url, options, maxRetries)]; [maxRetries] is 3 when left
    out. The url and the options only reach [fetch], whose answers [net]
    supplies. *)
Definition fetchWithRetry (net : nat -> FetchOutcome) (maxRetries : nat)
  : Completion Response * list Event :=
  fetch_loop net maxRetries maxRetries 0 None.

(** The requests among the events. *)
Definition is_fetch (e : Event) : bool :=
  match e with Fetch _ _ => true | Sleep _ => false end.

Definition attempts (tr : list Event) : nat :=
  List.length (filter is_fetch tr).

(** A request that failed for a reason other than rate limiting, and the
    error the catch block records for it. *)
Definition failure_of (o : FetchOutcome) : option string :=
  match o with
  | Rejected e => Some e
  | Responded r =>
      if ok r then None
      else if (resp_status r =? 429)%nat then None
      else Some (http_error r)
  end.

Definition rate_limited (o : FetchOutcome) : bool :=
  match o with
  | Rejected _ => false
  | Responded r => negb (ok r) && (resp_status r =? 429)%nat
  end.

Definition succeeded (o : FetchOutcome) : bool :=
  match o with
  | Rejected _ => false
  | Responded r => ok r
  end.

(** *** [calculatePopularityScore]

    The metrics are counts. [Math.log10] has no result fixed by the language
    standard, so the score is taken over the real numbers. *)
Record Metrics := mkMetrics {
  stars : option N;
  downloads : option N;
  views : option N;
  likes : option N
}.

Definition log10 (x : R) : R := (ln x / ln 10)%R.

(** [if (metrics.m) score += Math.log10(metrics.m + 1) * weight]: a count
    that is absent or 0 adds nothing. *)
Definition add_metric (m : option N) (weight : R) (score : R) : R :=
  match m with
  | Some n =>
      if N.eqb n 0 then score
      else (score + log10 (IZR (Z.of_N n) + 1) * weight)%R
  | None => score
  end.

Definition calculatePopularityScore (metrics : Metrics) : R :=
  let score := 0%R in
  let score := add_metric (stars metrics) 10 score in
  let score := add_metric (downloads metrics) 5 score in
  let score := add_metric (views metrics) 2 score in
  let score := add_metric (likes metrics) 3 score in
  Rmin 100 score.

(** The count a component stands for. *)
Definition count_of (m : option N) : N :=
  match m with Some n => n | None => 0%N end.

(** *** The survey loop shared by the adapters *)

(** The body of [for (const repo of repos)]: look the url up, update the row
    found or insert a new one. The result tells which. A tool without url
    binds NULL, which selects no row. *)
Definition upsert (now : Timestamp) (t : AITool) (s : Store) : Store * bool :=
  match
    match url t with Some u => getToolByUrl u s | None => None end
  with
  | Some existing => (updateTool now (row_id existing) (as_partial t) s, true)
  | None => (fst (insertTool now t s), false)
  end.

(** The local variables of [survey()]. *)
Record Progress := mkProgress {
  world : World;
  found : list AITool;
  n_discovered : nat;
  n_updated : nat;
  messages : list string
}.

Definition start (w : World) : Progress :=
  {| world := w; found := []; n_discovered := 0; n_updated := 0;
     messages := [] |}.

Definition process_item (acc : Progress) (t : AITool) : Progress :=
  let w := world acc in
  let r := upsert (timestamp w) t (db w) in
  {| world := with_db (fst r) w;
     found := found acc ++ [t];
     n_discovered := if snd r then n_discovered acc else S (n_discovered acc);
     n_updated := if snd r then S (n_updated acc) else n_updated acc;
     messages := messages acc |}.

Definition process_items (items : list AITool) (acc : Progress) : Progress :=
  fold_left process_item items acc.

Definition push_error (msg : string) (acc : Progress) : Progress :=
  {| world := world acc; found := found acc;
     n_discovered := n_discovered acc; n_updated := n_updated acc;
     messages := messages acc ++ [msg] |}.

Definition move_clock (c : Z) (acc : Progress) : Progress :=
  {| world := at_clock c (world acc); found := found acc;
     n_discovered := n_discovered acc; n_updated := n_updated acc;
     messages := messages acc |}.

Definition pause (ms : Z) (acc : Progress) : Progress :=
  {| world := sleep ms (world acc); found := found acc;
     n_discovered := n_discovered acc; n_updated := n_updated acc;
     messages := messages acc |}.

Definition finish (acc : Progress) : World * Completion SurveyResult :=
  (world acc,
   Normal {| tools := found acc;
             stats := {| discovered := n_discovered acc;
                         updated := n_updated acc;
                         stats_errors := List.length (messages acc) |};
             errors := messages acc |}).

(** A page fetcher ([searchRepositories], [searchPapers], [searchVideos],
    [surveyModels], [surveySpaces]): started at a clock reading it comes back
    at a later one with the tools of the page, or throws. It has no access to
    the database. *)
Definition Fetcher := Z -> Z * Completion (list AITool).

(** One turn of [for (const topic of this.topics) { try { sleep; search;
    upsert each } catch (error) { errors.push(`${topic}: ${message}`) } }]. *)
Definition survey_dimension (delay : Z) (search : string -> Fetcher)
  (acc : Progress) (d : string) : Progress :=
  let acc := pause delay acc in
  let answer := search d (clock (world acc)) in
  let acc := move_clock (fst answer) acc in
  match snd answer with
  | Normal items => process_items items acc
  | Throw message => push_error (d ++ ": " ++ message)%string acc
  end.

Definition survey_dimensions (delay : Z) (search : string -> Fetcher)
  (dimensions : list string) (acc : Progress) : Progress :=
  fold_left (survey_dimension delay search) dimensions acc.

End Surveyor.

Import Surveyor.

(** ** The source adapters *)

Module GitHubSurveyor.

Definition topics : list string :=
  [ "artificial-intelligence"; "machine-learning"; "deep-learning"; "llm";
    "large-language-model"; "ai-agents"; "computer-vision"; "nlp";
    "natural-language-processing" ].

(** [survey()], over any topic list. *)
Definition survey_topics (topics : list string)
  (searchRepositories : string -> Fetcher) (w : World)
  : World * Completion SurveyResult :=
  finish (survey_dimensions 1000 searchRepositories topics (start w)).

Definition survey := survey_topics topics.

Definition surveyor (searchRepositories : string -> Fetcher) : BaseSurveyor :=
  {| sourceName := "github"; Surveyor.survey := survey searchRepositories |}.

End GitHubSurveyor.

Module ArXivSurveyor.

Definition categories : list string :=
  [ "cs.AI"; "cs.LG"; "cs.CL"; "cs.CV"; "cs.RO" ].

Definition survey (searchPapers : string -> Fetcher) (w : World)
  : World * Completion SurveyResult :=
  finish (survey_dimensions 3000 searchPapers categories (start w)).

Definition surveyor (searchPapers : string -> Fetcher) : BaseSurveyor :=
  {| sourceName := "arxiv"; Surveyor.survey := survey searchPapers |}.

End ArXivSurveyor.

Module YouTubeSurveyor.

Definition searchQueries : list string :=
  [ "AI tools new"; "machine learning tools"; "LLM applications";
    "AI agents tutorial"; "latest AI developments" ].

(** [survey()]: without [YOUTUBE_API_KEY] it reports one error and does
    nothing else. *)
Definition survey (apiKey : option string)
  (searchVideos : string -> string -> Fetcher) (w : World)
  : World * Completion SurveyResult :=
  match apiKey with
  | Some key =>
      if truthy_string key
      then finish (survey_dimensions 1000 (fun q => searchVideos q key)
                     searchQueries (start w))
      else finish (push_error "YouTube API key not configured" (start w))
  | None => finish (push_error "YouTube API key not configured" (start w))
  end.

Definition surveyor (apiKey : option string)
  (searchVideos : string -> string -> Fetcher) : BaseSurveyor :=
  {| sourceName := "youtube";
     Surveyor.survey := survey apiKey searchVideos |}.

End YouTubeSurveyor.

Module HuggingFaceSurveyor.

(** [survey()]: one [try] block around both listings, models first, then
    spaces; the catch block pushes the bare message. *)
Definition survey (surveyModels surveySpaces : Fetcher) (w : World)
  : World * Completion SurveyResult :=
  let acc := start w in
  let models := surveyModels (clock (world acc)) in
  let acc := move_clock (fst models) acc in
  match snd models with
  | Throw message => finish (push_error message acc)
  | Normal items =>
      let acc := process_items items acc in
      let spaces := surveySpaces (clock (world acc)) in
      let acc := move_clock (fst spaces) acc in
      match snd spaces with
      | Throw message => finish (push_error message acc)
      | Normal items => finish (process_items items acc)
      end
  end.

Definition surveyor (surveyModels surveySpaces : Fetcher) : BaseSurveyor :=
  {| sourceName := "huggingface";
     Surveyor.survey := survey surveyModels surveySpaces |}.

End HuggingFaceSurveyor.

(** ** The orchestrator (orchestrator.ts) *)

Module AgentOrchestrator.

(** [config.data_sources]: source name to its [enabled] flag. *)
Definition DataSources := list (string * bool).

Fixpoint source_enabled (name : string) (d : DataSources) : bool :=
  match d with
  | [] => false
  | (k, e) :: r => if String.eqb k name then e else source_enabled name r
  end.

(** [initializeSurveyors]: the [surveyors] map in insertion order. *)
Definition initializeSurveyors (d : DataSources)
  (huggingface github youtube arxiv : BaseSurveyor)
  : list (string * BaseSurveyor) :=
  (if source_enabled "huggingface" d then [("huggingface", huggingface)] else [])
  ++ (if source_enabled "github" d then [("github", github)] else [])
  ++ (if source_enabled "youtube" d then [("youtube", youtube)] else [])
  ++ (if source_enabled "arxiv" d then [("arxiv", arxiv)] else []).

(** [if (i > 0) await this.sleep(5000)]. *)
Definition stagger (i : nat) (w : World) : World :=
  if (0 <? i)%nat then sleep 5000 w else w.

(** The [for] loop of [runSurvey] from index [i] on: stagger, run, and on
    an exception note 'failed' and go on. *)
Fixpoint survey_loop (i : nat) (surveyors : list (string * BaseSurveyor))
  (w : World) (results : list (string * string))
  : World * list (string * string) :=
  match surveyors with
  | [] => (w, results)
  | (name, surveyor) :: rest =>
      let w := stagger i w in
      let r := run surveyor w in
      survey_loop (S i) rest (fst r)
        (results ++
         [(name, match snd r with
                 | Normal _ => "success"
                 | Throw _ => "failed"
                 end)])
  end.

(** [runSurvey()]; the statistics it prints at the end are read-only. *)
Definition runSurvey (surveyors : list (string * BaseSurveyor)) (w : World)
  : World * Completion unit :=
  (fst (survey_loop 0 surveyors w []), Normal tt).

(** The outcome [runSurvey] notes for each adapter. *)
Definition summary (surveyors : list (string * BaseSurveyor)) (w : World)
  : list (string * string) :=
  snd (survey_loop 0 surveyors w []).

End AgentOrchestrator.

(** ** The recommendation engine (personalization/engine.ts) *)

Module PersonalizationEngine.

Definition weight_ai_needs : float := 0.4%float.
Definition weight_tech_stack : float := 0.3%float.
Definition weight_category : float := 0.2%float.
Definition weight_popularity : float := 0.1%float.

Definition overlap (a b : string) : bool := includes a b || includes b a.

(** [calculateRelevance]. On rows read back from the store [ai_needs],
    [tech_stack] and [capabilities] are always arrays, so the guards on them
    hold. *)
Definition calculateRelevance (project : ProjectRow) (tool : ToolRow) : float :=
  let score := 0%float in
  let score :=
    let needsLower := map toLowerCase (pr_ai_needs project) in
    let capsLower := map toLowerCase (row_capabilities tool) in
    let matches :=
      filter (fun need => some (fun cap => overlap cap need) capsLower)
        needsLower in
    (score +
     number_of_nat (List.length matches)
     / number_of_nat (Nat.max (List.length needsLower) 1)
     * weight_ai_needs)%float in
  let score :=
    match metadata_get "language" (row_metadata tool) with
    | Some language =>
        if truthy_string language then
          let stackLower := map toLowerCase (pr_tech_stack project) in
          let toolLang := toLowerCase language in
          if some (fun s => overlap toolLang s) stackLower
          then (score + weight_tech_stack)%float
          else score
        else score
    | None => score
    end in
  let score :=
    if truthy_number (row_popularity_score tool)
    then (score + row_popularity_score tool / 100 * weight_popularity)%float
    else score in
  let score :=
    match row_category tool with
    | Some category =>
        if truthy_string category then
          let categoryLower := toLowerCase category in
          let needsLower := join " " (map toLowerCase (pr_ai_needs project)) in
          if includes needsLower categoryLower || includes categoryLower "general"
          then (score + weight_category)%float
          else score
        else score
    | None => score
    end in
  Math_min 1 score.

(** [generateRecommendationReason]. *)
Definition generateRecommendationReason (project : ProjectRow) (tool : ToolRow)
  (relevance : float) : string :=
  let reasons :=
    [ if gt relevance 0.8 then "Highly relevant to your project needs"
      else if gt relevance 0.5 then "Good match for your project"
      else "May be useful for your project" ] in
  let matchedNeeds :=
    filter (fun need =>
              some (fun cap => overlap (toLowerCase cap) (toLowerCase need))
                (row_capabilities tool))
      (pr_ai_needs project) in
  let reasons :=
    if (0 <? List.length matchedNeeds)%nat
    then reasons ++ [("Supports: " ++ join ", " (slice0 2 matchedNeeds))%string]
    else reasons in
  let reasons :=
    if row_open_source tool then reasons ++ ["Open source"] else reasons in
  let reasons :=
    if row_api_available tool then reasons ++ ["API available"] else reasons in
  let reasons :=
    if truthy_number (row_popularity_score tool)
       && gt (row_popularity_score tool) 50
    then reasons ++ ["Popular tool"]
    else reasons in
  (join ". " reasons ++ ".")%string.

Definition string_of_Z (z : Z) : string :=
  DecimalString.NilZero.string_of_int (Z.to_int z).

(** The threshold a tool must exceed to be recommended. *)
Definition threshold : float := 0.3%float.

(** The body of [for (const tool of allTools)] in
    [generateRecommendations]. *)
Definition consider (now : Timestamp) (project : ProjectRow) (projectId : Z)
  (acc : Store * list Recommendation) (tool : ToolRow)
  : Store * list Recommendation :=
  let relevance := calculateRelevance project tool in
  if gt relevance threshold then
    let reason := generateRecommendationReason project tool relevance in
    let rec :=
      {| rec_id := None;
         tool_id := row_id tool;
         user_project_id := Some projectId;
         rec_relevance_score := relevance;
         reason := reason;
         rec_status := Some pending;
         tool := Some tool |} in
    let inserted := insertRecommendation now rec (fst acc) in
    (fst inserted,
     snd acc ++
     [ {| rec_id := Some (snd inserted);
          tool_id := tool_id rec;
          user_project_id := user_project_id rec;
          rec_relevance_score := rec_relevance_score rec;
          reason := Db.reason rec;
          rec_status := rec_status rec;
          tool := Db.tool rec |} ])
  else acc.

(** [(a, b) => b.relevance_score - a.relevance_score] puts [x] after [y]
    when it is positive. *)
Definition by_relevance_follows (x y : Recommendation) : bool :=
  gt (rec_relevance_score y - rec_relevance_score x)%float 0.

(** [generateRecommendations(projectId)]. *)
Definition generateRecommendations (now : Timestamp) (projectId : Z) (s : Store)
  : Store * Completion (list Recommendation) :=
  let projects := getAllProjects s in
  match find (fun p => (pr_id p =? projectId)%Z) projects with
  | None => (s, Throw ("Project " ++ string_of_Z projectId ++ " not found")%string)
  | Some project =>
      let allTools := getAllTools 1000 0 s in
      let done := fold_left (consider now project projectId) allTools (s, []) in
      let recommendations := sort_by by_relevance_follows (snd done) in
      (fst done, Normal (slice0 20 recommendations))
  end.

(** The rows a call added to table [recommendations]. *)
Definition persisted (before after : Store) : list RecommendationRow :=
  skipn (List.length (Db.recommendations before)) (Db.recommendations after).

End PersonalizationEngine.

Import AgentOrchestrator PersonalizationEngine.

(** ** Vocabulary of the properties *)

(** The stores the adapters build: from the empty one by their
    lookup-then-update-or-insert step. *)
Inductive surveyed : Store -> Prop :=
| surveyed_empty : surveyed Db.empty
| surveyed_upsert (now : Timestamp) (t : AITool) (s : Store) :
    surveyed s -> surveyed (fst (upsert now t s)).

(** The columns [updateTool] never assigns. *)
Definition frame_kept (before after : ToolRow) : Prop :=
  row_id after = row_id before /\
  row_source after = row_source before /\
  row_subcategory after = row_subcategory before /\
  row_api_available after = row_api_available before /\
  row_open_source after = row_open_source before /\
  row_pricing_model after = row_pricing_model before /\
  row_metadata after = row_metadata before /\
  row_first_discovered after = row_first_discovered before /\
  row_relevance_score after = row_relevance_score before.

(** What [lastError] holds after the iterations [i .. i + n - 1] of
    [fetchWithRetry], none of which returned: the error of the last attempt
    that failed for a reason other than rate limiting. *)
Fixpoint last_caught (net : nat -> FetchOutcome) (i n : nat)
  (lastError : option string) : option string :=
  match n with
  | O => lastError
  | S n' =>
      last_caught net (S i) n'
        match failure_of (net i) with
        | Some e => Some e
        | None => lastError
        end
  end.

(** [lastError || new Error('Unknown error during fetch')]. *)
Definition surfaced (lastError : option string) : string :=
  match lastError with
  | Some e => e
  | None => "Unknown error during fetch"
  end.

(** The requests of a trace that failed for a reason other than rate
    limiting. *)
Definition plain_failures (tr : list Event) : nat :=
  List.length
    (filter (fun e =>
               match e with
               | Fetch _ o =>
                   match failure_of o with Some _ => true | None => false end
               | Sleep _ => false
               end) tr).

(** The reading under which a rate-limited attempt costs nothing: the call
    gives up only once [maxRetries] attempts have failed for another
    reason. *)
Definition rate_limit_free_of_charge : Prop :=
  forall (net : nat -> FetchOutcome) (maxRetries : nat),
    is_throw (fst (fetchWithRetry net maxRetries)) = true ->
    plain_failures (snd (fetchWithRetry net maxRetries)) = maxRetries.

(** The weighted sum of [log10(count + 1)] terms of the design document. *)
Definition log_term (m : option N) : R :=
  log10 (IZR (Z.of_N (count_of m)) + 1).

Definition weighted_logs (metrics : Metrics) : R :=
  (log_term (stars metrics) * 10 + log_term (downloads metrics) * 5 +
   log_term (views metrics) * 2 + log_term (likes metrics) * 3)%R.

(** Every component of [a] is at least the one of [b]. *)
Definition dominates (a b : Metrics) : Prop :=
  (count_of (stars b) <= count_of (stars a))%N /\
  (count_of (downloads b) <= count_of (downloads a))%N /\
  (count_of (views b) <= count_of (views a))%N /\
  (count_of (likes b) <= count_of (likes a))%N.

(** An adapter whose [survey()] does not write to the survey log itself;
    the adapters of the repository only look tools up, update and insert
    them. *)
Definition keeps_log (a : BaseSurveyor) : Prop :=
  forall w, survey_runs (db (fst (survey a w))) = survey_runs (db w).

(** An adapter whose result counts its error messages: [stats.errors] is
    [errors.length], as every adapter of the repository builds it. *)
Definition counts_its_errors (a : BaseSurveyor) : Prop :=
  forall w r,
    snd (survey a w) = Normal r ->
    stats_errors (stats r) = List.length (errors r).

(** The status a logged row must have for the way [survey()] ended. *)
Definition status_fits (c : Completion SurveyResult) (row : SurveyRunRow)
  : Prop :=
  match c with
  | Throw e =>
      sr_status row = failed /\ sr_error_log row = Some e /\
      sr_items_discovered row = 0%nat /\ sr_items_updated row = 0%nat
  | Normal r =>
      sr_status row = match errors r with [] => success | _ :: _ => partial end /\
      sr_items_discovered row = discovered (stats r) /\
      sr_items_updated row = updated (stats r)
  end.

(** [logged i surveyors w rows w']: running the adapters one after the
    other from index [i] and world [w], each after its stagger and in the
    world the one before left, ends in [w'] and appends [rows], one row per
    adapter in order: failed where [survey()] threw, success or partial
    where it returned. *)
Inductive logged
  : nat -> list (string * BaseSurveyor) -> World -> list SurveyRunRow ->
    World -> Prop :=
| logged_done (i : nat) (w : World) : logged i [] w [] w
| logged_step (i : nat) (name : string) (a : BaseSurveyor)
    (rest : list (string * BaseSurveyor)) (w w' : World)
    (row : SurveyRunRow) (rows : list SurveyRunRow) :
    sr_source row = sourceName a ->
    (if is_throw (snd (survey a (stagger i w)))
     then sr_status row = failed
     else sr_status row = success \/ sr_status row = partial) ->
    survey_runs (db (fst (run a (stagger i w)))) =
      survey_runs (db (stagger i w)) ++ [row] ->
    logged (S i) rest (fst (run a (stagger i w))) rows w' ->
    logged i ((name, a) :: rest) w (row :: rows) w'.

(** Two states of a survey that differ at most in the error messages. *)
Definition same_progress (a b : Progress) : Prop :=
  world a = world b /\ found a = found b /\
  n_discovered a = n_discovered b /\ n_updated a = n_updated b.

(** A fetcher made harmless: where [search] throws it returns an empty
    page, at the same clock. *)
Definition quiet (search : string -> Fetcher) : string -> Fetcher :=
  fun d c =>
    (fst (search d c),
     match snd (search d c) with
     | Throw _ => Normal []
     | Normal items => Normal items
     end).

(** The messages of the dimensions whose fetch throws, in order. The clock
    at which each dimension is fetched does not depend on the database. *)
Fixpoint failure_messages (delay : Z) (search : string -> Fetcher)
  (dimensions : list string) (c : Z) : list string :=
  match dimensions with
  | [] => []
  | d :: rest =>
      let answer := search d (c + Z.max 0 delay)%Z in
      match snd answer with
      | Throw message => [(d ++ ": " ++ message)%string]
      | Normal _ => []
      end ++ failure_messages delay search rest (fst answer)
  end.

(** The four components of the relevance score, in the words of the design
    document: the share of the project's needs that overlap a capability of
    the tool, whether a stack label overlaps the tool's language, the
    popularity as a fraction of 100 (none for a tool without popularity),
    and whether the category occurs in the needs or is general. *)
Definition needsMatch (project : ProjectRow) (tool : ToolRow) : float :=
  let needs := map toLowerCase (pr_ai_needs project) in
  let caps := map toLowerCase (row_capabilities tool) in
  (number_of_nat
     (List.length (filter (fun need => existsb (fun cap => overlap cap need) caps)
                     needs))
   / number_of_nat (Nat.max (List.length needs) 1))%float.

Definition stackMatch (project : ProjectRow) (tool : ToolRow) : bool :=
  match metadata_get "language" (row_metadata tool) with
  | Some language =>
      truthy_string language &&
      existsb (fun s => overlap (toLowerCase language) s)
        (map toLowerCase (pr_tech_stack project))
  | None => false
  end.

Definition popularityBoost (tool : ToolRow) : option float :=
  if truthy_number (row_popularity_score tool)
  then Some (row_popularity_score tool / 100)%float
  else None.

Definition categoryMatch (project : ProjectRow) (tool : ToolRow) : bool :=
  match row_category tool with
  | Some category =>
      truthy_string category &&
      (includes (join " " (map toLowerCase (pr_ai_needs project)))
         (toLowerCase category)
       || includes (toLowerCase category) "general")
  | None => false
  end.

(** The weighted formula: 0.4 for the needs, 0.3 for the stack, 0.1 for the
    popularity and 0.2 for the category, added in this order, at most 1. *)
Definition weighted_score (project : ProjectRow) (tool : ToolRow) : float :=
  let score := (0 + needsMatch project tool * 0.4)%float in
  let score := if stackMatch project tool then (score + 0.3)%float else score in
  let score :=
    match popularityBoost tool with
    | Some boost => (score + boost * 0.1)%float
    | None => score
    end in
  let score := if categoryMatch project tool then (score + 0.2)%float else score in
  Math_min 1 score.

Definition in_unit_interval (x : float) : Prop :=
  PrimFloat.leb 0 x = true /\ PrimFloat.leb x 1 = true.

(** The tools [generateRecommendations] keeps. *)
Definition qualifies (project : ProjectRow) (tool : ToolRow) : bool :=
  gt (calculateRelevance project tool) threshold.

(** A row of [recommendations] written for a tool, and a returned
    recommendation standing for a row. *)
Definition row_for (project : ProjectRow) (tool : ToolRow)
  (row : RecommendationRow) : Prop :=
  rr_tool_id row = row_id tool /\
  rr_user_project_id row = Some (pr_id project) /\
  rr_relevance_score row = calculateRelevance project tool /\
  rr_status row = pending.

Definition returned_for (row : RecommendationRow) (r : Recommendation) : Prop :=
  rec_id r = Some (rr_id row) /\
  tool_id r = rr_tool_id row /\
  rec_relevance_score r = rr_relevance_score row.

(** ** Sample data *)

Module Samples.

(** Scenario 1 of the design document: a repository found with 100 stars. *)
Definition tool_A (text : string) : AITool :=
  {| name := "A";
     description := Some text;
     url := Some "https://x/y";
     source := "github";
     category := Some "LLM";
     subcategory := Some "TypeScript";
     capabilities := Some ["text generation"];
     api_available := Some true;
     open_source := Some true;
     pricing_model := Some "free";
     popularity_score := Some 20%float;
     relevance_score := None;
     metadata := Some [("language", "TypeScript")] |}.

Definition too_many_requests (retryAfter : option string) : FetchOutcome :=
  Responded {| resp_status := 429; statusText := "Too Many Requests";
               retry_after := retryAfter |}.

Definition server_error : FetchOutcome :=
  Responded {| resp_status := 500; statusText := "Internal Server Error";
               retry_after := None |}.

Definition fine : FetchOutcome :=
  Responded {| resp_status := 200; statusText := "OK"; retry_after := None |}.

(** A server that limits the first three requests and would answer the
    fourth. *)
Definition limited_three_times (i : nat) : FetchOutcome :=
  if (i <? 3)%nat then too_many_requests (Some "2") else fine.

(** A connection reset, a rate limit, then a server error. *)
Definition flaky (i : nat) : FetchOutcome :=
  match i with
  | 0 => Rejected "ECONNRESET"
  | 1 => too_many_requests (Some "2")
  | _ => server_error
  end.

(** Three failures that are not rate limits. *)
Definition down (i : nat) : FetchOutcome :=
  match i with
  | 0 => Rejected "ECONNRESET"
  | 1 => Rejected "ETIMEDOUT"
  | _ => server_error
  end.

Definition repo_metrics : Metrics :=
  {| stars := Some 100%N; downloads := None; views := Some 10%N;
     likes := None |}.

Definition smaller_repo_metrics : Metrics :=
  {| stars := Some 50%N; downloads := None; views := Some 0%N;
     likes := None |}.

Definition world0 : World := {| clock := 0; db := Db.empty |}.

(** One tool per page, named after the query. *)
Definition page_of (d : string) : list AITool :=
  [ {| name := d;
       description := None;
       url := Some ("https://github.com/" ++ d)%string;
       source := "github";
       category := Some "General AI";
       subcategory := None;
       capabilities := Some [];
       api_available := Some false;
       open_source := Some true;
       pricing_model := Some "free";
       popularity_score := Some 10%float;
       relevance_score := None;
       metadata := Some [] |} ].

(** A code host whose search fails for the topic "nlp" only. *)
Definition search_nlp_down (d : string) : Fetcher :=
  fun c =>
    if String.eqb d "nlp"
    then ((c + 7000)%Z, Throw "HTTP 500: Internal Server Error")
    else ((c + 300)%Z, Normal (page_of d)).

(** A model hub whose model listing fails while its space listing works. *)
Definition models_down : Fetcher :=
  fun c => ((c + 7000)%Z, Throw "HTTP 500: Internal Server Error").

Definition models_empty : Fetcher :=
  fun c => ((c + 7000)%Z, Normal []).

Definition spaces_up : Fetcher :=
  fun c => ((c + 300)%Z, Normal (page_of "spaces/demo")).

(** An adapter whose [survey()] throws. *)
Definition broken : BaseSurveyor :=
  {| sourceName := "huggingface";
     Surveyor.survey := fun w => (w, Throw "boom") |}.

(** Scenario 4 of the design document: a project that needs semantic
    search and a tool that offers it, popularity 80; with it a tool that only
    shares the project's language and one that is merely general. *)
Definition shop : UserProject :=
  {| project_name := "shop";
     path := Some "/home/me/shop";
     project_description := None;
     tech_stack := Some ["JavaScript/TypeScript"; "TypeScript"];
     ai_needs := Some ["semantic search"] |}.

Definition search_tool : AITool :=
  {| name := "sentence-embedder";
     description := Some "Sentence embeddings";
     url := Some "https://huggingface.co/acme/sentence-embedder";
     source := "huggingface";
     category := Some "NLP";
     subcategory := Some "feature-extraction";
     capabilities := Some ["embedding"; "semantic search"];
     api_available := Some true;
     open_source := Some true;
     pricing_model := Some "free";
     popularity_score := Some 80%float;
     relevance_score := None;
     metadata := Some [] |}.

Definition catalog : Store :=
  let s := fst (insertProject 50 shop Db.empty) in
  let s := fst (insertTool 60 search_tool s) in
  let s := fst (insertTool 70 (tool_A "first") s) in
  fst (insertTool 80 (hd (tool_A "") (page_of "misc")) s).

End Samples.

(** ** The remaining queries of the store (database/manager.ts) *)

Module Queries.

Definition has_category (category : string) (r : ToolRow) : bool :=
  match row_category r with
  | Some c => String.eqb c category
  | None => false
  end.

(** [getToolsByCategory]: [WHERE category = ? ORDER BY popularity_score
    DESC]. *)
Definition getToolsByCategory (category : string) (s : Store) : list ToolRow :=
  sort_by
    (fun x y =>
       real_desc_follows (row_popularity_score x) (row_popularity_score y))
    (filter (has_category category) (ai_tools s)).

(** [getRecentSurveyRuns(limit)]: [ORDER BY run_time DESC LIMIT ?]. *)
Definition getRecentSurveyRuns (limit : nat) (s : Store) : list SurveyRunRow :=
  firstn limit
    (sort_by (fun x y => (sr_run_time x <? sr_run_time y)%Z) (survey_runs s)).

(** The text column [status] holds for a recommendation. *)
Definition status_name (st : RecommendationStatus) : string :=
  match st with
  | pending => "pending"
  | accepted => "accepted"
  | rejected => "rejected"
  | dismissed => "dismissed"
  end.

(** What [getRecommendations] returns: [interface Recommendation] with
    [created_at] and the tool filled in. *)
Record ListedRecommendation := mkListed {
  listed_id : Z;
  listed_tool_id : Z;
  listed_user_project_id : option Z;
  listed_relevance_score : float;
  listed_reason : string;
  listed_status : string;
  listed_created_at : Timestamp;
  listed_tool : ToolRow
}.

(** [if (projectId)]: a project id that is given and not 0 narrows the
    selection. *)
Definition project_selected (projectId : option Z) (r : RecommendationRow)
  : bool :=
  match projectId with
  | Some p =>
      if (p =? 0)%Z then true
      else match rr_user_project_id r with
           | Some q => (q =? p)%Z
           | None => false
           end
  | None => true
  end.

(** One row of [SELECT r.*, t.* FROM recommendations r JOIN ai_tools t ON
    r.tool_id = t.id] as the driver hands it over: an object with one
    property per column name, filled in column order, so that of the two
    columns named [id] and of the two named [relevance_score] the later one,
    of [ai_tools], is what the property holds. *)
Definition of_joined (row : RecommendationRow * ToolRow) : ListedRecommendation :=
  let r := fst row in
  let t := snd row in
  {| listed_id := row_id t;
     listed_tool_id := rr_tool_id r;
     listed_user_project_id := rr_user_project_id r;
     listed_relevance_score := row_relevance_score t;
     listed_reason := rr_reason r;
     listed_status := status_name (rr_status r);
     listed_created_at := rr_created_at r;
     listed_tool := t |}.

Definition joined (projectId : option Z) (status : string) (s : Store)
  : list (RecommendationRow * ToolRow) :=
  flat_map
    (fun r =>
       map (fun t => (r, t))
         (filter (fun t => (row_id t =? rr_tool_id r)%Z) (ai_tools s)))
    (filter
       (fun r =>
          String.eqb (status_name (rr_status r)) status &&
          project_selected projectId r)
       (Db.recommendations s)).

(** [getRecommendations(projectId, status)]: [WHERE r.status = ?], the
    project if given, [ORDER BY r.relevance_score DESC]. *)
Definition getRecommendations (projectId : option Z) (status : string)
  (s : Store) : list ListedRecommendation :=
  map of_joined
    (sort_by
       (fun x y =>
          real_desc_follows (rr_relevance_score (fst x))
            (rr_relevance_score (fst y)))
       (joined projectId status s)).

End Queries.

Import Queries.

(** ** More of the orchestrator (orchestrator.ts) *)

Module OnDemand.

(** [this.surveyors.get(name)]. *)
Fixpoint get (name : string) (surveyors : list (string * BaseSurveyor))
  : option BaseSurveyor :=
  match surveyors with
  | [] => None
  | (k, a) :: rest => if String.eqb k name then Some a else get name rest
  end.

(** [runOnDemand(surveyorName?)]. *)
Definition runOnDemand (surveyors : list (string * BaseSurveyor))
  (surveyorName : option string) (w : World) : World * Completion unit :=
  match surveyorName with
  | Some name =>
      if truthy_string name then
        match get name surveyors with
        | None => (w, Throw ("Surveyor '" ++ name ++ "' not found")%string)
        | Some surveyor => run surveyor w
        end
      else runSurvey surveyors w
  | None => runSurvey surveyors w
  end.

(** The time of day [scheduleDaily] aims at and the delay of the timer it
    arms, for a process whose local days all have 24 hours: [startOfDay] is
    the local midnight before [now] (both in milliseconds), [scheduled] is
    [setHours(hours, minutes, 0, 0)] on today's date, moved to tomorrow's
    when it is not after [now]. *)
Definition day_ms : Z := 86400000.

Definition scheduled_today (startOfDay hours minutes : Z) : Z :=
  (startOfDay + hours * 3600000 + minutes * 60000)%Z.

Definition scheduleDaily_delay (startOfDay now hours minutes : Z) : Z :=
  let scheduled := scheduled_today startOfDay hours minutes in
  let scheduled :=
    if (scheduled <=? now)%Z then (scheduled + day_ms)%Z else scheduled in
  (scheduled - now)%Z.

End OnDemand.

Import OnDemand.

(** ** Keyword classification (surveyors/baseSurveyor.ts) *)

Module Classify.

(** The table of [categorizeByKeywords], in the order [Object.entries]
    lists it. *)
Definition categories : list (string * list string) :=
  [ ("LLM", ["llm"; "language model"; "gpt"; "claude"; "llama"; "mistral";
             "gemini"]);
    ("Computer Vision", ["vision"; "image"; "video"; "cv"; "object detection";
                         "segmentation"]);
    ("NLP", ["nlp"; "natural language"; "text"; "translation"; "sentiment"]);
    ("Agent", ["agent"; "autonomous"; "rag"; "retrieval"]);
    ("Audio", ["audio"; "speech"; "voice"; "sound"; "music"]);
    ("Robotics", ["robot"; "robotics"; "control"; "motion"]);
    ("ML Framework", ["framework"; "pytorch"; "tensorflow"; "jax"; "training"]);
    ("Data Science", ["data"; "analysis"; "visualization"; "pandas"; "numpy"]);
    ("MLOps", ["mlops"; "deployment"; "monitoring"; "serving"; "inference"]) ].

(** [keywords.some(keyword => lowerText.includes(keyword))]. *)
Definition mentions (lowerText : string) (keywords : list string) : bool :=
  some (fun keyword => includes lowerText keyword) keywords.

(** [categorizeByKeywords]. *)
Definition categorizeByKeywords (text : string) : string :=
  let lowerText := toLowerCase text in
  match find (fun entry => mentions lowerText (snd entry)) categories with
  | Some entry => fst entry
  | None => "General AI"
  end.

End Classify.

Import Classify.

(** ** Project analysis (personalization/engine.ts) *)

Module Analysis.

(** What a path of the file system leads to: a file ([None] when it cannot
    be read), a directory with its entries in the order [readdirSync] lists
    them, a directory that cannot be listed, something that is neither a
    file nor a directory, or nothing [statSync] succeeds on. *)
#[warnings="-register-all"]
Inductive Node :=
| File (content : option string)
| Dir (entries : list (string * Node))
| Locked
| Other
| Broken.

(** [path.join(dir, entry)] for a normalized [dir] and an entry name. *)
Definition join_path (dir entry : string) : string :=
  (dir ++ "/" ++ entry)%string.

(** [entry.startsWith('.') || entry === 'node_modules' || entry ===
    'vendor']. *)
Definition skipped (entry : string) : bool :=
  String.prefix "." entry || String.eqb entry "node_modules"
  || String.eqb entry "vendor".

(** [walkDirectory(dir, maxDepth, currentDepth)], [depth] being [maxDepth -
    currentDepth] and [node] what [dir] leads to. Each path comes with what
    reading the file gives. *)
Fixpoint walkDirectory (depth : nat) (dir : string) (node : Node)
  : list (string * option string) :=
  match depth with
  | O => []
  | S depth' =>
      match node with
      | Dir entries =>
          flat_map
            (fun entry =>
               if skipped (fst entry) then []
               else
                 let fullPath := join_path dir (fst entry) in
                 match snd entry with
                 | File content => [(fullPath, content)]
                 | Dir _ | Locked => walkDirectory depth' fullPath (snd entry)
                 | Other | Broken => []
                 end)
            entries
      | File _ | Locked | Other | Broken => []
      end
  end.

(** [String.prototype.endsWith]. *)
Fixpoint endsWith (s suffix : string) : bool :=
  String.eqb s suffix ||
  match s with
  | EmptyString => false
  | String _ r => endsWith r suffix
  end.

(** [path.split('/').pop()]. *)
Fixpoint last_segment (s : string) (current : string) : string :=
  match s with
  | EmptyString => current
  | String c r =>
      if Ascii.eqb c "/" then last_segment r EmptyString
      else last_segment r (current ++ String c EmptyString)
  end.

Definition basename (p : string) : string := last_segment p EmptyString.

(** [path.extname], for a path whose last segment does not begin with a
    dot: from the last dot of the segment on, or empty. *)
Fixpoint from_last_dot (s : string) (current : string) : string :=
  match s with
  | EmptyString => current
  | String c r =>
      if Ascii.eqb c "." then from_last_dot r s else from_last_dot r current
  end.

Definition extname (p : string) : string :=
  match basename p with
  | EmptyString => EmptyString
  | String _ r => from_last_dot r EmptyString
  end.

(** [Set.prototype.add] on an insertion-ordered set. *)
Definition add (x : string) (set : list string) : list string :=
  if existsb (String.eqb x) set then set else set ++ [x].

Definition add_if (b : bool) (x : string) (set : list string) : list string :=
  if b then add x set else set.

Definition paths (files : list (string * option string)) : list string :=
  map fst files.

(** [detectTechStack]. [has_dependency content name] says that
    [JSON.parse(content)] succeeds and has a truthy [dependencies] with a
    truthy entry [name]. *)
Definition detectTechStack (has_dependency : string -> string -> bool)
  (projectPath : string) (root : Node) : list string :=
  let files := walkDirectory 3 projectPath root in
  let stack := [] in
  let stack :=
    match find (fun f => endsWith (fst f) "package.json") files with
    | Some packageFile =>
        let stack := add "JavaScript/TypeScript" stack in
        match snd packageFile with
        | Some content =>
            let stack := add_if (has_dependency content "react") "React" stack in
            let stack := add_if (has_dependency content "vue") "Vue" stack in
            let stack :=
              add_if (has_dependency content "angular") "Angular" stack in
            let stack :=
              add_if (has_dependency content "express") "Express" stack in
            add_if (has_dependency content "next") "Next.js" stack
        | None => stack
        end
    | None => stack
    end in
  let ends (suffix : string) :=
    some (fun f => endsWith f suffix) (paths files) in
  let stack := add_if (ends "requirements.txt" || ends "pyproject.toml")
                 "Python" stack in
  let stack := add_if (ends "go.mod") "Go" stack in
  let stack := add_if (ends "Cargo.toml") "Rust" stack in
  let stack := add_if (ends "pom.xml" || ends "build.gradle") "Java" stack in
  let extensions := map (fun f => toLowerCase (extname f)) (paths files) in
  let has (ext : string) := existsb (String.eqb ext) extensions in
  let stack := add_if (has ".ts" || has ".tsx") "TypeScript" stack in
  let stack := add_if (has ".py") "Python" stack in
  let stack := add_if (has ".java") "Java" stack in
  let stack := add_if (has ".go") "Go" stack in
  let stack := add_if (has ".rs") "Rust" stack in
  add_if (has ".cpp" || has ".cc") "C++" stack.

(** The needs a README adds. *)
Definition readme_needs (content : string) (needs : list string)
  : list string :=
  let needs :=
    if includes content "chat" || includes content "conversation"
    then add "natural language processing" (add "LLM integration" needs)
    else needs in
  let needs :=
    if includes content "image" || includes content "vision"
    then add "image processing" (add "computer vision" needs)
    else needs in
  let needs :=
    if includes content "recommendation"
    then add "personalization" (add "recommendation system" needs)
    else needs in
  let needs :=
    if includes content "search"
    then add "embeddings" (add "semantic search" needs)
    else needs in
  let needs :=
    if includes content "analysis" || includes content "analytics"
    then add "machine learning" (add "data analysis" needs)
    else needs in
  let needs :=
    add_if (includes content "translation") "language translation" needs in
  add_if (includes content "sentiment") "sentiment analysis" needs.

Definition is_readme (f : string * option string) : bool :=
  includes (toLowerCase (fst f)) "readme" && endsWith (fst f) ".md".

(** [inferAINeeds]. *)
Definition inferAINeeds (techStack : list string) (projectPath : string)
  (root : Node) : list string :=
  let needs := [] in
  let needs :=
    match find is_readme (walkDirectory 2 projectPath root) with
    | Some (_, Some content) => readme_needs (toLowerCase content) needs
    | Some (_, None) => needs
    | None => needs
    end in
  let includes_label (l : string) := existsb (String.eqb l) techStack in
  let needs :=
    add_if (includes_label "React" || includes_label "Vue")
      "frontend AI components" needs in
  let needs := add_if (includes_label "Python") "ML framework integration" needs in
  match needs with
  | [] => add "automation" (add "general AI capabilities" needs)
  | _ :: _ => needs
  end.

(** [generateProjectDescription]. *)
Definition generateProjectDescription (techStack : list string)
  (projectPath : string) : string :=
  let joined := join ", " techStack in
  let stack := if truthy_string joined then joined else "Unknown stack" in
  (basename projectPath ++ " project using " ++ stack)%string.

(** [analyzeProject(projectPath, projectName)]: the project it returns and
    the store with its row. *)
Definition analyzeProject (has_dependency : string -> string -> bool)
  (now : Timestamp) (projectPath : string) (projectName : option string)
  (root : Node) (s : Store) : Store * (UserProject * Z) :=
  let name :=
    match projectName with
    | Some n =>
        if truthy_string n then n
        else if truthy_string (basename projectPath) then basename projectPath
        else "Unknown Project"
    | None =>
        if truthy_string (basename projectPath) then basename projectPath
        else "Unknown Project"
    end in
  let techStack := detectTechStack has_dependency projectPath root in
  let aiNeeds := inferAINeeds techStack projectPath root in
  let description := generateProjectDescription techStack projectPath in
  let project :=
    {| project_name := name;
       path := Some projectPath;
       project_description := Some description;
       tech_stack := Some techStack;
       ai_needs := Some aiNeeds |} in
  let inserted := insertProject now project s in
  (fst inserted, (project, snd inserted)).

End Analysis.

Import Analysis.

(** ** The user profile (database/manager.ts) *)

Module Profile.

(** A row of [user_profile]; [key] is [UNIQUE NOT NULL]. *)
Record ProfileRow := {
  up_id : Z;
  up_key : string;
  up_value : string;
  up_category : string;
  up_last_updated : Timestamp
}.

(** The table in rowid order, with its AUTOINCREMENT sequence. *)
Record Table := {
  user_profile : list ProfileRow;
  user_profile_seq : Z
}.

Definition has_key (key : string) (r : ProfileRow) : bool :=
  String.eqb (up_key r) key.

Section Json.

(** The values [JSON.stringify] serializes, and [JSON.parse], which throws
    on the texts it gives [None] for. *)
Context {J : Type} (stringify : J -> string) (parse : string -> option J).

(** What a caller passes as [value]: a string or another value. *)
Inductive Value :=
| Str (s : string)
| Json (j : J).

(** [typeof value === 'string' ? value : JSON.stringify(value)]. *)
Definition stored (value : Value) : string :=
  match value with
  | Str s => s
  | Json j => stringify j
  end.

(** [setUserProfile(key, value, category)]: [INSERT OR REPLACE] deletes the
    row that holds the key and adds a row with a new rowid. *)
Definition setUserProfile (now : Timestamp) (key : string) (value : Value)
  (category : string) (t : Table) : Table :=
  let id := (user_profile_seq t + 1)%Z in
  {| user_profile :=
       filter (fun r => negb (has_key key r)) (user_profile t) ++
       [ {| up_id := id; up_key := key; up_value := stored value;
            up_category := category; up_last_updated := now |} ];
     user_profile_seq := id |}.

(** What [getUserProfile] returns: the whole profile as the object's
    entries, [{}], the parsed value, or [{ value: row.value }]. *)
Inductive Lookup :=
| Whole (entries : list (string * (J + string)))
| Nothing
| Parsed (j : J)
| Wrapped (raw : string).

Definition entry_of (r : ProfileRow) : string * (J + string) :=
  match parse (up_value r) with
  | Some j => (up_key r, inl j)
  | None => (up_key r, inr (up_value r))
  end.

(** [getUserProfile(key?)]. *)
Definition getUserProfile (key : option string) (t : Table) : Lookup :=
  match key with
  | Some k =>
      if truthy_string k then
        match find (has_key k) (user_profile t) with
        | None => Nothing
        | Some row =>
            match parse (up_value row) with
            | Some j => Parsed j
            | None => Wrapped (up_value row)
            end
        end
      else Whole (map entry_of (user_profile t))
  | None => Whole (map entry_of (user_profile t))
  end.

End Json.

Arguments Str {J} s.
Arguments Nothing {J}.
Arguments Wrapped {J} raw.

End Profile.

Import Profile.

(** ** Capabilities named in a text (surveyors/baseSurveyor.ts) *)

Module Capabilities.

(** The alternatives of the ten patterns [/\b(a|b)\b/i] of
    [extractCapabilities], in order. *)
Definition capabilityPatterns : list (list string) :=
  [ ["text generation"; "generation"];
    ["image generation"; "image creation"];
    ["classification"; "categorization"];
    ["detection"; "recognition"];
    ["translation"];
    ["summarization"];
    ["question answering"; "qa"];
    ["embedding"; "vector"];
    ["fine-tuning"; "training"];
    ["inference"; "prediction"] ].

(** The class [\w]. *)
Definition is_word (c : ascii) : bool :=
  let n := nat_of_ascii c in
  ((48 <=? n) && (n <=? 57) || (65 <=? n) && (n <=? 90)
   || (97 <=? n) && (n <=? 122) || (n =? 95))%nat.

(** The assertion [\b] between two neighbours, [None] being an end of the
    text. *)
Definition boundary (left right : option ascii) : bool :=
  xorb (match left with Some c => is_word c | None => false end)
       (match right with Some c => is_word c | None => false end).

(** One alternative between its two [\b], tried at the head of [s], which
    follows [prev] in the text; letters match in either case. *)
Definition matches_here (prev : option ascii) (s alt : string) : bool :=
  boundary prev (String.get 0 s)
  && String.prefix alt (toLowerCase s)
  && boundary (String.get (String.length alt - 1) s)
              (String.get (String.length alt) s).

(** [text.match(pattern)]: the leftmost position where an alternative
    matches, the first such alternative there; [match[1].toLowerCase()]. *)
Fixpoint search (prev : option ascii) (s : string) (alts : list string)
  : option string :=
  match find (matches_here prev s) alts with
  | Some alt => Some (toLowerCase (String.substring 0 (String.length alt) s))
  | None =>
      match s with
      | EmptyString => None
      | String c r => search (Some c) r alts
      end
  end.

(** [extractCapabilities]. *)
Definition extractCapabilities (text : string) : list string :=
  fold_left
    (fun capabilities alts =>
       match search None text alts with
       | Some capability => add capability capabilities
       | None => capabilities
       end)
    capabilityPatterns [].

End Capabilities.

Import Capabilities.

(** ** Vocabulary of the further properties *)

(** The adapters the repository ships, over any network. *)
Inductive shipped : BaseSurveyor -> Prop :=
| shipped_huggingface (surveyModels surveySpaces : Fetcher) :
    shipped (HuggingFaceSurveyor.surveyor surveyModels surveySpaces)
| shipped_github (searchRepositories : string -> Fetcher) :
    shipped (GitHubSurveyor.surveyor searchRepositories)
| shipped_youtube (apiKey : option string)
    (searchVideos : string -> string -> Fetcher) :
    shipped (YouTubeSurveyor.surveyor apiKey searchVideos)
| shipped_arxiv (searchPapers : string -> Fetcher) :
    shipped (ArXivSurveyor.surveyor searchPapers).

(** A property of the state of a survey that its steps keep. *)
Definition kept_by_steps (I : Progress -> Prop) : Prop :=
  (forall acc t, I acc -> I (process_item acc t)) /\
  (forall acc ms, I acc -> I (pause ms acc)) /\
  (forall acc c, I acc -> I (move_clock c acc)) /\
  (forall acc m, I acc -> I (push_error m acc)).

(** Every url selects one row at most, under distinct keys. *)
Definition one_row_per_url (s : Store) : Prop :=
  tools_keyed s /\
  forall u, (List.length (rows_with_url u s) <= 1)%nat.

(** The timers a trace waits on, and the time they take together. *)
Definition sleeps (tr : list Event) : list (option Z) :=
  flat_map (fun e => match e with Sleep ms => [ms] | Fetch _ _ => [] end) tr.

Definition waited (tr : list Event) : Z :=
  fold_right
    (fun ms total =>
       (match ms with Some z => Z.max 0 z | None => 0 end + total)%Z)
    0%Z (sleeps tr).

(** What identifies a recommendation row apart from its key and date. *)
Definition row_content (r : RecommendationRow)
  : Z * option Z * float * RecommendationStatus :=
  (rr_tool_id r, rr_user_project_id r, rr_relevance_score r, rr_status r).

(** The entries of the classification table none of whose keywords occurs
    in the text. *)
Definition silent (lowerText : string) (entries : list (string * list string))
  : Prop :=
  Forall (fun entry => mentions lowerText (snd entry) = false) entries.

(** The keys of the profile are pairwise distinct, as [UNIQUE] demands. *)
Definition keys_unique (t : Table) : Prop :=
  NoDup (map up_key (user_profile t)).

(** The file with content [c] lies in [node] under the entry names [segs]. *)
Inductive file_at : Node -> list string -> option string -> Prop :=
| file_here entries name c :
    In (name, File c) entries -> file_at (Dir entries) [name] c
| file_below entries name sub segs c :
    In (name, Dir sub) entries -> file_at (Dir sub) segs c ->
    file_at (Dir entries) (name :: segs) c.

(** The path of the entry names [segs] below [dir]. *)
Definition below (dir : string) (segs : list string) : string :=
  fold_left join_path segs dir.

(** No name is hidden or a dependency directory. *)
Definition visible (segs : list string) : Prop :=
  Forall (fun name => skipped name = false) segs.

(** The labels [detectTechStack] knows. *)
Definition labels : list string :=
  ["JavaScript/TypeScript"; "React"; "Vue"; "Angular"; "Express"; "Next.js";
   "Python"; "Go"; "Rust"; "Java"; "TypeScript"; "C++"].

(** The needs of a project nothing is known about. *)
Definition default_needs : list string :=
  ["general AI capabilities"; "automation"].

(** The row [analyzeProject] stores for a directory. *)
Definition analysed (has_dependency : string -> string -> bool)
  (projectPath : string) (root : Node) (row : ProjectRow) : Prop :=
  pr_path row = Some projectPath /\
  pr_tech_stack row = detectTechStack has_dependency projectPath root /\
  pr_ai_needs row =
    inferAINeeds (detectTechStack has_dependency projectPath root)
      projectPath root.

(** ** More sample data *)

Module MoreSamples.

(** A project directory: a hidden directory and a dependency directory,
    a manifest, a README, and sources down to the fourth level. *)
Definition shop_tree : Node :=
  Dir [ (".git", Dir [("readme.md", File (Some "image search"))]);
        ("node_modules", Dir [("dep", Dir [("setup.py", File (Some ""))])]);
        ("package.json", File (Some "{dependencies: react}"));
        ("README.md", File (Some "A Chat assistant for the catalogue"));
        ("src", Dir [ ("index.ts", File (Some ""));
                      ("a", Dir [("b", Dir [("deep.py", File (Some ""))])]) ]) ].

(** A manifest reader that knows the manifest of [shop_tree]. *)
Definition react_only (content name : string) : bool :=
  String.eqb content "{dependencies: react}" && String.eqb name "react".

(** The booleans of JSON. *)
Definition stringify_bool (b : bool) : string := if b then "true" else "false".

Definition parse_bool (s : string) : option bool :=
  if String.eqb s "true" then Some true
  else if String.eqb s "false" then Some false
  else None.

Definition no_profile : Table := {| user_profile := []; user_profile_seq := 0 |}.

End MoreSamples.

(** * Properties *)

(** ** The catalog store *)

Section StoreFacts.

Variable now : Timestamp.

Lemma apply_update_frame (p : PartialAITool) (r : ToolRow) :
  frame_kept r (apply_update now p r).
Proof. unfold frame_kept; cbn; repeat split. Qed.

Lemma frame_kept_refl (r : ToolRow) : frame_kept r r.
Proof. unfold frame_kept; repeat split. Qed.

Lemma updateTool_rows (id : Z) (p : PartialAITool) (s : Store) :
  ai_tools (updateTool now id p s) =
  map (fun r => if (row_id r =? id)%Z then apply_update now p r else r)
    (ai_tools s).
Proof. reflexivity. Qed.

Lemma insertTool_rows (t : AITool) (s : Store) :
  exists row,
    ai_tools (fst (insertTool now t s)) = ai_tools s ++ [row] /\
    row_id row = snd (insertTool now t s) /\
    row_id row = (ai_tools_seq s + 1)%Z /\
    row_url row = url t /\
    row_first_discovered row = now /\
    row_last_updated row = now.
Proof. eexists; cbn; repeat split. Qed.

Lemma update_rows_keep_frame (id : Z) (p : PartialAITool) (rows : list ToolRow) :
  Forall2 frame_kept rows
    (map (fun r => if (row_id r =? id)%Z then apply_update now p r else r) rows).
Proof.
  induction rows as [|r rows IH]; cbn; constructor; auto.
  destruct (row_id r =? id)%Z.
  - apply apply_update_frame.
  - apply frame_kept_refl.
Qed.

Lemma Forall2_frame_refl (rows : list ToolRow) : Forall2 frame_kept rows rows.
Proof. induction rows; constructor; auto using frame_kept_refl. Qed.

Lemma upsert_cases (t : AITool) (s : Store) :
  (exists existing,
      snd (upsert now t s) = true /\
      In existing (ai_tools s) /\
      fst (upsert now t s) = updateTool now (row_id existing) (as_partial t) s)
  \/ (snd (upsert now t s) = false /\
      fst (upsert now t s) = fst (insertTool now t s)).
Proof.
  unfold upsert.
  destruct (match url t with Some u => getToolByUrl u s | None => None end)
    as [existing|] eqn:E.
  - left. exists existing. repeat split.
    destruct (url t); [|discriminate].
    unfold getToolByUrl in E. apply find_some in E. tauto.
  - right. split; reflexivity.
Qed.

End StoreFacts.

(** C9. [updateTool] can only change name, description, url, category,
    capabilities, popularity_score and last_updated: whatever the partial
    tool carries, every stored row keeps its id, source, subcategory,
    api_available, open_source, pricing_model, metadata, first_discovered
    and relevance_score, and the other tables are untouched. The same holds
    for the rows present before an adapter's upsert, so surveying a url
    again never refreshes its metadata, subcategory or flags. *)
Theorem updateTool_frame :
  forall (now : Timestamp) (id : Z) (p : PartialAITool) (t : AITool) (s : Store),
    Forall2 frame_kept (ai_tools s) (ai_tools (updateTool now id p s)) /\
    survey_runs (updateTool now id p s) = survey_runs s /\
    user_projects (updateTool now id p s) = user_projects s /\
    Db.recommendations (updateTool now id p s) = Db.recommendations s /\
    Forall2 frame_kept (ai_tools s)
      (firstn (List.length (ai_tools s)) (ai_tools (fst (upsert now t s)))).
Proof.
  intros now id p t s. repeat split.
  - rewrite updateTool_rows. apply update_rows_keep_frame.
  - destruct (upsert_cases now t s) as [(existing & _ & _ & ->) | (_ & ->)].
    + rewrite updateTool_rows.
      rewrite <- (length_map
        (fun r => if (row_id r =? row_id existing)%Z
                  then apply_update now (as_partial t) r else r) (ai_tools s)).
      rewrite firstn_all. apply update_rows_keep_frame.
    + destruct (insertTool_rows now t s) as (row & -> & _).
      rewrite firstn_app, firstn_all, Nat.sub_diag. cbn.
      rewrite app_nil_r. apply Forall2_frame_refl.
Qed.

Section UrlFacts.

Variable now : Timestamp.

Lemma rows_with_url_insert (u : string) (t : AITool) (s : Store) :
  exists row,
    ai_tools (fst (insertTool now t s)) = ai_tools s ++ [row] /\
    row_id row = snd (insertTool now t s) /\
    row_url row = url t /\
    row_first_discovered row = now /\
    row_last_updated row = now /\
    rows_with_url u (fst (insertTool now t s)) =
    rows_with_url u s ++ filter (has_url u) [row].
Proof.
  destruct (insertTool_rows now t s) as (row & Hrows & Hid & _ & Hurl & Hfd & Hlu).
  exists row. repeat split; auto.
  unfold rows_with_url. rewrite Hrows. apply filter_app.
Qed.

Lemma has_url_of (u : string) (r : ToolRow) :
  row_url r = Some u -> has_url u r = true.
Proof. unfold has_url. intros ->. apply String.eqb_refl. Qed.

Lemma getToolByUrl_first (u : string) (s : Store) :
  getToolByUrl u s = hd_error (rows_with_url u s).
Proof.
  unfold getToolByUrl, rows_with_url.
  induction (ai_tools s) as [|r rows IH]; cbn; [reflexivity|].
  destruct (has_url u r); cbn; auto.
Qed.

Lemma key_determines_row (rows : list ToolRow) (a b : ToolRow) :
  NoDup (map row_id rows) -> In a rows -> In b rows ->
  row_id a = row_id b -> a = b.
Proof.
  induction rows as [|r rows IH]; cbn; [tauto|].
  intros ND Ha Hb E. inversion ND as [|? ? Hnotin ND']; subst.
  destruct Ha as [<-|Ha], Hb as [<-|Hb]; auto.
  - exfalso. apply Hnotin. rewrite E. now apply in_map.
  - exfalso. apply Hnotin. rewrite <- E. now apply in_map.
Qed.

Lemma NoDup_snoc {A} (l : list A) (a : A) :
  NoDup l -> ~ In a l -> NoDup (l ++ [a]).
Proof.
  induction l as [|x l IH]; cbn; intros ND Hnot.
  - constructor; [tauto|constructor].
  - inversion ND as [|? ? Hx ND']; subst. constructor.
    + rewrite in_app_iff. cbn. intros [H|[H|[]]]; [tauto|]. subst. tauto.
    + apply IH; tauto.
Qed.

Lemma insertTool_keyed (t : AITool) (s : Store) :
  tools_keyed s -> tools_keyed (fst (insertTool now t s)).
Proof.
  intros [ND B]. unfold tools_keyed.
  cbn [insertTool fst ai_tools ai_tools_seq set_ai_tools].
  split.
  - rewrite map_app. cbn. apply NoDup_snoc; [exact ND|].
    intros Hin. apply in_map_iff in Hin as (r & E & Hr).
    rewrite Forall_forall in B. specialize (B r Hr). lia.
  - apply Forall_app. split.
    + eapply Forall_impl; [|exact B]. cbn. intros; lia.
    + constructor; [cbn; lia|constructor].
Qed.

Lemma updateTool_keyed (id : Z) (p : PartialAITool) (s : Store) :
  tools_keyed s -> tools_keyed (updateTool now id p s).
Proof.
  intros [ND B]. unfold tools_keyed. rewrite updateTool_rows.
  cbn [updateTool ai_tools_seq set_ai_tools].
  assert (Hids : forall rows,
             map row_id
               (map (fun r => if (row_id r =? id)%Z
                              then apply_update now p r else r) rows) =
             map row_id rows).
  { induction rows as [|r rows IH]; cbn; [reflexivity|].
    rewrite IH. destruct (row_id r =? id)%Z; reflexivity. }
  split.
  - rewrite Hids. exact ND.
  - apply Forall_map. eapply Forall_impl; [|exact B].
    intros r Hr. destruct (row_id r =? id)%Z; exact Hr.
Qed.

Lemma upsert_keyed (t : AITool) (s : Store) :
  tools_keyed s -> tools_keyed (fst (upsert now t s)).
Proof.
  intros K.
  destruct (upsert_cases now t s) as [(existing & _ & _ & ->) | (_ & ->)].
  - now apply updateTool_keyed.
  - now apply insertTool_keyed.
Qed.

(** Updating the row a url selects, with a tool of that url. *)
Lemma rows_with_url_update (u : string) (p : PartialAITool)
  (existing : ToolRow) (s : Store) :
  tools_keyed s ->
  In existing (ai_tools s) ->
  has_url u existing = true ->
  p_url p = Some u ->
  rows_with_url u (updateTool now (row_id existing) p s) =
  map (fun r => if (row_id r =? row_id existing)%Z
                then apply_update now p r else r)
    (rows_with_url u s).
Proof.
  intros [ND _] Hin Hu Hp. unfold rows_with_url. rewrite updateTool_rows.
  assert (Hsame : forall r, In r (ai_tools s) ->
                            row_id r = row_id existing -> r = existing)
    by (intros r Hr E; eapply key_determines_row; eauto).
  revert Hsame. generalize (ai_tools s) as rows.
  induction rows as [|r rows IH]; intros Hsame; cbn; [reflexivity|].
  rewrite IH by (intros; apply Hsame; cbn; auto).
  destruct (row_id r =? row_id existing)%Z eqn:E.
  - apply Z.eqb_eq in E. rewrite (Hsame r (or_introl eq_refl) E).
    rewrite Hu. rewrite has_url_of by (cbn; now rewrite Hp).
    cbn. now rewrite Z.eqb_refl.
  - destruct (has_url u r); cbn; [rewrite E|]; reflexivity.
Qed.

(** A survey of a url the store holds once leaves that one row, updated. *)
Lemma upsert_hit (u : string) (t : AITool) (r0 : ToolRow) (s : Store) :
  tools_keyed s ->
  url t = Some u ->
  rows_with_url u s = [r0] ->
  snd (upsert now t s) = true /\
  ai_tools (fst (upsert now t s)) =
    map (fun r => if (row_id r =? row_id r0)%Z
                  then apply_update now (as_partial t) r else r) (ai_tools s) /\
  rows_with_url u (fst (upsert now t s)) = [apply_update now (as_partial t) r0].
Proof.
  intros K Hu Hrows.
  assert (Hup : upsert now t s =
                (updateTool now (row_id r0) (as_partial t) s, true)).
  { unfold upsert. now rewrite Hu, getToolByUrl_first, Hrows. }
  assert (Hin : In r0 (ai_tools s) /\ has_url u r0 = true).
  { apply filter_In. fold (rows_with_url u s). rewrite Hrows. now left. }
  destruct Hin as [Hin Hurl].
  rewrite Hup. cbn [fst snd]. repeat split.
  rewrite (rows_with_url_update u (as_partial t) r0 s K Hin Hurl Hu), Hrows.
  cbn. now rewrite Z.eqb_refl.
Qed.

(** A survey of a url the store does not hold adds one row for it. *)
Lemma upsert_miss (u : string) (t : AITool) (s : Store) :
  url t = Some u ->
  rows_with_url u s = [] ->
  exists row,
    snd (upsert now t s) = false /\
    ai_tools (fst (upsert now t s)) = ai_tools s ++ [row] /\
    rows_with_url u (fst (upsert now t s)) = [row] /\
    row_first_discovered row = now /\
    row_last_updated row = now.
Proof.
  intros Hu Hrows. unfold upsert. rewrite Hu, getToolByUrl_first, Hrows. cbn [hd_error].
  destruct (rows_with_url_insert u t s)
    as (row & Hrows' & _ & Hurl & Hfd & Hlu & Hr).
  exists row. cbn [fst snd]. repeat split; auto.
  rewrite Hr, Hrows. cbn. rewrite has_url_of by congruence. reflexivity.
Qed.

End UrlFacts.

Section SurveyedFacts.

Lemma has_url_inj (u u' : string) (r : ToolRow) :
  has_url u r = true -> has_url u' r = true -> u = u'.
Proof.
  unfold has_url. destruct (row_url r) as [v|]; [|discriminate].
  intros H H'. apply String.eqb_eq in H, H'. congruence.
Qed.

(** The adapters' step keeps every url at one row at most. *)
Lemma upsert_keeps_urls_single (now : Timestamp) (t : AITool) (s : Store) :
  tools_keyed s ->
  (forall u, (List.length (rows_with_url u s) <= 1)%nat) ->
  forall u, (List.length (rows_with_url u (fst (upsert now t s))) <= 1)%nat.
Proof.
  intros K Hsingle u.
  destruct (url t) as [v|] eqn:Hv.
  - destruct (rows_with_url v s) as [|r0 [|r1 rest]] eqn:Hrows.
    + destruct (upsert_miss now v t s Hv Hrows) as (row & _ & Hall & Hone & _).
      destruct (String.eqb_spec u v) as [-> | Hne].
      * rewrite Hone. cbn. lia.
      * unfold rows_with_url in *. rewrite Hall, filter_app, length_app.
        assert (Hrow : has_url v row = true).
        { assert (Hin : In row (filter (has_url v) (ai_tools s ++ [row])))
            by (rewrite <- Hall, Hone; now left).
          now apply filter_In in Hin. }
        cbn. destruct (has_url u row) eqn:Hu.
        -- elim Hne. eapply has_url_inj; eauto.
        -- cbn. specialize (Hsingle u). lia.
    + destruct (upsert_hit now v t r0 s K Hv Hrows) as (_ & Hall & Hone).
      destruct (String.eqb_spec u v) as [-> | Hne].
      * rewrite Hone. cbn. lia.
      * unfold rows_with_url in *. rewrite Hall.
        assert (Hr0 : In r0 (ai_tools s) /\ has_url v r0 = true)
          by (apply filter_In; rewrite Hrows; now left).
        destruct K as [ND _].
        assert (Hsame : forall r, In r (ai_tools s) ->
                                  row_id r = row_id r0 -> r = r0)
          by (intros r Hr E; eapply key_determines_row; eauto; tauto).
        assert (Hfilter :
          forall rows, (forall r, In r rows -> row_id r = row_id r0 -> r = r0) ->
            filter (has_url u)
              (map (fun r => if (row_id r =? row_id r0)%Z
                             then apply_update now (as_partial t) r else r) rows)
            = filter (has_url u) rows).
        { induction rows as [|r rows IH]; intros Hs; cbn; [reflexivity|].
          rewrite IH by (intros; apply Hs; cbn; auto).
          destruct (row_id r =? row_id r0)%Z eqn:E; [|reflexivity].
          apply Z.eqb_eq in E. rewrite (Hs r (or_introl eq_refl) E).
          replace (has_url u (apply_update now (as_partial t) r0)) with false.
          - replace (has_url u r0) with false; [reflexivity|].
            symmetry. destruct (has_url u r0) eqn:Hu; [|reflexivity].
            elim Hne. eapply has_url_inj; eauto. tauto.
          - symmetry. unfold has_url. cbn. rewrite Hv.
            apply String.eqb_neq. congruence. }
        rewrite Hfilter by exact Hsame. apply Hsingle.
    + specialize (Hsingle v). rewrite Hrows in Hsingle. cbn in Hsingle. lia.
  - replace (fst (upsert now t s)) with (fst (insertTool now t s))
      by (unfold upsert; now rewrite Hv).
    destruct (rows_with_url_insert now u t s)
      as (row & _ & _ & Hurl & _ & _ & ->).
    rewrite length_app. cbn. unfold has_url. rewrite Hurl, Hv. cbn.
    specialize (Hsingle u). lia.
Qed.

(** Every store the adapters build satisfies what the idempotence of a
    survey rests on. *)
Lemma surveyed_one_row_per_url (s : Store) :
  surveyed s ->
  tools_keyed s /\
  forall u, (List.length (rows_with_url u s) <= 1)%nat.
Proof.
  induction 1 as [|now t s _ [K Hsingle]].
  - split; [split; constructor|]. intros u. cbn. lia.
  - split; [now apply upsert_keyed|now apply upsert_keeps_urls_single].
Qed.

End SurveyedFacts.

(** C10. The store does not keep urls unique: [insertTool] is a plain
    insert, so inserting a tool twice adds two rows with the same url and
    different keys, whatever the store held. One row per url rests on the
    callers asking [getToolByUrl] first. *)
Theorem insertTool_twice_two_rows :
  forall (now1 now2 : Timestamp) (t : AITool) (u : string) (s : Store),
    url t = Some u ->
    let first := insertTool now1 t s in
    let second := insertTool now2 t (fst first) in
    snd first <> snd second /\
    exists a b,
      ai_tools (fst second) = ai_tools s ++ [a; b] /\
      rows_with_url u (fst second) = rows_with_url u s ++ [a; b] /\
      row_id a = snd first /\ row_id b = snd second /\
      row_url a = Some u /\ row_url b = Some u.
Proof.
  intros now1 now2 t u s Hu first second. split.
  - subst first second. cbn. lia.
  - destruct (rows_with_url_insert now1 u t s)
      as (a & Ha & Hida & Hurla & _ & _ & Hra).
    destruct (rows_with_url_insert now2 u t (fst (insertTool now1 t s)))
      as (b & Hb & Hidb & Hurlb & _ & _ & Hrb).
    exists a, b. subst first second. repeat split; try congruence.
    + rewrite Hb, Ha, <- app_assoc. reflexivity.
    + rewrite Hrb, Hra, <- app_assoc. cbn.
      rewrite !has_url_of by congruence. reflexivity.
Qed.

Lemma insertTool_twice_two_rows_witness :
  let t := Samples.tool_A "first" in
  let first := insertTool 100 t Db.empty in
  let second := insertTool 200 t (fst first) in
  snd first <> snd second /\
  exists a b,
    ai_tools (fst second) = ai_tools Db.empty ++ [a; b] /\
    rows_with_url "https://x/y" (fst second) =
      rows_with_url "https://x/y" Db.empty ++ [a; b] /\
    row_id a = snd first /\ row_id b = snd second /\
    row_url a = Some "https://x/y" /\ row_url b = Some "https://x/y".
Proof.
  apply (insertTool_twice_two_rows 100 200 (Samples.tool_A "first")
           "https://x/y" Db.empty).
  reflexivity.
Defined.

(** C1. Surveying a url twice through the adapters' lookup-then-update-or-
    insert step leaves exactly one row for it, in a store that held it at
    most once: the second survey adds no row, keeps the key and
    first_discovered of the row the first survey left and stamps
    last_updated with its own time, later than the first whenever the clock
    moved on. *)
Theorem upsert_by_url_idempotent :
  forall (s : Store) (u : string) (t1 t2 : AITool) (now1 now2 : Timestamp),
    tools_keyed s ->
    (List.length (rows_with_url u s) <= 1)%nat ->
    url t1 = Some u ->
    url t2 = Some u ->
    let s1 := fst (upsert now1 t1 s) in
    let s2 := fst (upsert now2 t2 s1) in
    exists r1 r2,
      rows_with_url u s1 = [r1] /\
      rows_with_url u s2 = [r2] /\
      List.length (ai_tools s2) = List.length (ai_tools s1) /\
      snd (upsert now2 t2 s1) = true /\
      row_id r2 = row_id r1 /\
      row_first_discovered r2 = row_first_discovered r1 /\
      row_last_updated r1 = now1 /\
      row_last_updated r2 = now2 /\
      ((now1 < now2)%Z -> (row_last_updated r1 < row_last_updated r2)%Z).
Proof.
  intros s u t1 t2 now1 now2 K Hle Hu1 Hu2 s1 s2.
  assert (K1 : tools_keyed s1) by now apply upsert_keyed.
  assert (Hfirst : exists r1, rows_with_url u s1 = [r1] /\ row_last_updated r1 = now1).
  { destruct (rows_with_url u s) as [|r0 [|r0' rest]] eqn:Hrows.
    - destruct (upsert_miss now1 u t1 s Hu1 Hrows) as (row & _ & _ & Hr & _ & Hlu).
      exists row. split; assumption.
    - destruct (upsert_hit now1 u t1 r0 s K Hu1 Hrows) as (_ & _ & Hr).
      eexists. split; [exact Hr|reflexivity].
    - cbn in Hle. lia. }
  destruct Hfirst as (r1 & Hr1 & Hlu1).
  destruct (upsert_hit now2 u t2 r1 s1 K1 Hu2 Hr1) as (Hkind & Hrows2 & Hr2).
  exists r1, (apply_update now2 (as_partial t2) r1).
  subst s2. repeat split; auto.
  - rewrite Hrows2. apply length_map.
  - cbn. lia.
Qed.

Lemma upsert_by_url_idempotent_witness :
  let s1 := fst (upsert 100 (Samples.tool_A "first") Db.empty) in
  let s2 := fst (upsert 200 (Samples.tool_A "second") s1) in
  exists r1 r2,
    rows_with_url "https://x/y" s1 = [r1] /\
    rows_with_url "https://x/y" s2 = [r2] /\
    List.length (ai_tools s2) = List.length (ai_tools s1) /\
    snd (upsert 200 (Samples.tool_A "second") s1) = true /\
    row_id r2 = row_id r1 /\
    row_first_discovered r2 = row_first_discovered r1 /\
    row_last_updated r1 = 100%Z /\
    row_last_updated r2 = 200%Z /\
    ((100 < 200)%Z -> (row_last_updated r1 < row_last_updated r2)%Z).
Proof.
  apply (upsert_by_url_idempotent Db.empty "https://x/y"
           (Samples.tool_A "first") (Samples.tool_A "second") 100 200).
  - split; constructor.
  - cbn. lia.
  - reflexivity.
  - reflexivity.
Defined.

(** Scenario 1 of the design document, evaluated: the one row left carries
    the description of the second survey and the first survey's
    first_discovered. *)
Example scenario_surveyed_twice :
  let s1 := fst (upsert 100 (Samples.tool_A "first") Db.empty) in
  let s2 := fst (upsert 200 (Samples.tool_A "second") s1) in
  map (fun r => (row_id r, row_description r, row_first_discovered r,
                 row_last_updated r)) (ai_tools s2) =
  [(1%Z, Some "second", 100%Z, 200%Z)].
Proof. reflexivity. Qed.

(** ** [fetchWithRetry] *)

Section FetchFacts.

Variable net : nat -> FetchOutcome.
Variable maxRetries : nat.

Lemma attempts_cons_fetch (i : nat) (o : FetchOutcome) (tr : list Event) :
  attempts (Fetch i o :: tr) = S (attempts tr).
Proof. reflexivity. Qed.

Lemma attempts_cons_sleep (ms : option Z) (tr : list Event) :
  attempts (Sleep ms :: tr) = attempts tr.
Proof. reflexivity. Qed.

Lemma attempts_backoff (b : bool) (ms : option Z) (tr : list Event) :
  attempts ((if b then [Sleep ms] else []) ++ tr) = attempts tr.
Proof. destruct b; reflexivity. Qed.

(** The loop never issues more requests than it has iterations left. *)
Lemma fetch_loop_attempts_le (remaining : nat) :
  forall i lastError,
    (attempts (snd (fetch_loop net maxRetries remaining i lastError))
     <= remaining)%nat.
Proof.
  induction remaining as [|n IH]; intros i lastError; cbn [fetch_loop].
  - cbn. lia.
  - destruct (net i) as [e|r].
    + cbn [snd]. rewrite attempts_cons_fetch, attempts_backoff.
      specialize (IH (S i) (Some e)). lia.
    + destruct (ok r); [cbn; lia|].
      destruct (resp_status r =? 429)%nat; cbn [snd].
      * rewrite attempts_cons_fetch, attempts_cons_sleep.
        specialize (IH (S i) lastError). lia.
      * rewrite attempts_cons_fetch, attempts_backoff.
        specialize (IH (S i) (Some (http_error r))). lia.
Qed.

(** When no attempt succeeds the loop uses every iteration and throws what
    [lastError] holds at the end. *)
Lemma fetch_loop_exhausted (remaining : nat) :
  forall i lastError,
    (forall j, (i <= j < i + remaining)%nat -> succeeded (net j) = false) ->
    fst (fetch_loop net maxRetries remaining i lastError) =
      Throw (surfaced (last_caught net i remaining lastError)) /\
    attempts (snd (fetch_loop net maxRetries remaining i lastError)) = remaining.
Proof.
  induction remaining as [|n IH]; intros i lastError Hfail; cbn [fetch_loop].
  - split; reflexivity.
  - assert (Hi : succeeded (net i) = false) by (apply Hfail; lia).
    assert (Hrest : forall j, (S i <= j < S i + n)%nat -> succeeded (net j) = false)
      by (intros j Hj; apply Hfail; lia).
    cbn [last_caught]. unfold failure_of.
    destruct (net i) as [e|r]; cbn [fst snd].
    + destruct (IH (S i) (Some e) Hrest) as [-> Hn].
      split; [reflexivity|].
      rewrite attempts_cons_fetch, attempts_backoff. now rewrite Hn.
    + cbn in Hi. rewrite Hi.
      destruct (resp_status r =? 429)%nat; cbn [fst snd].
      * destruct (IH (S i) lastError Hrest) as [-> Hn].
        split; [reflexivity|].
        rewrite attempts_cons_fetch, attempts_cons_sleep. now rewrite Hn.
      * destruct (IH (S i) (Some (http_error r)) Hrest) as [-> Hn].
        split; [reflexivity|].
        rewrite attempts_cons_fetch, attempts_backoff. now rewrite Hn.
Qed.

(** The events of the loop start with the request of the current index. *)
Lemma fetch_loop_head (remaining i : nat) (lastError : option string) :
  snd (fetch_loop net maxRetries remaining i lastError) = [] \/
  exists o rest,
    snd (fetch_loop net maxRetries remaining i lastError) = Fetch i o :: rest.
Proof.
  destruct remaining as [|n]; cbn [fetch_loop]; [now left|right].
  destruct (net i) as [e|r]; [do 2 eexists; reflexivity|].
  destruct (ok r); [do 2 eexists; reflexivity|].
  destruct (resp_status r =? 429)%nat; do 2 eexists; reflexivity.
Qed.

(** A rate-limited answer is followed at once by the wait it asks for, and
    only then by the next request, if there is one. *)
Lemma fetch_loop_waits (remaining : nat) :
  forall i lastError before after j r,
    snd (fetch_loop net maxRetries remaining i lastError) =
      before ++ Fetch j (Responded r) :: after ->
    rate_limited (Responded r) = true ->
    exists rest,
      after = Sleep (rate_limit_wait j r) :: rest /\
      (rest = [] \/ exists o rest', rest = Fetch (S j) o :: rest').
Proof.
  induction remaining as [|n IH]; intros i lastError before after j r Htr Hlim.
  - cbn in Htr. now destruct before.
  - cbn [fetch_loop] in Htr.
    assert (Hcaught : forall (e : string) (b : bool),
      Fetch i (net i) ::
        (if b then [Sleep (Some (backoff i))] else []) ++
        snd (fetch_loop net maxRetries n (S i) (Some e)) =
      before ++ Fetch j (Responded r) :: after ->
      failure_of (net i) <> None ->
      exists rest,
        after = Sleep (rate_limit_wait j r) :: rest /\
        (rest = [] \/ exists o rest', rest = Fetch (S j) o :: rest')).
    { intros e b H Hplain. destruct before as [|x before].
      - cbn in H. injection H as Hj Ho _. exfalso. apply Hplain.
        rewrite Ho. cbn in Hlim |- *.
        apply andb_prop in Hlim as [Hok H429].
        apply negb_true_iff in Hok. now rewrite Hok, H429.
      - cbn in H. injection H as _ H. destruct b; cbn in H.
        + destruct before as [|y before]; cbn in H; [discriminate|].
          injection H as _ H. eapply IH; eauto.
        + eapply IH; eauto. }
    destruct (net i) as [e|r0] eqn:Hnet.
    + cbn [snd] in Htr. eapply Hcaught; [exact Htr|]. cbn. discriminate.
    + destruct (ok r0) eqn:Hok.
      * cbn in Htr. destruct before as [|x before]; cbn in Htr.
        -- injection Htr as _ Hr _. subst r0. cbn in Hlim. now rewrite Hok in Hlim.
        -- injection Htr as _ H. now destruct before.
      * destruct (resp_status r0 =? 429)%nat eqn:H429; cbn [snd] in Htr.
        -- destruct before as [|x before]; cbn in Htr.
           ++ injection Htr as Hj Hr Hafter. subst j r0.
              eexists. split; [symmetry; exact Hafter|].
              apply fetch_loop_head.
           ++ injection Htr as _ H.
              destruct before as [|y before]; cbn in H; [discriminate|].
              injection H as _ H. eapply IH; eauto.
        -- eapply Hcaught; [exact Htr|]. cbn. rewrite Hok, H429. discriminate.
Qed.

End FetchFacts.

Lemma rate_limited_status (r : Response) :
  resp_status r = 429%nat -> rate_limited (Responded r) = true.
Proof. intros H. cbn. unfold ok. now rewrite H. Qed.

Lemma failure_not_success (o : FetchOutcome) :
  failure_of o <> None -> succeeded o = false.
Proof.
  destruct o as [e|r]; cbn; [reflexivity|].
  destruct (ok r); [intros H; now elim H|reflexivity].
Qed.

Lemma last_caught_none (net : nat -> FetchOutcome) (n : nat) :
  forall i lastError,
    (forall j, (i <= j < i + n)%nat -> failure_of (net j) = None) ->
    last_caught net i n lastError = lastError.
Proof.
  induction n as [|n IH]; intros i lastError Hnone; [reflexivity|].
  cbn [last_caught]. rewrite Hnone by lia. apply IH.
  intros j Hj. apply Hnone. lia.
Qed.

(** [last_caught] is the error of the last attempt that failed for a reason
    other than rate limiting, if there is one. *)
Lemma last_caught_last (net : nat -> FetchOutcome) (n : nat) :
  forall i lastError k e,
    (i <= k < i + n)%nat ->
    failure_of (net k) = Some e ->
    (forall j, (k < j < i + n)%nat -> failure_of (net j) = None) ->
    last_caught net i n lastError = Some e.
Proof.
  induction n as [|n IH]; intros i lastError k e Hk He Hlater; [lia|].
  cbn [last_caught].
  destruct (Nat.eq_dec k i) as [->|Hne].
  - rewrite He. apply last_caught_none.
    intros j Hj. apply Hlater. lia.
  - apply IH with (k := k); [lia|exact He|].
    intros j Hj. apply Hlater. lia.
Qed.

(** C3. With [maxRetries = 3], [fetchWithRetry] never issues more than three
    requests; when each of the three fails for a reason other than HTTP 429
    it issues exactly three and throws the error of the last one; and a 429
    answer carrying [Retry-After: 2] is followed at once by a wait of 2000
    milliseconds, before any further request. *)
Theorem fetchWithRetry_backoff_bound :
  forall net : nat -> FetchOutcome,
    (attempts (snd (fetchWithRetry net 3)) <= 3)%nat /\
    ((forall i, (i < 3)%nat -> failure_of (net i) <> None) ->
     attempts (snd (fetchWithRetry net 3)) = 3%nat /\
     exists e, failure_of (net 2) = Some e /\
               fst (fetchWithRetry net 3) = Throw e) /\
    (forall before after j r,
       snd (fetchWithRetry net 3) = before ++ Fetch j (Responded r) :: after ->
       resp_status r = 429%nat ->
       retry_after r = Some "2" ->
       exists rest,
         after = Sleep (Some 2000%Z) :: rest /\
         (rest = [] \/ exists o rest', rest = Fetch (S j) o :: rest')).
Proof.
  intros net. split; [|split].
  - apply fetch_loop_attempts_le.
  - intros Hfail.
    destruct (fetch_loop_exhausted net 3 3 0 None) as [Hthrow Hn].
    { intros j Hj. apply failure_not_success, Hfail. lia. }
    split; [exact Hn|].
    destruct (failure_of (net 2)) as [e|] eqn:He.
    + exists e. split; [reflexivity|].
      unfold fetchWithRetry. rewrite Hthrow.
      now rewrite (last_caught_last net 3 0 None 2 e) by (auto; lia).
    + exfalso. apply (Hfail 2%nat); [lia|exact He].
  - intros before after j r Htr H429 Hhdr.
    destruct (fetch_loop_waits net 3 3 0 None before after j r Htr
                (rate_limited_status r H429)) as (rest & Hafter & Hnext).
    exists rest. split; [|exact Hnext].
    rewrite Hafter. unfold rate_limit_wait. rewrite Hhdr. reflexivity.
Qed.

Lemma fetchWithRetry_backoff_bound_witness :
  (attempts (snd (fetchWithRetry Samples.down 3)) = 3%nat /\
   exists e, failure_of (Samples.down 2) = Some e /\
             fst (fetchWithRetry Samples.down 3) = Throw e) /\
  (exists rest,
     [Sleep (Some 2000%Z); Fetch 2 Samples.server_error] =
       Sleep (Some 2000%Z) :: rest /\
     (rest = [] \/ exists o rest', rest = Fetch 2 o :: rest')).
Proof.
  split.
  - apply (proj1 (proj2 (fetchWithRetry_backoff_bound Samples.down))).
    intros i Hi. destruct i as [|[|[|i]]]; cbn; discriminate.
  - apply (proj2 (proj2 (fetchWithRetry_backoff_bound Samples.flaky))
             [Fetch 0 (Rejected "ECONNRESET"); Sleep (Some 1000%Z)]
             [Sleep (Some 2000%Z); Fetch 2 Samples.server_error]
             1%nat
             {| resp_status := 429; statusText := "Too Many Requests";
                retry_after := Some "2" |});
      reflexivity.
Defined.

(** What the three failing requests of the sample look like from outside. *)
Example fetchWithRetry_down :
  fetchWithRetry Samples.down 3 =
  (Throw "HTTP 500: Internal Server Error",
   [ Fetch 0 (Rejected "ECONNRESET"); Sleep (Some 1000%Z);
     Fetch 1 (Rejected "ETIMEDOUT"); Sleep (Some 2000%Z);
     Fetch 2 Samples.server_error ]).
Proof. reflexivity. Qed.




(** ** [calculatePopularityScore] *)

Section PopularityFacts.

Local Open Scope R_scope.

Lemma ln_10_pos : 0 < ln 10.
Proof. rewrite <- ln_1. apply ln_increasing; lra. Qed.

Lemma log10_1 : log10 1 = 0.
Proof. unfold log10. rewrite ln_1. unfold Rdiv. apply Rmult_0_l. Qed.

Lemma log10_le (x y : R) : 0 < x -> x <= y -> log10 x <= log10 y.
Proof.
  intros Hx [Hlt | ->]; [|apply Rle_refl].
  unfold log10, Rdiv. apply Rmult_le_compat_r.
  - left. apply Rinv_0_lt_compat, ln_10_pos.
  - left. now apply ln_increasing.
Qed.

Lemma count_real_nonneg (n : N) : 0 <= IZR (Z.of_N n).
Proof. apply IZR_le. lia. Qed.

Lemma log_term_nonneg (m : option N) : 0 <= log_term m.
Proof.
  unfold log_term. rewrite <- log10_1. apply log10_le; [lra|].
  pose proof (count_real_nonneg (count_of m)). lra.
Qed.

Lemma log_term_le (a b : option N) :
  (count_of b <= count_of a)%N -> log_term b <= log_term a.
Proof.
  intros H. unfold log_term. apply log10_le.
  - pose proof (count_real_nonneg (count_of b)). lra.
  - apply Rplus_le_compat_r, IZR_le. lia.
Qed.

(** The guard [if (metrics.m)] changes nothing: a count of 0 would add
    [log10 1]. *)
Lemma add_metric_term (m : option N) (weight score : R) :
  add_metric m weight score = score + log_term m * weight.
Proof.
  unfold add_metric, log_term.
  destruct m as [n|]; cbn [count_of].
  - destruct (N.eqb_spec n 0) as [-> | _]; [|reflexivity].
    cbn. rewrite Rplus_0_l, log10_1. lra.
  - cbn. rewrite Rplus_0_l, log10_1. lra.
Qed.

Lemma calculatePopularityScore_sum (metrics : Metrics) :
  calculatePopularityScore metrics = Rmin 100 (weighted_logs metrics).
Proof.
  unfold calculatePopularityScore, weighted_logs.
  rewrite !add_metric_term. f_equal. lra.
Qed.

Lemma weighted_logs_nonneg (metrics : Metrics) : 0 <= weighted_logs metrics.
Proof.
  unfold weighted_logs.
  pose proof (log_term_nonneg (stars metrics)).
  pose proof (log_term_nonneg (downloads metrics)).
  pose proof (log_term_nonneg (views metrics)).
  pose proof (log_term_nonneg (likes metrics)).
  lra.
Qed.

Lemma weighted_logs_le (a b : Metrics) :
  dominates a b -> weighted_logs b <= weighted_logs a.
Proof.
  intros (Hs & Hd & Hv & Hl). unfold weighted_logs.
  pose proof (log_term_le _ _ Hs).
  pose proof (log_term_le _ _ Hd).
  pose proof (log_term_le _ _ Hv).
  pose proof (log_term_le _ _ Hl).
  lra.
Qed.

End PopularityFacts.



(** ** The survey loops *)

Section SurveyFacts.

Lemma upsert_keeps_log (now : Timestamp) (t : AITool) (s : Store) :
  survey_runs (fst (upsert now t s)) = survey_runs s.
Proof.
  destruct (upsert_cases now t s) as [(existing & _ & _ & ->) | (_ & ->)];
    reflexivity.
Qed.

Lemma process_item_frame (acc : Progress) (t : AITool) :
  survey_runs (db (world (process_item acc t))) = survey_runs (db (world acc)) /\
  clock (world (process_item acc t)) = clock (world acc) /\
  messages (process_item acc t) = messages acc.
Proof.
  unfold process_item. cbn. rewrite upsert_keeps_log. repeat split.
Qed.

Lemma process_items_frame (items : list AITool) :
  forall acc,
    survey_runs (db (world (process_items items acc))) =
      survey_runs (db (world acc)) /\
    clock (world (process_items items acc)) = clock (world acc) /\
    messages (process_items items acc) = messages acc.
Proof.
  unfold process_items.
  induction items as [|t items IH]; intros acc; cbn [fold_left]; [repeat split|].
  destruct (IH (process_item acc t)) as (-> & -> & ->).
  apply process_item_frame.
Qed.

Lemma survey_dimension_frame (delay : Z) (search : string -> Fetcher)
  (acc : Progress) (d : string) :
  let answer := search d (clock (world acc) + Z.max 0 delay)%Z in
  survey_runs (db (world (survey_dimension delay search acc d))) =
    survey_runs (db (world acc)) /\
  clock (world (survey_dimension delay search acc d)) = fst answer /\
  messages (survey_dimension delay search acc d) =
    messages acc ++
    match snd answer with
    | Throw message => [(d ++ ": " ++ message)%string]
    | Normal _ => []
    end.
Proof.
  unfold survey_dimension. cbn [pause move_clock world sleep clock].
  destruct (search d (clock (world acc) + Z.max 0 delay)%Z)
    as [c [items|message]]; cbn [fst snd].
  - match goal with |- context [process_items items ?a] =>
      destruct (process_items_frame items a) as (-> & -> & ->) end.
    cbn. now rewrite app_nil_r.
  - cbn. repeat split.
Qed.

Lemma survey_dimensions_keeps_log (delay : Z) (search : string -> Fetcher)
  (dimensions : list string) :
  forall acc,
    survey_runs (db (world (survey_dimensions delay search dimensions acc))) =
    survey_runs (db (world acc)).
Proof.
  unfold survey_dimensions.
  induction dimensions as [|d rest IH]; intros acc; cbn [fold_left];
    [reflexivity|].
  rewrite IH. apply survey_dimension_frame.
Qed.

(** One message per dimension whose fetch throws, and no other. *)
Lemma survey_dimensions_messages (delay : Z) (search : string -> Fetcher)
  (dimensions : list string) :
  forall acc,
    messages (survey_dimensions delay search dimensions acc) =
    messages acc ++
    failure_messages delay search dimensions (clock (world acc)).
Proof.
  unfold survey_dimensions.
  induction dimensions as [|d rest IH]; intros acc;
    cbn [fold_left failure_messages]; [now rewrite app_nil_r|].
  rewrite IH.
  destruct (survey_dimension_frame delay search acc d) as (_ & -> & ->).
  now rewrite <- app_assoc.
Qed.

Lemma process_item_same (a b : Progress) (t : AITool) :
  same_progress a b -> same_progress (process_item a t) (process_item b t).
Proof.
  intros (Hw & Hf & Hd & Hu). unfold same_progress, process_item. cbn.
  rewrite Hw, Hf, Hd, Hu. repeat split.
Qed.

Lemma process_items_same (items : list AITool) :
  forall a b,
    same_progress a b ->
    same_progress (process_items items a) (process_items items b).
Proof.
  unfold process_items.
  induction items as [|t items IH]; intros a b H; cbn [fold_left]; [exact H|].
  apply IH. now apply process_item_same.
Qed.

Lemma survey_dimension_same (delay : Z) (search : string -> Fetcher)
  (a b : Progress) (d : string) :
  same_progress a b ->
  same_progress (survey_dimension delay search a d)
    (survey_dimension delay (quiet search) b d).
Proof.
  intros (Hw & Hf & Hd & Hu).
  destruct a as [wa fa da ua ma], b as [wb fb db' ub mb].
  cbn in Hw, Hf, Hd, Hu. subst wb fb db' ub.
  unfold survey_dimension, quiet. cbn [pause move_clock world fst snd].
  destruct (snd (search d (clock (sleep delay wa)))) as [items|message].
  - apply process_items_same. unfold same_progress. cbn. repeat split.
  - unfold process_items, same_progress. cbn. repeat split.
Qed.

(** A dimension whose fetch throws costs the others nothing: the world, the
    tools and the two counters are those of the same survey with an empty
    page in its place. *)
Lemma survey_dimensions_isolated (delay : Z) (search : string -> Fetcher)
  (dimensions : list string) :
  forall a b,
    same_progress a b ->
    same_progress (survey_dimensions delay search dimensions a)
      (survey_dimensions delay (quiet search) dimensions b).
Proof.
  unfold survey_dimensions.
  induction dimensions as [|d rest IH]; intros a b H; cbn [fold_left];
    [exact H|].
  apply IH. now apply survey_dimension_same.
Qed.

End SurveyFacts.

(** ** The adapters of the repository keep to the contract of [run()] *)

Section AdapterFacts.

Lemma finish_counts (acc : Progress) (r : SurveyResult) :
  snd (finish acc) = Normal r ->
  stats_errors (stats r) = List.length (errors r).
Proof. unfold finish. cbn. intros H. injection H as <-. reflexivity. Qed.

Lemma github_keeps_to_contract (topics : list string)
  (searchRepositories : string -> Fetcher) :
  let a := {| sourceName := "github";
              Surveyor.survey :=
                GitHubSurveyor.survey_topics topics searchRepositories |} in
  keeps_log a /\ counts_its_errors a.
Proof.
  split.
  - intros w.
    exact (survey_dimensions_keeps_log 1000 searchRepositories topics (start w)).
  - intros w r. apply finish_counts.
Qed.

Lemma arxiv_keeps_to_contract (searchPapers : string -> Fetcher) :
  keeps_log (ArXivSurveyor.surveyor searchPapers) /\
  counts_its_errors (ArXivSurveyor.surveyor searchPapers).
Proof.
  split.
  - intros w.
    exact (survey_dimensions_keeps_log 3000 searchPapers
             ArXivSurveyor.categories (start w)).
  - intros w r. apply finish_counts.
Qed.

Lemma youtube_keeps_to_contract (apiKey : option string)
  (searchVideos : string -> string -> Fetcher) :
  keeps_log (YouTubeSurveyor.surveyor apiKey searchVideos) /\
  counts_its_errors (YouTubeSurveyor.surveyor apiKey searchVideos).
Proof.
  split.
  - intros w. cbn [YouTubeSurveyor.surveyor survey].
    unfold YouTubeSurveyor.survey.
    destruct apiKey as [key|]; [destruct (truthy_string key)|];
      try reflexivity.
    exact (survey_dimensions_keeps_log 1000 (fun q => searchVideos q key)
             YouTubeSurveyor.searchQueries (start w)).
  - intros w r. cbn. unfold YouTubeSurveyor.survey.
    destruct apiKey as [key|]; [destruct (truthy_string key)|];
      apply finish_counts.
Qed.

Lemma huggingface_keeps_to_contract (surveyModels surveySpaces : Fetcher) :
  keeps_log (HuggingFaceSurveyor.surveyor surveyModels surveySpaces) /\
  counts_its_errors (HuggingFaceSurveyor.surveyor surveyModels surveySpaces).
Proof.
  split.
  - intros w. cbn [HuggingFaceSurveyor.surveyor survey].
    unfold HuggingFaceSurveyor.survey.
    destruct (snd (surveyModels _)) as [models|e]; [|reflexivity].
    destruct (snd (surveySpaces _)) as [spaces|e];
      cbn [finish fst push_error move_clock world at_clock db];
      repeat match goal with
             | |- context [process_items ?l ?a] =>
                 rewrite (proj1 (process_items_frame l a))
             end;
      cbn [move_clock world at_clock db]; try reflexivity.
    all: repeat match goal with
             | |- context [process_items ?l ?a] =>
                 rewrite (proj1 (process_items_frame l a))
             end; reflexivity.
  - intros w r. cbn. unfold HuggingFaceSurveyor.survey.
    destruct (snd (surveyModels _)) as [models|e]; [|apply finish_counts].
    destruct (snd (surveySpaces _)) as [spaces|e]; apply finish_counts.
Qed.

End AdapterFacts.

(** ** [run()] and the orchestrator *)

Section RunFacts.

(** [run()] appends one row to the log [survey()] left, fitting the way
    [survey()] ended, and rethrows what it threw. *)
Lemma run_appends (a : BaseSurveyor) (w : World) :
  exists row,
    survey_runs (db (fst (run a w))) =
      survey_runs (db (fst (survey a w))) ++ [row] /\
    sr_source row = sourceName a /\
    match snd (survey a w) with
    | Throw e =>
        sr_status row = failed /\ sr_error_log row = Some e /\
        sr_items_discovered row = 0%nat /\ sr_items_updated row = 0%nat /\
        snd (run a w) = Throw e
    | Normal r =>
        sr_status row =
          (if (0 <? stats_errors (stats r))%nat then partial else success) /\
        sr_items_discovered row = discovered (stats r) /\
        sr_items_updated row = updated (stats r) /\
        snd (run a w) = Normal tt
    end.
Proof.
  unfold run. destruct (survey a w) as [w1 [r|e]]; cbn;
    eexists; repeat split.
Qed.

Lemma partial_iff_errors (r : SurveyResult) :
  stats_errors (stats r) = List.length (errors r) ->
  (if (0 <? stats_errors (stats r))%nat then partial else success) =
  match errors r with [] => success | _ :: _ => partial end.
Proof. intros ->. now destruct (errors r). Qed.

End RunFacts.

(** C7. For an adapter that leaves the survey log to [run()] and counts its
    error messages in [stats.errors], each call of [run()] appends exactly
    one SurveyRun row, under the adapter's source name: failed (with zero
    counts and the message) when [survey()] throws, partial when it returns
    with a non-empty error list, success otherwise, the discovered and
    updated counts of the result being those of the row. *)
Theorem run_logs_derived_status :
  forall (a : BaseSurveyor) (w : World),
    keeps_log a ->
    counts_its_errors a ->
    exists row,
      survey_runs (db (fst (run a w))) = survey_runs (db w) ++ [row] /\
      sr_source row = sourceName a /\
      status_fits (snd (survey a w)) row /\
      is_throw (snd (run a w)) = is_throw (snd (survey a w)).
Proof.
  intros a w Hlog Hcount.
  destruct (run_appends a w) as (row & Hrows & Hsrc & Hfit).
  exists row. rewrite Hrows, Hlog. repeat split; auto.
  - unfold status_fits. destruct (snd (survey a w)) as [r|e] eqn:E.
    + destruct Hfit as (-> & Hd & Hu & _). repeat split; auto.
      apply partial_iff_errors. now apply (Hcount w).
    + tauto.
  - destruct (snd (survey a w)) as [r|e].
    + now destruct Hfit as (_ & _ & _ & ->).
    + now destruct Hfit as (_ & _ & _ & _ & ->).
Qed.

Lemma run_logs_derived_status_witness :
  let a := YouTubeSurveyor.surveyor None (fun _ _ => Samples.models_down) in
  exists row,
    survey_runs (db (fst (run a Samples.world0))) =
      survey_runs (db Samples.world0) ++ [row] /\
    sr_source row = sourceName a /\
    status_fits (snd (survey a Samples.world0)) row /\
    is_throw (snd (run a Samples.world0)) =
      is_throw (snd (survey a Samples.world0)).
Proof.
  apply (run_logs_derived_status
           (YouTubeSurveyor.surveyor None (fun _ _ => Samples.models_down))
           Samples.world0).
  - intros w. reflexivity.
  - intros w r H. cbn in H. injection H as <-. reflexivity.
Defined.

(** The three outcomes of [run()], evaluated. *)
Example run_statuses :
  map sr_status
    (survey_runs (db (fst (run Samples.broken
      (fst (run (GitHubSurveyor.surveyor Samples.search_nlp_down)
        (fst (run (ArXivSurveyor.surveyor (fun d => Samples.spaces_up))
               Samples.world0)))))))) =
  [success; partial; failed].
Proof. vm_compute. reflexivity. Qed.

Section OrchestratorFacts.

Lemma stagger_db (i : nat) (w : World) : db (stagger i w) = db w.
Proof. unfold stagger. now destruct (0 <? i)%nat. Qed.

(** One turn of the loop of [runSurvey]. *)
Lemma run_logged (a : BaseSurveyor) (w : World) :
  keeps_log a ->
  exists row,
    sr_source row = sourceName a /\
    (if is_throw (snd (survey a w))
     then sr_status row = failed
     else sr_status row = success \/ sr_status row = partial) /\
    survey_runs (db (fst (run a w))) = survey_runs (db w) ++ [row].
Proof.
  intros Hlog. destruct (run_appends a w) as (row & Hrows & Hsrc & Hfit).
  exists row. rewrite Hrows, Hlog. repeat split; auto.
  destruct (snd (survey a w)) as [r|e]; cbn.
  - destruct Hfit as (-> & _).
    destruct (0 <? stats_errors (stats r))%nat; auto.
  - tauto.
Qed.

Lemma survey_loop_logged (surveyors : list (string * BaseSurveyor)) :
  forall i w results,
    Forall (fun entry => keeps_log (snd entry)) surveyors ->
    exists rows,
      logged i surveyors w rows (fst (survey_loop i surveyors w results)) /\
      survey_runs (db (fst (survey_loop i surveyors w results))) =
        survey_runs (db w) ++ rows /\
      List.length rows = List.length surveyors /\
      map fst (snd (survey_loop i surveyors w results)) =
        map fst results ++ map fst surveyors.
Proof.
  induction surveyors as [|[name a] rest IH]; intros i w results Hall.
  - exists []. cbn. rewrite !app_nil_r. repeat split. constructor.
  - inversion Hall as [|? ? Ha Hrest]; subst. cbn in Ha.
    cbn [survey_loop].
    destruct (run_logged a (stagger i w) Ha) as (row & Hsrc & Hst & Hrows).
    destruct (IH (S i) (fst (run a (stagger i w)))
                (results ++
                 [(name, match snd (run a (stagger i w)) with
                         | Normal _ => "success"
                         | Throw _ => "failed"
                         end)]) Hrest)
      as (rows & Hlogged & Hlog & Hlen & Hnames).
    exists (row :: rows). repeat split.
    + now constructor.
    + rewrite Hlog, Hrows, stagger_db, <- app_assoc. reflexivity.
    + cbn. now rewrite Hlen.
    + rewrite Hnames, map_app, <- app_assoc. reflexivity.
Qed.

End OrchestratorFacts.

(** Whatever the configuration enables, the adapters of the repository
    leave the survey log to [run()]. *)
Lemma configured_adapters_keep_log (d : DataSources)
  (surveyModels surveySpaces : Fetcher)
  (searchRepositories searchPapers : string -> Fetcher)
  (apiKey : option string) (searchVideos : string -> string -> Fetcher) :
  Forall (fun entry => keeps_log (snd entry))
    (initializeSurveyors d
       (HuggingFaceSurveyor.surveyor surveyModels surveySpaces)
       (GitHubSurveyor.surveyor searchRepositories)
       (YouTubeSurveyor.surveyor apiKey searchVideos)
       (ArXivSurveyor.surveyor searchPapers)).
Proof.
  unfold initializeSurveyors.
  destruct (source_enabled "huggingface" d), (source_enabled "github" d),
    (source_enabled "youtube" d), (source_enabled "arxiv" d);
    cbn [app]; repeat constructor; cbn [snd];
    first [ apply huggingface_keeps_to_contract
          | apply (github_keeps_to_contract GitHubSurveyor.topics)
          | apply youtube_keeps_to_contract
          | apply arxiv_keeps_to_contract ].
Qed.



(** Scenario 2 of the design document, evaluated: the first of two adapters
    throws inside [survey()]; the run completes and the log holds a failed
    row for it and a partial row for the second. *)
Example scenario_first_adapter_throws :
  let surveyors :=
    [ ("huggingface", Samples.broken);
      ("github", GitHubSurveyor.surveyor Samples.search_nlp_down) ] in
  snd (runSurvey surveyors Samples.world0) = Normal tt /\
  map (fun row => (sr_source row, sr_status row, sr_items_discovered row))
    (survey_runs (db (fst (runSurvey surveyors Samples.world0)))) =
  [ ("huggingface", failed, 0%nat); ("github", partial, 8%nat) ] /\
  summary surveyors Samples.world0 =
  [ ("huggingface", "failed"); ("github", "success") ].
Proof. vm_compute. repeat split. Qed.

(** ** Failure of one query dimension *)

Lemma quiet_never_fails (delay : Z) (search : string -> Fetcher)
  (dimensions : list string) :
  forall c, failure_messages delay (quiet search) dimensions c = [].
Proof.
  induction dimensions as [|d rest IH]; intros c; cbn [failure_messages];
    [reflexivity|].
  unfold quiet at 1 2. cbn [fst snd].
  destruct (snd (search d _)); cbn [app]; apply IH.
Qed.

(** The code-host adapter isolates a failing topic: its result has the
    tools and counters of the survey in which the failing topics return
    empty pages, and one message for each topic whose fetch threw. The
    preprint and video adapters run the same loop. *)
Lemma github_survey_isolates_topics (topics : list string)
  (searchRepositories : string -> Fetcher) (w : World) :
  exists real ideal,
    GitHubSurveyor.survey_topics topics searchRepositories w =
      (fst (GitHubSurveyor.survey_topics topics (quiet searchRepositories) w),
       Normal real) /\
    snd (GitHubSurveyor.survey_topics topics (quiet searchRepositories) w) =
      Normal ideal /\
    tools real = tools ideal /\
    discovered (stats real) = discovered (stats ideal) /\
    updated (stats real) = updated (stats ideal) /\
    errors ideal = [] /\
    errors real = failure_messages 1000 searchRepositories topics (clock w) /\
    stats_errors (stats real) = List.length (errors real).
Proof.
  unfold GitHubSurveyor.survey_topics, finish.
  destruct (survey_dimensions_isolated 1000 searchRepositories topics
              (start w) (start w)) as (Hw & Hf & Hd & Hu);
    [repeat split|].
  pose proof (survey_dimensions_messages 1000 searchRepositories topics (start w))
    as Hreal.
  pose proof (survey_dimensions_messages 1000 (quiet searchRepositories) topics
                (start w)) as Hideal.
  cbn [messages start world clock app] in Hreal, Hideal.
  do 2 eexists. cbn [fst snd tools stats errors discovered updated stats_errors].
  rewrite Hw, Hf, Hd, Hu, Hreal, Hideal, quiet_never_fails.
  repeat split.
Qed.

(** In the model-hub adapter the space listing is never fetched once the
    model listing has thrown. *)
Lemma huggingface_spaces_depend_on_models (surveyModels spaces spaces' : Fetcher)
  (w : World) :
  is_throw (snd (surveyModels (clock w))) = true ->
  HuggingFaceSurveyor.survey surveyModels spaces w =
  HuggingFaceSurveyor.survey surveyModels spaces' w.
Proof.
  unfold HuggingFaceSurveyor.survey. cbn [start world].
  destruct (snd (surveyModels (clock w))); [discriminate|reflexivity].
Qed.

(** The partial-failure scenario of the design document on the code-host
    loop: of three topics the second throws; the two others are counted and
    there is one message. *)
Example scenario_second_topic_throws :
  exists r,
    snd (GitHubSurveyor.survey_topics ["llm"; "nlp"; "computer-vision"]
           Samples.search_nlp_down Samples.world0) = Normal r /\
    discovered (stats r) = 2%nat /\ updated (stats r) = 0%nat /\
    errors r = ["nlp: HTTP 500: Internal Server Error"] /\
    map name (tools r) = ["llm"; "computer-vision"].
Proof. eexists. vm_compute. repeat split. Qed.

(** C4, where the code departs from it. The model-hub adapter puts both of
    its listings into one [try] block: when the listing of models throws,
    [survey()] returns with one message, but the listing of spaces, which
    would have answered with one tool, is never surveyed, so the counts do
    not reflect it and the store stays empty; with an empty page of models
    in place of the failure the space is discovered. *)
Theorem huggingface_models_failure_skips_spaces :
  let real :=
    HuggingFaceSurveyor.survey Samples.models_down Samples.spaces_up
      Samples.world0 in
  let ideal :=
    HuggingFaceSurveyor.survey Samples.models_empty Samples.spaces_up
      Samples.world0 in
  (exists r,
     snd real = Normal r /\
     discovered (stats r) = 0%nat /\ updated (stats r) = 0%nat /\
     tools r = [] /\
     errors r = ["HTTP 500: Internal Server Error"]) /\
  ai_tools (db (fst real)) = [] /\
  (exists r,
     snd ideal = Normal r /\
     discovered (stats r) = 1%nat /\ updated (stats r) = 0%nat /\
     map name (tools r) = ["spaces/demo"] /\
     errors r = []) /\
  map row_name (ai_tools (db (fst ideal))) = ["spaces/demo"].
Proof.
  cbv zeta. split; [|split; [|split]].
  - eexists. vm_compute. repeat split.
  - reflexivity.
  - eexists. vm_compute. repeat split.
  - reflexivity.
Qed.

(** ** The recommendation engine *)

Section SortFacts.

Context {A : Type} (follows : A -> A -> bool).

Lemma insert_by_In (x a : A) (l : list A) :
  In x (insert_by follows a l) <-> x = a \/ In x l.
Proof.
  induction l as [|y l IH]; cbn.
  - intuition congruence.
  - destruct (follows a y); cbn; rewrite ?IH; intuition congruence.
Qed.

Lemma sort_by_In (x : A) (l : list A) : In x (sort_by follows l) <-> In x l.
Proof.
  unfold sort_by. induction l as [|a l IH]; cbn; [tauto|].
  rewrite insert_by_In, IH. intuition congruence.
Qed.

End SortFacts.

Section FloatFacts.

Lemma ltb_leb (x y : float) :
  PrimFloat.ltb x y = true -> PrimFloat.leb x y = true.
Proof.
  rewrite ltb_spec, leb_spec. unfold SFltb, SFleb.
  destruct (SFcompare (Prim2SF x) (Prim2SF y)) as [[| |]|]; congruence.
Qed.

(** A double above the threshold is not negative (and not NaN). *)
Lemma above_threshold_nonneg (r : float) :
  gt r threshold = true -> PrimFloat.leb 0 r = true.
Proof.
  unfold gt. rewrite ltb_spec, leb_spec.
  replace (Prim2SF threshold)
    with (S754_finite false 5404319552844595 (-54)) by (vm_compute; reflexivity).
  replace (Prim2SF 0) with (S754_zero false) by reflexivity.
  unfold SFltb, SFleb.
  destruct (Prim2SF r) as [s|s| |s m e]; cbn; try destruct s; congruence.
Qed.

(** What [Math.min(1, score)] returns is at most 1 unless it is NaN. *)
Lemma clamped_le_one (score : float) :
  gt (Math_min 1 score) threshold = true ->
  PrimFloat.leb (Math_min 1 score) 1 = true.
Proof.
  unfold Math_min.
  destruct (PrimFloat.is_nan 1 || PrimFloat.is_nan score);
    [vm_compute; discriminate|].
  destruct (PrimFloat.ltb 1 score); [reflexivity|].
  destruct (PrimFloat.ltb score 1) eqn:E; [intros _; now apply ltb_leb|].
  replace (PrimFloat.is_zero 1) with false by reflexivity. reflexivity.
Qed.

End FloatFacts.

Section RecommendationFacts.

Variable now : Timestamp.
Variable project : ProjectRow.

Lemma calculateRelevance_weighted (tool : ToolRow) :
  calculateRelevance project tool = weighted_score project tool.
Proof.
  unfold calculateRelevance, weighted_score, needsMatch, stackMatch,
    popularityBoost, categoryMatch, some,
    weight_ai_needs, weight_tech_stack, weight_popularity, weight_category.
  destruct (metadata_get "language" (row_metadata tool)) as [language|];
    [destruct (truthy_string language); cbn [andb];
     [destruct (existsb _ (map toLowerCase (pr_tech_stack project)))|]|];
    (destruct (truthy_number (row_popularity_score tool));
     (destruct (row_category tool) as [category|];
      [destruct (truthy_string category); cbn [andb];
       [destruct (includes _ _ || includes _ _)|]|]));
    reflexivity.
Qed.

Lemma qualifying_score (tool : ToolRow) :
  qualifies project tool = true ->
  gt (calculateRelevance project tool) threshold = true /\
  in_unit_interval (calculateRelevance project tool).
Proof.
  unfold qualifies. intros H. split; [exact H|]. split.
  - now apply above_threshold_nonneg.
  - revert H. unfold calculateRelevance. apply clamped_le_one.
Qed.

Lemma consider_qualifying (t : ToolRow) (s0 : Store)
  (recs0 : list Recommendation) :
  qualifies project t = true ->
  exists s1 row r,
    consider now project (pr_id project) (s0, recs0) t = (s1, recs0 ++ [r]) /\
    Db.recommendations s1 = Db.recommendations s0 ++ [row] /\
    ai_tools s1 = ai_tools s0 /\
    user_projects s1 = user_projects s0 /\
    survey_runs s1 = survey_runs s0 /\
    row_for project t row /\
    returned_for row r.
Proof.
  intros Hq. unfold consider. fold (qualifies project t). rewrite Hq.
  do 3 eexists. split; [reflexivity|]. cbn. repeat split.
Qed.

Lemma consider_other (t : ToolRow) (acc : Store * list Recommendation) :
  qualifies project t = false ->
  consider now project (pr_id project) acc t = acc.
Proof.
  intros Hq. unfold consider. fold (qualifies project t). now rewrite Hq.
Qed.

(** The loop of [generateRecommendations] writes one row for each tool that
    qualifies, in the order of the tools, and collects one recommendation
    per row; it touches no other table. *)
Lemma consider_all (tools : list ToolRow) :
  forall (s0 : Store) (recs0 : list Recommendation),
    let out :=
      fold_left (consider now project (pr_id project)) tools (s0, recs0) in
    exists rows news,
      Db.recommendations (fst out) = Db.recommendations s0 ++ rows /\
      snd out = recs0 ++ news /\
      ai_tools (fst out) = ai_tools s0 /\
      user_projects (fst out) = user_projects s0 /\
      survey_runs (fst out) = survey_runs s0 /\
      Forall2 (row_for project) (filter (qualifies project) tools) rows /\
      Forall2 returned_for rows news.
Proof.
  induction tools as [|t tools IH]; intros s0 recs0; cbn [fold_left filter].
  - exists [], []. rewrite !app_nil_r. repeat split; constructor.
  - destruct (qualifies project t) eqn:Hq.
    + destruct (consider_qualifying t s0 recs0 Hq)
        as (s1 & row & r & -> & Hr1 & Ht1 & Hp1 & Hs1 & Hrow & Hret).
      destruct (IH s1 (recs0 ++ [r]))
        as (rows & news & Hr & Hn & Ht & Hp & Hs & Hrows & Hnews).
      exists (row :: rows), (r :: news).
      rewrite Hr, Hn, Ht, Hp, Hs, Hr1, Ht1, Hp1, Hs1, <- !app_assoc.
      repeat split; constructor; auto.
    + rewrite consider_other by exact Hq. apply IH.
Qed.

End RecommendationFacts.

Lemma Forall2_In_r {A B} (R : A -> B -> Prop) (l : list A) (l' : list B) :
  Forall2 R l l' -> forall y, In y l' -> exists x, In x l /\ R x y.
Proof.
  induction 1 as [|x y l l' Hxy _ IH]; cbn; [tauto|].
  intros z [<-|Hz].
  - exists x. auto.
  - destruct (IH z Hz) as (x' & Hx' & HR). exists x'. auto.
Qed.

Lemma slice0_In {A} (n : nat) (l : list A) (x : A) :
  In x (slice0 n l) -> In x l.
Proof.
  unfold slice0. intros H. rewrite <- (firstn_skipn n l).
  apply in_or_app. now left.
Qed.

Lemma persisted_app (s s' : Store) (rows : list RecommendationRow) :
  Db.recommendations s' = Db.recommendations s ++ rows ->
  persisted s s' = rows.
Proof.
  intros H. unfold persisted. rewrite H, skipn_app, skipn_all, Nat.sub_diag.
  reflexivity.
Qed.

(** [generateRecommendations] returns for every project the store holds,
    and throws for any other id without touching the store. *)
Lemma generateRecommendations_returns (now : Timestamp) (projectId : Z)
  (s : Store) :
  (exists project, In project (user_projects s) /\ pr_id project = projectId) ->
  is_throw (snd (generateRecommendations now projectId s)) = false.
Proof.
  intros (project & Hin & Hid). unfold generateRecommendations.
  destruct (find (fun p => (pr_id p =? projectId)%Z) (getAllProjects s))
    eqn:Hfind; [reflexivity|].
  apply find_none with (x := project) in Hfind.
  - apply Z.eqb_neq in Hfind. contradiction.
  - now apply sort_by_In.
Qed.

Lemma generateRecommendations_unknown_project (now : Timestamp)
  (projectId : Z) (s : Store) :
  (forall project, In project (user_projects s) -> pr_id project <> projectId) ->
  generateRecommendations now projectId s =
  (s, Throw ("Project " ++ string_of_Z projectId ++ " not found")%string).
Proof.
  intros Hnone. unfold generateRecommendations.
  destruct (find (fun p => (pr_id p =? projectId)%Z) (getAllProjects s))
    as [project|] eqn:Hfind; [|reflexivity].
  apply find_some in Hfind as [Hin Hid].
  apply sort_by_In in Hin. apply Z.eqb_eq in Hid. now elim (Hnone project).
Qed.

(** C2. When [generateRecommendations] returns, the rows it has added to
    [recommendations] are, in order, one for each tool of the catalog page
    whose relevance is strictly above 0.3, carrying that relevance; every row
    added and every recommendation returned has a score above 0.3 and within
    [0, 1]; each recommendation returned stands for one of the rows added
    and at most 20 are returned. The relevance is the weighted formula: 0.4
    times the share of matched needs, plus 0.3 for a stack match, 0.1 times
    the popularity fraction and 0.2 for a category match, cut off at 1. *)
Theorem generateRecommendations_threshold :
  forall (now : Timestamp) (projectId : Z) (s : Store),
    is_throw (snd (generateRecommendations now projectId s)) = false ->
    exists project recs,
      In project (user_projects s) /\
      pr_id project = projectId /\
      generateRecommendations now projectId s =
        (fst (generateRecommendations now projectId s), Normal recs) /\
      Db.recommendations (fst (generateRecommendations now projectId s)) =
        Db.recommendations s ++
        persisted s (fst (generateRecommendations now projectId s)) /\
      Forall2 (row_for project)
        (filter (qualifies project) (getAllTools 1000 0 s))
        (persisted s (fst (generateRecommendations now projectId s))) /\
      Forall (fun row =>
                gt (rr_relevance_score row) threshold = true /\
                in_unit_interval (rr_relevance_score row))
        (persisted s (fst (generateRecommendations now projectId s))) /\
      Forall (fun r =>
                gt (rec_relevance_score r) threshold = true /\
                in_unit_interval (rec_relevance_score r) /\
                exists row,
                  In row (persisted s
                            (fst (generateRecommendations now projectId s))) /\
                  returned_for row r)
        recs /\
      (List.length recs <= 20)%nat /\
      (forall tool, calculateRelevance project tool = weighted_score project tool).
Proof.
  intros now projectId s. unfold generateRecommendations.
  destruct (find (fun p => (pr_id p =? projectId)%Z) (getAllProjects s))
    as [project|] eqn:Hfind; [intros _|discriminate].
  apply find_some in Hfind as [Hin Hid].
  apply sort_by_In in Hin. apply Z.eqb_eq in Hid. subst projectId.
  destruct (consider_all now project (getAllTools 1000 0 s) s [])
    as (rows & news & Hr & Hn & _ & _ & _ & Hrows & Hnews).
  cbn [app] in Hn. cbn [fst snd].
  rewrite (persisted_app s _ rows Hr).
  assert (Hscores : Forall (fun row =>
                      gt (rr_relevance_score row) threshold = true /\
                      in_unit_interval (rr_relevance_score row)) rows).
  { apply Forall_forall. intros row Hrow.
    destruct (Forall2_In_r _ _ _ Hrows row Hrow) as (t & Ht & _ & _ & -> & _).
    apply filter_In in Ht as [_ Hq]. now apply qualifying_score. }
  exists project, (slice0 20 (sort_by by_relevance_follows news)).
  rewrite Hn. repeat split; auto.
  - apply Forall_forall. intros r Hrec.
    apply slice0_In, sort_by_In in Hrec.
    destruct (Forall2_In_r _ _ _ Hnews r Hrec) as (row & Hrow & Hret).
    rewrite Forall_forall in Hscores. destruct (Hscores row Hrow) as [Hgt Hunit].
    destruct Hret as (Hid & Htool & Hscore).
    rewrite Hscore. split; [exact Hgt|]. split; [exact Hunit|].
    exists row. unfold returned_for. auto.
  - apply firstn_le_length.
  - apply calculateRelevance_weighted.
Qed.

Lemma generateRecommendations_threshold_witness :
  exists project recs,
    In project (user_projects Samples.catalog) /\
    pr_id project = 1%Z /\
    generateRecommendations 300 1 Samples.catalog =
      (fst (generateRecommendations 300 1 Samples.catalog), Normal recs) /\
    Db.recommendations (fst (generateRecommendations 300 1 Samples.catalog)) =
      Db.recommendations Samples.catalog ++
      persisted Samples.catalog
        (fst (generateRecommendations 300 1 Samples.catalog)) /\
    Forall2 (row_for project)
      (filter (qualifies project) (getAllTools 1000 0 Samples.catalog))
      (persisted Samples.catalog
         (fst (generateRecommendations 300 1 Samples.catalog))) /\
    Forall (fun row =>
              gt (rr_relevance_score row) threshold = true /\
              in_unit_interval (rr_relevance_score row))
      (persisted Samples.catalog
         (fst (generateRecommendations 300 1 Samples.catalog))) /\
    Forall (fun r =>
              gt (rec_relevance_score r) threshold = true /\
              in_unit_interval (rec_relevance_score r) /\
              exists row,
                In row (persisted Samples.catalog
                          (fst (generateRecommendations 300 1 Samples.catalog))) /\
                returned_for row r)
      recs /\
    (List.length recs <= 20)%nat /\
    (forall tool, calculateRelevance project tool = weighted_score project tool).
Proof.
  apply (generateRecommendations_threshold 300 1 Samples.catalog).
  vm_compute. reflexivity.
Defined.

(** The sample catalog, evaluated: the tool found by the needs scores
    0.4 + 0.08, the one sharing only the language 0.3 + 0.02, and the merely
    general one, at 0.2 + 0.01, is neither written nor returned. *)
Example scenario_recommendations :
  map (fun row => (rr_tool_id row, rr_relevance_score row))
    (persisted Samples.catalog
       (fst (generateRecommendations 300 1 Samples.catalog))) =
  [ (1%Z, 0.48000000000000004%float); (2%Z, 0.32%float) ] /\
  map (calculateRelevance
         (hd (mkProjectRow 0 "" None None [] [] 0)
            (user_projects Samples.catalog)))
    (ai_tools Samples.catalog) =
  [ 0.48000000000000004%float; 0.32%float; 0.21000000000000002%float ].
Proof. vm_compute. split; reflexivity. Qed.

(** Doubles, not reals, decide the threshold: a tool matched by nothing but
    its category and a popularity of 100 scores 0.1 + 0.2, which as a double
    is above the double 0.3. *)
Example threshold_in_doubles :
  gt (Math_min 1 (0 + 0 / 1 * 0.4 + 100 / 100 * 0.1 + 0.2)) threshold = true.
Proof. vm_compute. reflexivity. Qed.

(** * Further properties of the code *)

(** ** Sorting *)

Section SortOrder.

Context {A : Type} (follows : A -> A -> bool).

Lemma insert_by_perm (a : A) (l : list A) :
  Permutation (insert_by follows a l) (a :: l).
Proof.
  induction l as [|y l IH]; cbn; [reflexivity|].
  destruct (follows a y); [|reflexivity].
  rewrite IH. apply perm_swap.
Qed.

Lemma sort_by_perm (l : list A) : Permutation (sort_by follows l) l.
Proof.
  unfold sort_by. induction l as [|a l IH]; cbn; [reflexivity|].
  rewrite insert_by_perm. now constructor.
Qed.

Lemma sort_by_length (l : list A) :
  List.length (sort_by follows l) = List.length l.
Proof. apply Permutation_length, sort_by_perm. Qed.

(** With a comparator that never puts two elements after each other, no
    element of the sorted list comes right before one it follows. *)
Hypothesis follows_asym :
  forall x y, follows x y = true -> follows y x = false.

Lemma insert_by_sorted (a : A) (l : list A) :
  Sorted (fun x y => follows x y = false) l ->
  Sorted (fun x y => follows x y = false) (insert_by follows a l).
Proof.
  induction 1 as [|y l Hl IH Hhd]; cbn.
  - repeat constructor.
  - destruct (follows a y) eqn:E.
    + constructor; [exact IH|].
      destruct l as [|z l]; cbn.
      * constructor. now apply follows_asym.
      * destruct (follows a z); constructor.
        -- now inversion Hhd.
        -- now apply follows_asym.
    + constructor; [now constructor|]. now constructor.
Qed.

Lemma sort_by_sorted (l : list A) :
  Sorted (fun x y => follows x y = false) (sort_by follows l).
Proof.
  unfold sort_by. induction l as [|a l IH]; cbn; [constructor|].
  now apply insert_by_sorted.
Qed.

End SortOrder.

Lemma Sorted_skipn {A} (R : A -> A -> Prop) (n : nat) (l : list A) :
  Sorted R l -> Sorted R (skipn n l).
Proof.
  revert l. induction n as [|n IH]; intros l H; [exact H|].
  destruct l as [|a l]; [constructor|]. cbn. apply IH. now inversion H.
Qed.

Lemma Sorted_firstn {A} (R : A -> A -> Prop) (n : nat) (l : list A) :
  Sorted R l -> Sorted R (firstn n l).
Proof.
  revert l. induction n as [|n IH]; intros l H; [constructor|].
  destruct l as [|a l]; [constructor|]. cbn.
  inversion H as [|? ? Hl Hhd]; subst. constructor; [now apply IH|].
  destruct n; [constructor|].
  destruct l as [|b l]; cbn; constructor. now inversion Hhd.
Qed.

(** An element that every other one follows comes out first. *)
Lemma sort_by_newest_first {A} (follows : A -> A -> bool) (x : A) (l : list A) :
  (forall y, In y l -> follows y x = true) ->
  sort_by follows (l ++ [x]) = x :: sort_by follows l.
Proof.
  unfold sort_by. rewrite fold_right_app. cbn.
  generalize (@nil A) as acc.
  induction l as [|y l IH]; intros acc Hall; cbn; [reflexivity|].
  rewrite IH by (intros; apply Hall; now right).
  cbn. now rewrite Hall by now left.
Qed.

(** ** Doubles as SQLite orders them *)

Section RealOrder.

Lemma SFcompare_Lt_Gt (a b : spec_float) :
  SFcompare a b = Some Lt -> SFcompare b a = Some Gt.
Proof.
  destruct a as [sa|sa| |sa ma ea], b as [sb|sb| |sb mb eb]; cbn;
    try destruct sa; try destruct sb; try congruence.
  all: rewrite (Z.compare_antisym ea eb);
       destruct (ea ?= eb)%Z eqn:E; cbn; try congruence.
  all: change (PosDef.Pos.compare_cont Eq mb ma) with (Pos.compare mb ma);
       change (PosDef.Pos.compare_cont Eq ma mb) with (Pos.compare ma mb);
       rewrite (Pos.compare_antisym ma mb);
       destruct (Pos.compare ma mb); cbn; congruence.
Qed.

Lemma ltb_asym (x y : float) :
  PrimFloat.ltb x y = true -> PrimFloat.ltb y x = false.
Proof.
  rewrite !ltb_spec. unfold SFltb.
  destruct (SFcompare (Prim2SF x) (Prim2SF y)) as [[| |]|] eqn:E;
    try discriminate.
  intros _. now rewrite (SFcompare_Lt_Gt _ _ E).
Qed.

Lemma ltb_not_eqb (x y : float) :
  PrimFloat.ltb x y = true ->
  PrimFloat.eqb x y = false /\ PrimFloat.eqb y x = false.
Proof.
  rewrite ltb_spec, !eqb_spec. unfold SFltb, SFeqb.
  destruct (SFcompare (Prim2SF x) (Prim2SF y)) as [[| |]|] eqn:E;
    try discriminate.
  intros _. now rewrite (SFcompare_Lt_Gt _ _ E).
Qed.

Lemma ltb_not_nan (x y : float) :
  PrimFloat.ltb x y = true ->
  PrimFloat.is_nan x = false /\ PrimFloat.is_nan y = false.
Proof.
  unfold PrimFloat.is_nan. rewrite ltb_spec, !eqb_spec. unfold SFltb, SFeqb.
  destruct (Prim2SF x) as [sa|sa| |sa ma ea], (Prim2SF y) as [sb|sb| |sb mb eb];
    cbn; try discriminate; intros _;
    repeat match goal with s : bool |- _ => destruct s end; cbn;
    rewrite ?Z.compare_refl; cbn;
    change (PosDef.Pos.compare_cont Eq ?m ?m) with (Pos.compare m m);
    rewrite ?Pos.compare_refl; auto.
Qed.

Lemma nan_not_eqb (x y : float) :
  PrimFloat.is_nan x = true ->
  PrimFloat.eqb x y = false /\ PrimFloat.eqb y x = false.
Proof.
  unfold PrimFloat.is_nan. rewrite !eqb_spec. unfold SFeqb.
  destruct (Prim2SF x) as [sa|sa| |sa ma ea], (Prim2SF y) as [sb|sb| |sb mb eb];
    cbn; auto;
    repeat match goal with s : bool |- _ => destruct s end; cbn;
    rewrite ?Z.compare_refl; cbn;
    change (PosDef.Pos.compare_cont Eq ?m ?m) with (Pos.compare m m);
    rewrite ?Pos.compare_refl; cbn; discriminate.
Qed.

Lemma real_desc_follows_asym (x y : float) :
  real_desc_follows x y = true ->
  real_desc_follows y x = false /\ real_same x y = false /\
  real_same y x = false.
Proof.
  unfold real_desc_follows, real_same.
  destruct (PrimFloat.is_nan y) eqn:Hy; [discriminate|].
  destruct (PrimFloat.is_nan x) eqn:Hx.
  - intros _. destruct (nan_not_eqb x y Hx) as [-> ->]. auto.
  - intros H. rewrite (ltb_asym _ _ H).
    destruct (ltb_not_eqb _ _ H) as [-> ->]. auto.
Qed.

Lemma tools_order_follows_asym (x y : ToolRow) :
  tools_order_follows x y = true -> tools_order_follows y x = false.
Proof.
  unfold tools_order_follows. intros H.
  apply orb_true_iff in H as [H|H].
  - destruct (real_desc_follows_asym _ _ H) as (-> & _ & ->). reflexivity.
  - apply andb_true_iff in H as [Hsame Hlt].
    destruct (real_desc_follows (row_popularity_score y)
                (row_popularity_score x)) eqn:E.
    + destruct (real_desc_follows_asym _ _ E) as (_ & _ & Habs). congruence.
    + cbn. apply andb_false_iff. right. apply Z.ltb_ge.
      apply Z.ltb_lt in Hlt. lia.
Qed.

End RealOrder.

(** ** The store: lookups, pages and listings *)

Lemma find_app_none {A} (f : A -> bool) (l l' : list A) :
  find f l = None -> find f (l ++ l') = find f l'.
Proof.
  induction l as [|a l IH]; cbn; [reflexivity|].
  destruct (f a); [discriminate|exact IH].
Qed.

Lemma find_app_some {A} (f : A -> bool) (l l' : list A) (x : A) :
  find f l = Some x -> find f (l ++ l') = Some x.
Proof.
  induction l as [|a l IH]; cbn; [discriminate|].
  destruct (f a); [auto|exact IH].
Qed.

(** X1. Looking a url up after [insertTool]: if no row had the url, the new
    row is found, with the key [insertTool] returned and the fields of the
    tool; if a row had it already, that older row is still the one found,
    so the duplicate is out of reach of the adapters' lookups; and lookups
    of any other url give what they gave before. *)
Theorem insertTool_then_getToolByUrl :
  forall (now : Timestamp) (t : AITool) (u : string) (s : Store),
    url t = Some u ->
    let after := fst (insertTool now t s) in
    (getToolByUrl u s = None ->
     exists row,
       getToolByUrl u after = Some row /\
       row_id row = snd (insertTool now t s) /\
       row_name row = name t /\
       row_description row = description t /\
       row_source row = source t /\
       row_category row = category t /\
       row_first_discovered row = now /\
       row_last_updated row = now) /\
    (forall old, getToolByUrl u s = Some old ->
                 getToolByUrl u after = Some old) /\
    (forall u', u' <> u -> getToolByUrl u' after = getToolByUrl u' s).
Proof.
  intros now t u s Hu after. subst after. unfold getToolByUrl.
  cbn [insertTool fst snd ai_tools set_ai_tools].
  split; [|split].
  - intros Hnone. rewrite (find_app_none _ _ _ Hnone). cbn.
    unfold has_url at 1. cbn. rewrite Hu, String.eqb_refl.
    eexists. repeat split.
  - intros old Hold. now apply find_app_some.
  - intros u' Hne.
    destruct (find (has_url u') (ai_tools s)) as [r|] eqn:E.
    + now apply find_app_some.
    + rewrite (find_app_none _ _ _ E). cbn. unfold has_url at 1. cbn.
      rewrite Hu. apply String.eqb_neq in Hne.
      now rewrite String.eqb_sym, Hne.
Qed.

Lemma insertTool_then_getToolByUrl_witness :
  let s := fst (insertTool 60 Samples.search_tool Db.empty) in
  let after := fst (insertTool 70 (Samples.tool_A "first") s) in
  (getToolByUrl "https://x/y" s = None ->
   exists row,
     getToolByUrl "https://x/y" after = Some row /\
     row_id row = snd (insertTool 70 (Samples.tool_A "first") s) /\
     row_name row = name (Samples.tool_A "first") /\
     row_description row = description (Samples.tool_A "first") /\
     row_source row = source (Samples.tool_A "first") /\
     row_category row = category (Samples.tool_A "first") /\
     row_first_discovered row = 70%Z /\
     row_last_updated row = 70%Z) /\
  (forall old, getToolByUrl "https://x/y" s = Some old ->
               getToolByUrl "https://x/y" after = Some old) /\
  (forall u', u' <> "https://x/y" ->
              getToolByUrl u' after = getToolByUrl u' s).
Proof.
  apply (insertTool_then_getToolByUrl 70 (Samples.tool_A "first")
           "https://x/y" (fst (insertTool 60 Samples.search_tool Db.empty))).
  reflexivity.
Defined.

Lemma store_eta (s : Store) :
  set_ai_tools (ai_tools s) (ai_tools_seq s) s = s.
Proof. now destruct s. Qed.

(** X2. [updateTool] with a key no row has changes nothing at all, and
    reports nothing. *)
Theorem updateTool_unknown_id :
  forall (now : Timestamp) (id : Z) (p : PartialAITool) (s : Store),
    (forall r, In r (ai_tools s) -> row_id r <> id) ->
    updateTool now id p s = s.
Proof.
  intros now id p s Hnone. unfold updateTool.
  replace (map _ (ai_tools s)) with (ai_tools s); [apply store_eta|].
  induction (ai_tools s) as [|r rows IH]; cbn; [reflexivity|].
  rewrite <- IH by (intros; apply Hnone; now right).
  destruct (Z.eqb_spec (row_id r) id) as [E|_]; [|reflexivity].
  now elim (Hnone r (or_introl eq_refl)).
Qed.

Lemma updateTool_unknown_id_witness :
  updateTool 500 42 (as_partial (Samples.tool_A "new")) Samples.catalog =
  Samples.catalog.
Proof.
  apply (updateTool_unknown_id 500 42 (as_partial (Samples.tool_A "new"))
           Samples.catalog).
  intros r Hin. cbn in Hin.
  destruct Hin as [<-|[<-|[<-|[]]]]; cbn; lia.
Defined.


(** X4. [getAllTools] lists by descending popularity: no row stands right
    before one it should follow, that is, before a row with a larger
    score or with the same score and a later update; between two
    neighbours that both have a score the first is not the smaller. *)
Theorem getAllTools_descending :
  forall (s : Store) (limit offset : nat),
    Sorted (fun a b => tools_order_follows a b = false)
      (getAllTools limit offset s) /\
    Sorted (fun a b =>
              PrimFloat.is_nan (row_popularity_score a) = false ->
              PrimFloat.is_nan (row_popularity_score b) = false ->
              PrimFloat.ltb (row_popularity_score a) (row_popularity_score b)
              = false)
      (getAllTools limit offset s).
Proof.
  intros s limit offset.
  assert (H : Sorted (fun a b => tools_order_follows a b = false)
                (getAllTools limit offset s)).
  { unfold getAllTools. apply Sorted_firstn, Sorted_skipn, sort_by_sorted.
    apply tools_order_follows_asym. }
  split; [exact H|].
  induction H as [|a l Hl IH Hhd]; constructor; [exact IH|].
  destruct Hhd as [|b l Hab]; constructor.
  intros Ha Hb. unfold tools_order_follows in Hab.
  apply orb_false_iff in Hab as [Hab _].
  unfold real_desc_follows in Hab. now rewrite Hb, Ha in Hab.
Qed.

(** X5. A run logged at a time later than every run in the log is the
    first of [getRecentSurveyRuns], with the source, status, counts and
    message it was logged with (absent counts as 0), and the runs listed
    before follow it. *)
Theorem logSurveyRun_then_getRecentSurveyRuns :
  forall (now : Timestamp) (run : SurveyRun) (s : Store) (limit : nat),
    (forall r, In r (survey_runs s) -> (sr_run_time r < now)%Z) ->
    exists row,
      getRecentSurveyRuns (S limit) (fst (logSurveyRun now run s)) =
        row :: getRecentSurveyRuns limit s /\
      sr_id row = snd (logSurveyRun now run s) /\
      sr_run_time row = now /\
      sr_source row = run_source run /\
      sr_status row = status run /\
      sr_error_log row = error_log run /\
      sr_items_discovered row =
        match items_discovered run with Some n => n | None => 0%nat end /\
      sr_items_updated row =
        match items_updated run with Some n => n | None => 0%nat end.
Proof.
  intros now run s limit Hlater. eexists. split.
  - unfold getRecentSurveyRuns.
    cbn [logSurveyRun fst survey_runs].
    rewrite sort_by_newest_first; [reflexivity|].
    intros y Hy. cbn. apply Z.ltb_lt. now apply Hlater.
  - repeat split.
Qed.

Lemma logSurveyRun_then_getRecentSurveyRuns_witness :
  let run :=
    {| run_source := "github"; items_discovered := Some 3%nat;
       items_updated := None; status := partial;
       error_log := Some "nlp: HTTP 500: Internal Server Error";
       duration_seconds := None |} in
  let s := db (fst (Surveyor.run Samples.broken Samples.world0)) in
  exists row,
    getRecentSurveyRuns 2 (fst (logSurveyRun 900 run s)) =
      row :: getRecentSurveyRuns 1 s /\
    sr_id row = snd (logSurveyRun 900 run s) /\
    sr_run_time row = 900%Z /\
    sr_source row = run_source run /\
    sr_status row = status run /\
    sr_error_log row = error_log run /\
    sr_items_discovered row =
      match items_discovered run with Some n => n | None => 0%nat end /\
    sr_items_updated row =
      match items_updated run with Some n => n | None => 0%nat end.
Proof.
  apply (logSurveyRun_then_getRecentSurveyRuns 900
           {| run_source := "github"; items_discovered := Some 3%nat;
              items_updated := None; status := partial;
              error_log := Some "nlp: HTTP 500: Internal Server Error";
              duration_seconds := None |}
           (db (fst (Surveyor.run Samples.broken Samples.world0))) 1).
  intros r Hin. cbn in Hin. destruct Hin as [<-|[]]. cbn. lia.
Defined.

Lemma joined_rows (projectId : option Z) (status : string) (s : Store)
  (row : RecommendationRow * ToolRow) :
  In row (joined projectId status s) ->
  In (fst row) (Db.recommendations s) /\
  In (snd row) (ai_tools s) /\
  row_id (snd row) = rr_tool_id (fst row) /\
  status_name (rr_status (fst row)) = status /\
  project_selected projectId (fst row) = true.
Proof.
  unfold joined. intros H.
  apply in_flat_map in H as (r & Hr & Hrow).
  apply filter_In in Hr as [Hr Hsel].
  apply andb_true_iff in Hsel as [Hst Hp].
  apply in_map_iff in Hrow as (t & <- & Ht).
  apply filter_In in Ht as [Ht Hid].
  cbn. repeat split; auto.
  - now apply Z.eqb_eq.
  - now apply String.eqb_eq.
Qed.

(** X6. In what [getRecommendations] returns, [id] is the key of the tool,
    not of the recommendation, and [relevance_score] is the column of the
    tool's row, not the score stored with the recommendation: the join
    selects two columns of each name and the later one wins. The other
    fields are those of a stored recommendation with the status asked for,
    and the tool is the stored tool it points to. *)
Theorem getRecommendations_reports_the_tool :
  forall (projectId : option Z) (status : string) (s : Store),
    Forall
      (fun listed =>
         listed_id listed = listed_tool_id listed /\
         listed_id listed = row_id (listed_tool listed) /\
         listed_relevance_score listed =
           row_relevance_score (listed_tool listed) /\
         listed_status listed = status /\
         In (listed_tool listed) (ai_tools s) /\
         exists r,
           In r (Db.recommendations s) /\
           rr_tool_id r = listed_tool_id listed /\
           rr_user_project_id r = listed_user_project_id listed /\
           rr_reason r = listed_reason listed /\
           rr_created_at r = listed_created_at listed /\
           project_selected projectId r = true)
      (getRecommendations projectId status s) /\
    List.length (getRecommendations projectId status s) =
      List.length (joined projectId status s).
Proof.
  intros projectId status s. split.
  - apply Forall_forall. intros listed Hin.
    unfold getRecommendations in Hin.
    apply in_map_iff in Hin as (row & <- & Hrow).
    apply sort_by_In in Hrow.
    destruct (joined_rows _ _ _ _ Hrow) as (Hr & Ht & Hid & Hst & Hp).
    cbn. repeat split; auto.
    exists (fst row). repeat split; auto.
  - unfold getRecommendations. now rewrite length_map, sort_by_length.
Qed.

(** The recommendations of the sample catalog, generated twice and listed:
    the scores 0.48 and 0.32 that were stored come back as 0, the
    relevance column of the tools, and the keys listed are 1 and 2, those
    of the tools, for the recommendations 1 to 4. *)
Example listed_scores_are_lost :
  let s1 := fst (generateRecommendations 300 1 Samples.catalog) in
  let s2 := fst (generateRecommendations 400 1 s1) in
  map (fun r => (rr_id r, rr_relevance_score r)) (Db.recommendations s2) =
  [ (1%Z, 0.48000000000000004%float); (2%Z, 0.32%float);
    (3%Z, 0.48000000000000004%float); (4%Z, 0.32%float) ] /\
  map (fun l => (listed_id l, listed_relevance_score l))
    (getRecommendations (Some 1%Z) "pending" s2) =
  [ (1%Z, 0%float); (1%Z, 0%float); (2%Z, 0%float); (2%Z, 0%float) ].
Proof. vm_compute. split; reflexivity. Qed.

(** ** More of [fetchWithRetry] *)

Section FetchMore.

Variable net : nat -> FetchOutcome.
Variable maxRetries : nat.

Lemma fetch_loop_first_success (remaining : nat) :
  forall i lastError k r,
    (i <= k < i + remaining)%nat ->
    (forall j, (i <= j < k)%nat -> succeeded (net j) = false) ->
    net k = Responded r ->
    ok r = true ->
    fst (fetch_loop net maxRetries remaining i lastError) = Normal r /\
    attempts (snd (fetch_loop net maxRetries remaining i lastError)) =
      S (k - i) /\
    exists before,
      snd (fetch_loop net maxRetries remaining i lastError) =
        before ++ [Fetch k (Responded r)].
Proof.
  induction remaining as [|n IH]; intros i lastError k r Hk Hfail Hnet Hok;
    [lia|].
  cbn [fetch_loop].
  destruct (Nat.eq_dec k i) as [-> | Hne].
  - rewrite Hnet, Hok. cbn. rewrite Nat.sub_diag.
    repeat split. now exists [].
  - assert (Hi : succeeded (net i) = false) by (apply Hfail; lia).
    assert (Hk' : (S i <= k < S i + n)%nat) by lia.
    assert (Hfail' : forall j, (S i <= j < k)%nat -> succeeded (net j) = false)
      by (intros j Hj; apply Hfail; lia).
    assert (Hsub : S (k - i) = S (S (k - S i))) by lia.
    rewrite Hsub.
    destruct (net i) as [e|r0]; cbn [fst snd].
    + destruct (IH (S i) (Some e) k r Hk' Hfail' Hnet Hok)
        as (Hfst & Hn & before & Hsnd).
      split; [exact Hfst|]. split.
      * now rewrite attempts_cons_fetch, attempts_backoff, Hn.
      * rewrite Hsnd. eexists (Fetch i (Rejected e) :: _ ++ before).
        cbn. now rewrite <- app_assoc.
    + cbn in Hi. rewrite Hi.
      destruct (resp_status r0 =? 429)%nat; cbn [fst snd].
      * destruct (IH (S i) lastError k r Hk' Hfail' Hnet Hok)
          as (Hfst & Hn & before & Hsnd).
        split; [exact Hfst|]. split.
        -- now rewrite attempts_cons_fetch, attempts_cons_sleep, Hn.
        -- rewrite Hsnd.
           now exists (Fetch i (Responded r0)
                         :: Sleep (rate_limit_wait i r0) :: before).
      * destruct (IH (S i) (Some (http_error r0)) k r Hk' Hfail' Hnet Hok)
          as (Hfst & Hn & before & Hsnd).
        split; [exact Hfst|]. split.
        -- now rewrite attempts_cons_fetch, attempts_backoff, Hn.
        -- rewrite Hsnd. eexists (Fetch i (Responded r0) :: _ ++ before).
           cbn. now rewrite <- app_assoc.
Qed.

Lemma sleeps_app (tr tr' : list Event) :
  sleeps (tr ++ tr') = sleeps tr ++ sleeps tr'.
Proof. unfold sleeps. apply flat_map_app. Qed.

(** After plain failures only, the loop waits 1000, 2000, 4000, ...
    milliseconds, but not after its last attempt. *)
Lemma fetch_loop_backoff (remaining : nat) :
  forall i lastError,
    (i + remaining = maxRetries)%nat ->
    (forall j, (i <= j < maxRetries)%nat -> failure_of (net j) <> None) ->
    sleeps (snd (fetch_loop net maxRetries remaining i lastError)) =
    map (fun j => Some (backoff j)) (seq i (remaining - 1)).
Proof.
  induction remaining as [|n IH]; intros i lastError Hsum Hfail;
    [reflexivity|].
  cbn [fetch_loop].
  assert (Hi : failure_of (net i) <> None) by (apply Hfail; lia).
  assert (Htail :
    forall e,
      sleeps (Fetch i (net i) ::
              (if (i <? maxRetries - 1)%nat
               then [Sleep (Some (backoff i))] else []) ++
              snd (fetch_loop net maxRetries n (S i) (Some e))) =
      map (fun j => Some (backoff j)) (seq i (S n - 1))).
  { intros e. change (sleeps (Fetch i (net i) :: ?l)) with (sleeps l).
    rewrite sleeps_app, IH by (try lia; intros; apply Hfail; lia).
    destruct n as [|n'].
    - replace (i <? maxRetries - 1)%nat with false
        by (symmetry; apply Nat.ltb_ge; lia).
      reflexivity.
    - replace (i <? maxRetries - 1)%nat with true
        by (symmetry; apply Nat.ltb_lt; lia).
      cbn. now rewrite Nat.sub_0_r. }
  destruct (net i) as [e|r] eqn:Hnet; cbn [snd]; [apply Htail|].
  cbn in Hi. destruct (ok r); [now elim Hi|].
  destruct (resp_status r =? 429)%nat; [now elim Hi|]. apply Htail.
Qed.

End FetchMore.

Lemma backoff_total (n i : nat) :
  fold_right
    (fun ms total =>
       (match ms with Some z => Z.max 0 z | None => 0 end + total)%Z)
    0%Z (map (fun j => Some (backoff j)) (seq i n)) =
  ((2 ^ Z.of_nat n - 1) * 2 ^ Z.of_nat i * 1000)%Z.
Proof.
  revert i. induction n as [|n IH]; intros i; [cbn; lia|].
  cbn [seq map fold_right]. rewrite IH. unfold backoff.
  rewrite !Nat2Z.inj_succ, !Z.pow_succ_r by lia.
  assert (0 < 2 ^ Z.of_nat i)%Z by (apply Z.pow_pos_nonneg; lia).
  assert (0 < 2 ^ Z.of_nat n)%Z by (apply Z.pow_pos_nonneg; lia).
  rewrite Z.max_r by nia. nia.
Qed.

(** X7. [fetchWithRetry] returns the first successful response: when the
    answer to request [k] is the first with a 2xx status and [k] is below
    [maxRetries], that response is returned after exactly [k + 1] requests,
    and the request that got it is the last thing the call does. *)
Theorem fetchWithRetry_first_success :
  forall (net : nat -> FetchOutcome) (maxRetries k : nat) (r : Response),
    (k < maxRetries)%nat ->
    (forall j, (j < k)%nat -> succeeded (net j) = false) ->
    net k = Responded r ->
    ok r = true ->
    fst (fetchWithRetry net maxRetries) = Normal r /\
    attempts (snd (fetchWithRetry net maxRetries)) = S k /\
    exists before,
      snd (fetchWithRetry net maxRetries) = before ++ [Fetch k (Responded r)].
Proof.
  intros net maxRetries k r Hk Hfail Hnet Hok.
  destruct (fetch_loop_first_success net maxRetries maxRetries 0 None k r)
    as (H1 & H2 & H3); auto; try lia.
  - intros j Hj. apply Hfail. lia.
  - rewrite Nat.sub_0_r in H2. auto.
Qed.

Lemma fetchWithRetry_first_success_witness :
  let net := fun i => match i with
                      | 0 => Samples.server_error
                      | 1 => Samples.too_many_requests None
                      | _ => Samples.fine
                      end in
  fst (fetchWithRetry net 3) =
    Normal {| resp_status := 200; statusText := "OK"; retry_after := None |} /\
  attempts (snd (fetchWithRetry net 3)) = 3%nat /\
  exists before,
    snd (fetchWithRetry net 3) = before ++ [Fetch 2 Samples.fine].
Proof.
  apply (fetchWithRetry_first_success
           (fun i => match i with
                     | 0 => Samples.server_error
                     | 1 => Samples.too_many_requests None
                     | _ => Samples.fine
                     end)
           3 2 {| resp_status := 200; statusText := "OK";
                  retry_after := None |}).
  - lia.
  - intros j Hj. destruct j as [|[|j]]; [reflexivity|reflexivity|lia].
  - reflexivity.
  - reflexivity.
Defined.

(** X8. The backoff of [fetchWithRetry] when every attempt fails for a
    reason other than HTTP 429: the waits are 1000, 2000, ..., doubling,
    one after each attempt but the last, so [maxRetries - 1] of them and
    [(2^(maxRetries - 1) - 1)] seconds in all (3 seconds for the default
    of three attempts). *)
Theorem fetchWithRetry_backoff_schedule :
  forall (net : nat -> FetchOutcome) (maxRetries : nat),
    (0 < maxRetries)%nat ->
    (forall j, (j < maxRetries)%nat -> failure_of (net j) <> None) ->
    sleeps (snd (fetchWithRetry net maxRetries)) =
      map (fun j => Some (2 ^ Z.of_nat j * 1000)%Z) (seq 0 (maxRetries - 1)) /\
    waited (snd (fetchWithRetry net maxRetries)) =
      ((2 ^ Z.of_nat (maxRetries - 1) - 1) * 1000)%Z.
Proof.
  intros net maxRetries Hpos Hfail.
  assert (H : sleeps (snd (fetchWithRetry net maxRetries)) =
              map (fun j => Some (backoff j)) (seq 0 (maxRetries - 1))).
  { apply fetch_loop_backoff; [lia|]. intros j Hj. apply Hfail. lia. }
  split; [exact H|].
  unfold waited. rewrite H, backoff_total. cbn. lia.
Qed.

Lemma fetchWithRetry_backoff_schedule_witness :
  sleeps (snd (fetchWithRetry Samples.down 3)) =
    map (fun j => Some (2 ^ Z.of_nat j * 1000)%Z) (seq 0 (3 - 1)) /\
  waited (snd (fetchWithRetry Samples.down 3)) =
    ((2 ^ Z.of_nat (3 - 1) - 1) * 1000)%Z.
Proof.
  apply (fetchWithRetry_backoff_schedule Samples.down 3).
  - lia.
  - intros j Hj. destruct j as [|[|[|j]]]; cbn; discriminate.
Defined.

(** ** What a survey of a shipped adapter keeps *)

Section ShippedFacts.

Lemma process_items_kept (I : Progress -> Prop) (items : list AITool) :
  kept_by_steps I -> forall acc, I acc -> I (process_items items acc).
Proof.
  intros (Hitem & _). unfold process_items.
  induction items as [|t items IH]; intros acc H; cbn; auto.
Qed.

Lemma survey_dimensions_kept (I : Progress -> Prop) (delay : Z)
  (search : string -> Fetcher) (dimensions : list string) :
  kept_by_steps I ->
  forall acc, I acc -> I (survey_dimensions delay search dimensions acc).
Proof.
  intros K. pose proof K as (Hitem & Hpause & Hclock & Herr).
  unfold survey_dimensions.
  induction dimensions as [|d rest IH]; intros acc H; cbn [fold_left]; auto.
  apply IH. unfold survey_dimension.
  destruct (snd (search d _)).
  - apply (process_items_kept I); auto.
  - auto.
Qed.

(** Every shipped [survey()] ends by returning the state its steps built:
    it never throws. *)
Lemma shipped_survey_finishes (a : BaseSurveyor) (w : World) :
  shipped a ->
  exists acc,
    survey a w = finish acc /\
    forall I, kept_by_steps I -> I (start w) -> I acc.
Proof.
  intros [m sp | search | key search | search]; cbn [survey
    HuggingFaceSurveyor.surveyor GitHubSurveyor.surveyor
    YouTubeSurveyor.surveyor ArXivSurveyor.surveyor].
  - unfold HuggingFaceSurveyor.survey.
    destruct (snd (m _)) as [models|e].
    + destruct (snd (sp _)) as [spaces|e]; eexists; (split; [reflexivity|]);
        intros I K H; pose proof K as (Hitem & Hpause & Hclock & Herr);
        repeat first [ apply (process_items_kept I); [exact K|]
                     | apply Herr | apply Hclock ];
        exact H.
    + eexists. split; [reflexivity|].
      intros I (Hitem & Hpause & Hclock & Herr) H. auto.
  - eexists. split; [reflexivity|].
    intros I K H. now apply survey_dimensions_kept.
  - unfold YouTubeSurveyor.survey.
    destruct key as [key|]; [destruct (truthy_string key)|];
      eexists; (split; [reflexivity|]); intros I K H.
    + now apply survey_dimensions_kept.
    + destruct K as (_ & _ & _ & Herr). auto.
    + destruct K as (_ & _ & _ & Herr). auto.
  - eexists. split; [reflexivity|].
    intros I K H. now apply survey_dimensions_kept.
Qed.

(** The counters of a survey against the table: the rows are those at the
    start ([base]) plus one per tool discovered, and every tool found was
    either discovered or updated. *)
Lemma tally_kept (base : nat) :
  kept_by_steps
    (fun acc =>
       List.length (ai_tools (db (world acc))) = (base + n_discovered acc)%nat /\
       (n_discovered acc + n_updated acc)%nat = List.length (found acc)).
Proof.
  repeat split; try tauto.
  - destruct H as [Hrows _]. unfold process_item. cbn.
    destruct (upsert_cases (timestamp (world acc)) t (db (world acc)))
      as [(existing & -> & _ & ->) | (-> & ->)].
    + rewrite updateTool_rows, length_map. exact Hrows.
    + cbn. rewrite length_app, Hrows. cbn. lia.
  - destruct H as [_ Hfound]. unfold process_item. cbn.
    rewrite length_app. cbn.
    destruct (snd (upsert _ t _)); lia.
Qed.

Lemma one_row_per_url_kept :
  kept_by_steps (fun acc => one_row_per_url (db (world acc))).
Proof.
  unfold kept_by_steps.
  split; [|split; [|split]]; [|intros acc x H; exact H ..].
  intros acc t [K Hsingle]. unfold process_item. cbn. split.
  - now apply upsert_keyed.
  - now apply upsert_keeps_urls_single.
Qed.

End ShippedFacts.

(** X9. The statistics of a survey match the store: for each shipped
    adapter, [survey()] returns, the table has grown by exactly
    [stats.discovered] rows, [stats.discovered + stats.updated] is the
    number of tools returned, and [stats.errors] is the number of
    messages. *)
Theorem shipped_survey_statistics :
  forall (a : BaseSurveyor) (w : World),
    shipped a ->
    exists r,
      snd (survey a w) = Normal r /\
      List.length (ai_tools (db (fst (survey a w)))) =
        (List.length (ai_tools (db w)) + discovered (stats r))%nat /\
      (discovered (stats r) + updated (stats r))%nat = List.length (tools r) /\
      stats_errors (stats r) = List.length (errors r).
Proof.
  intros a w Hs.
  destruct (shipped_survey_finishes a w Hs) as (acc & -> & Hkept).
  destruct (Hkept _ (tally_kept (List.length (ai_tools (db w)))))
    as [Hrows Hfound]; [cbn; lia|].
  eexists. split; [reflexivity|]. cbn. auto.
Qed.

Lemma shipped_survey_statistics_witness :
  let a := GitHubSurveyor.surveyor Samples.search_nlp_down in
  exists r,
    snd (survey a Samples.world0) = Normal r /\
    List.length (ai_tools (db (fst (survey a Samples.world0)))) =
      (List.length (ai_tools (db Samples.world0)) + discovered (stats r))%nat /\
    (discovered (stats r) + updated (stats r))%nat = List.length (tools r) /\
    stats_errors (stats r) = List.length (errors r).
Proof.
  apply (shipped_survey_statistics
           (GitHubSurveyor.surveyor Samples.search_nlp_down) Samples.world0).
  constructor.
Defined.

(** X10. A whole survey keeps urls unique: if the table has distinct keys
    and at most one row per url before a shipped adapter's [survey()], it
    has so afterwards, also when a page lists a url twice or two
    dimensions list the same one. *)
Theorem shipped_survey_keeps_urls_unique :
  forall (a : BaseSurveyor) (w : World),
    shipped a ->
    one_row_per_url (db w) ->
    one_row_per_url (db (fst (survey a w))).
Proof.
  intros a w Hs H.
  destruct (shipped_survey_finishes a w Hs) as (acc & -> & Hkept).
  exact (Hkept _ one_row_per_url_kept H).
Qed.

Lemma shipped_survey_keeps_urls_unique_witness :
  one_row_per_url
    (db (fst (survey
                (HuggingFaceSurveyor.surveyor Samples.spaces_up Samples.spaces_up)
                Samples.world0))).
Proof.
  apply (shipped_survey_keeps_urls_unique
           (HuggingFaceSurveyor.surveyor Samples.spaces_up Samples.spaces_up)
           Samples.world0).
  - constructor.
  - split; [split; constructor|]. intros u. cbn. lia.
Defined.

(** The same space listed by both fetches of the model hub is inserted
    once and updated once. *)
Example same_url_twice_in_one_survey :
  exists r,
    snd (HuggingFaceSurveyor.survey Samples.spaces_up Samples.spaces_up
           Samples.world0) = Normal r /\
    discovered (stats r) = 1%nat /\ updated (stats r) = 1%nat /\
    List.length (tools r) = 2%nat.
Proof. eexists. vm_compute. repeat split. Qed.

(** X11. No shipped adapter can produce a failed run: [survey()] catches
    every error of its fetches, so [run()] returns normally and the row it
    logs is success or partial, never failed; and [runSurvey] notes
    'success' for every adapter. *)
Theorem shipped_run_never_fails :
  forall (a : BaseSurveyor) (w : World),
    shipped a ->
    snd (run a w) = Normal tt /\
    exists row,
      survey_runs (db (fst (run a w))) = survey_runs (db w) ++ [row] /\
      (sr_status row = success \/ sr_status row = partial) /\
      summary [(sourceName a, a)] w = [(sourceName a, "success")].
Proof.
  intros a w Hs.
  destruct (shipped_survey_finishes a w Hs) as (acc & Hsurvey & Hkept).
  assert (Hlog : survey_runs (db (world acc)) = survey_runs (db w)).
  { apply (Hkept (fun acc => survey_runs (db (world acc)) = survey_runs (db w)));
      [|reflexivity].
    repeat split; try tauto.
    intros acc0 t H. now rewrite (proj1 (process_item_frame acc0 t)). }
  unfold summary, survey_loop, stagger. cbn [Nat.ltb Nat.leb].
  unfold run. rewrite Hsurvey. unfold finish. cbn.
  split; [reflexivity|]. eexists. rewrite Hlog. split; [reflexivity|].
  cbn. split; [|reflexivity].
  destruct (List.length (messages acc)); auto.
Qed.

Lemma shipped_run_never_fails_witness :
  let a := ArXivSurveyor.surveyor (fun _ => Samples.models_down) in
  snd (run a Samples.world0) = Normal tt /\
  exists row,
    survey_runs (db (fst (run a Samples.world0))) =
      survey_runs (db Samples.world0) ++ [row] /\
    (sr_status row = success \/ sr_status row = partial) /\
    summary [(sourceName a, a)] Samples.world0 = [(sourceName a, "success")].
Proof.
  apply (shipped_run_never_fails
           (ArXivSurveyor.surveyor (fun _ => Samples.models_down))
           Samples.world0).
  constructor.
Defined.

(** X12. Without its credential the video adapter does nothing but report
    it: whether [YOUTUBE_API_KEY] is unset or empty, [survey()] leaves the
    world as it is and returns no tool and the one message, whatever the
    network would answer, and [run()] logs the run as partial with zero
    counts and that message. *)
Theorem youtube_without_key :
  forall (apiKey : option string) (searchVideos : string -> string -> Fetcher)
         (w : World),
    apiKey = None \/ apiKey = Some "" ->
    YouTubeSurveyor.survey apiKey searchVideos w =
      (w, Normal {| tools := [];
                    stats := {| discovered := 0; updated := 0;
                                stats_errors := 1 |};
                    errors := ["YouTube API key not configured"] |}) /\
    exists row,
      survey_runs
        (db (fst (run (YouTubeSurveyor.surveyor apiKey searchVideos) w))) =
        survey_runs (db w) ++ [row] /\
      ai_tools (db (fst (run (YouTubeSurveyor.surveyor apiKey searchVideos) w)))
        = ai_tools (db w) /\
      sr_source row = "youtube" /\
      sr_status row = partial /\
      sr_items_discovered row = 0%nat /\
      sr_items_updated row = 0%nat /\
      sr_error_log row = Some "YouTube API key not configured".
Proof.
  intros apiKey searchVideos w [-> | ->]; destruct w as [c s];
    (split; [reflexivity|]); eexists; cbn; repeat split.
Qed.

Lemma youtube_without_key_witness :
  YouTubeSurveyor.survey (Some "") (fun _ _ => Samples.spaces_up)
    Samples.world0 =
    (Samples.world0,
     Normal {| tools := [];
               stats := {| discovered := 0; updated := 0; stats_errors := 1 |};
               errors := ["YouTube API key not configured"] |}).
Proof.
  apply (proj1 (youtube_without_key (Some "") (fun _ _ => Samples.spaces_up)
                  Samples.world0 (or_intror eq_refl))).
Defined.

(** ** More of the orchestrator *)



(** X14. The adapters run in one fixed order, model hub, code host, video
    platform, preprint archive, whatever the order of the configuration;
    an adapter is set up exactly when its source is enabled, and sources
    the configuration names beyond these four are ignored. *)
Theorem initializeSurveyors_fixed_order :
  forall (d : DataSources) (huggingface github youtube arxiv : BaseSurveyor),
    map fst (initializeSurveyors d huggingface github youtube arxiv) =
      filter (fun name => source_enabled name d)
        ["huggingface"; "github"; "youtube"; "arxiv"] /\
    (forall name a,
       In (name, a) (initializeSurveyors d huggingface github youtube arxiv) ->
       source_enabled name d = true /\
       get name (initializeSurveyors d huggingface github youtube arxiv) =
         Some a).
Proof.
  intros d hf gh yt ax. unfold initializeSurveyors.
  destruct (source_enabled "huggingface" d) eqn:E1,
           (source_enabled "github" d) eqn:E2,
           (source_enabled "youtube" d) eqn:E3,
           (source_enabled "arxiv" d) eqn:E4;
    (split; [cbn; rewrite ?E1, ?E2, ?E3, ?E4; reflexivity|]);
    intros name a Hin; cbn in Hin;
    repeat (destruct Hin as [Hin|Hin]; [injection Hin as <- <-; auto|]);
    contradiction.
Qed.

(** X15. The delay [scheduleDaily] arms its timer with, on a day of 24
    hours and for a time of day [hours]:[minutes] within it: the timer
    fires at that time of day, strictly after now and one day later at
    most; a time of day that is exactly now is put off to tomorrow. *)
Theorem scheduleDaily_next_occurrence :
  forall (startOfDay now hours minutes : Z),
    (startOfDay <= now < startOfDay + day_ms)%Z ->
    (0 <= hours < 24)%Z ->
    (0 <= minutes < 60)%Z ->
    let delay := scheduleDaily_delay startOfDay now hours minutes in
    (0 < delay <= day_ms)%Z /\
    ((now + delay - startOfDay) mod day_ms =
       hours * 3600000 + minutes * 60000)%Z /\
    (scheduled_today startOfDay hours minutes = now -> delay = day_ms) /\
    ((now < scheduled_today startOfDay hours minutes)%Z ->
     (now + delay)%Z = scheduled_today startOfDay hours minutes).
Proof.
  intros startOfDay now hours minutes Hnow Hh Hm delay.
  subst delay. unfold scheduleDaily_delay, scheduled_today, day_ms in *.
  destruct (Z.leb_spec (startOfDay + hours * 3600000 + minutes * 60000) now)
    as [Hle|Hlt].
  - repeat split; try lia.
    replace (now + (startOfDay + hours * 3600000 + minutes * 60000 + 86400000
                    - now) - startOfDay)%Z
      with (hours * 3600000 + minutes * 60000 + 1 * 86400000)%Z by lia.
    rewrite Z.mod_add by lia. apply Z.mod_small. lia.
  - repeat split; try lia.
    replace (now + (startOfDay + hours * 3600000 + minutes * 60000 - now)
             - startOfDay)%Z
      with (hours * 3600000 + minutes * 60000)%Z by lia.
    apply Z.mod_small. lia.
Qed.

Lemma scheduleDaily_next_occurrence_witness :
  let delay := scheduleDaily_delay 0 50400000 6 0 in
  (0 < delay <= day_ms)%Z /\
  ((50400000 + delay - 0) mod day_ms = 6 * 3600000 + 0 * 60000)%Z /\
  (scheduled_today 0 6 0 = 50400000%Z -> delay = day_ms) /\
  ((50400000 < scheduled_today 0 6 0)%Z ->
   (50400000 + delay)%Z = scheduled_today 0 6 0).
Proof.
  apply (scheduleDaily_next_occurrence 0 50400000 6 0);
    unfold day_ms; lia.
Defined.

(** ** More of the recommendation engine *)

Section GenerateMore.

Lemma generateRecommendations_frame (now : Timestamp) (projectId : Z)
  (s : Store) :
  ai_tools (fst (generateRecommendations now projectId s)) = ai_tools s /\
  user_projects (fst (generateRecommendations now projectId s)) =
    user_projects s /\
  survey_runs (fst (generateRecommendations now projectId s)) = survey_runs s.
Proof.
  unfold generateRecommendations.
  destruct (find _ (getAllProjects s)) as [project|] eqn:Hfind;
    [|repeat split].
  apply find_some in Hfind as [_ Hid]. apply Z.eqb_eq in Hid. subst projectId.
  destruct (consider_all now project (getAllTools 1000 0 s) s [])
    as (rows & news & _ & _ & Ht & Hp & Hs & _).
  cbn [fst]. auto.
Qed.

Lemma row_for_content (project : ProjectRow) (tools : list ToolRow)
  (rows : list RecommendationRow) :
  Forall2 (row_for project) tools rows ->
  map row_content rows =
  map (fun t => (row_id t, Some (pr_id project),
                 calculateRelevance project t, pending)) tools.
Proof.
  induction 1 as [|t row tools rows (H1 & H2 & H3 & H4) _ IH]; cbn;
    [reflexivity|].
  rewrite IH. unfold row_content. now rewrite H1, H2, H3, H4.
Qed.

Lemma generateRecommendations_rows (now : Timestamp) (projectId : Z)
  (s : Store) (project : ProjectRow) :
  find (fun p => (pr_id p =? projectId)%Z) (getAllProjects s) = Some project ->
  Db.recommendations (fst (generateRecommendations now projectId s)) =
    Db.recommendations s ++
    persisted s (fst (generateRecommendations now projectId s)) /\
  Forall2 (row_for project)
    (filter (qualifies project) (getAllTools 1000 0 s))
    (persisted s (fst (generateRecommendations now projectId s))).
Proof.
  intros Hfind. unfold generateRecommendations. rewrite Hfind.
  apply find_some in Hfind as [_ Hid]. apply Z.eqb_eq in Hid. subst projectId.
  destruct (consider_all now project (getAllTools 1000 0 s) s [])
    as (rows & news & Hr & _ & _ & _ & _ & Hrows & _).
  cbn [fst]. rewrite (persisted_app s _ rows Hr). auto.
Qed.

End GenerateMore.

(** X16. [generateRecommendations] looks at the 1000 most popular tools
    only: it adds at most 1000 rows, and never more rows than the table
    has tools, however many of them would qualify. *)
Theorem generateRecommendations_considers_1000 :
  forall (now : Timestamp) (projectId : Z) (s : Store),
    (List.length (persisted s (fst (generateRecommendations now projectId s)))
     <= 1000)%nat /\
    (List.length (persisted s (fst (generateRecommendations now projectId s)))
     <= List.length (ai_tools s))%nat.
Proof.
  intros now projectId s.
  destruct (find (fun p => (pr_id p =? projectId)%Z) (getAllProjects s))
    as [project|] eqn:F.
  - destruct (generateRecommendations_rows now projectId s project F)
      as [_ Hrows].
    apply Forall2_length in Hrows. rewrite <- Hrows.
    pose proof (filter_length_le (qualifies project) (getAllTools 1000 0 s)).
    assert (List.length (getAllTools 1000 0 s) <= 1000)%nat
      by apply firstn_le_length.
    assert (List.length (getAllTools 1000 0 s) <= List.length (ai_tools s))%nat.
    { unfold getAllTools. cbn [skipn]. rewrite length_firstn, sort_by_length.
      lia. }
    lia.
  - unfold generateRecommendations. rewrite F.
    unfold persisted. cbn. rewrite skipn_all. cbn. lia.
Qed.

(** X17. Generating twice stores everything twice: a second call for the
    same project adds rows with the same tools, project, scores and status
    as the first did, behind them, and nothing is replaced. *)
Theorem generateRecommendations_twice_duplicates :
  forall (now1 now2 : Timestamp) (projectId : Z) (s : Store),
    is_throw (snd (generateRecommendations now1 projectId s)) = false ->
    let s1 := fst (generateRecommendations now1 projectId s) in
    let s2 := fst (generateRecommendations now2 projectId s1) in
    is_throw (snd (generateRecommendations now2 projectId s1)) = false /\
    map row_content (persisted s1 s2) = map row_content (persisted s s1) /\
    Db.recommendations s2 =
      Db.recommendations s ++ persisted s s1 ++ persisted s1 s2.
Proof.
  intros now1 now2 projectId s E s1 s2.
  destruct (generateRecommendations_frame now1 projectId s) as (Ht & Hp & _).
  fold s1 in Ht, Hp.
  destruct (find (fun p => (pr_id p =? projectId)%Z) (getAllProjects s))
    as [project|] eqn:F1.
  - assert (F2 : find (fun p => (pr_id p =? projectId)%Z) (getAllProjects s1)
                 = Some project)
      by (unfold getAllProjects; rewrite Hp; exact F1).
    destruct (generateRecommendations_rows now1 projectId s project F1)
      as [Hr1 Hrows1].
    destruct (generateRecommendations_rows now2 projectId s1 project F2)
      as [Hr2 Hrows2].
    fold s1 in Hr1, Hrows1. fold s2 in Hr2, Hrows2.
    assert (Htools : getAllTools 1000 0 s1 = getAllTools 1000 0 s)
      by (unfold getAllTools; now rewrite Ht).
    rewrite Htools in Hrows2.
    split; [|split].
    + unfold generateRecommendations. now rewrite F2.
    + now rewrite (row_for_content _ _ _ Hrows1),
        (row_for_content _ _ _ Hrows2).
    + now rewrite Hr2, Hr1, <- app_assoc.
  - unfold generateRecommendations in E. now rewrite F1 in E.
Qed.

Lemma generateRecommendations_twice_duplicates_witness :
  let s1 := fst (generateRecommendations 300 1 Samples.catalog) in
  let s2 := fst (generateRecommendations 400 1 s1) in
  is_throw (snd (generateRecommendations 400 1 s1)) = false /\
  map row_content (persisted s1 s2) =
    map row_content (persisted Samples.catalog s1) /\
  Db.recommendations s2 =
    Db.recommendations Samples.catalog ++
    persisted Samples.catalog s1 ++ persisted s1 s2.
Proof.
  apply (generateRecommendations_twice_duplicates 300 400 1 Samples.catalog).
  vm_compute. reflexivity.
Defined.

(** X18. For an id no stored project has, [generateRecommendations] throws
    "Project <id> not found" and leaves the store as it was. *)
Theorem generateRecommendations_missing_project :
  forall (now : Timestamp) (projectId : Z) (s : Store),
    (forall project, In project (user_projects s) ->
                     pr_id project <> projectId) ->
    generateRecommendations now projectId s =
    (s, Throw ("Project " ++ string_of_Z projectId ++ " not found")%string).
Proof.
  intros now projectId s Hnone. unfold generateRecommendations.
  destruct (find (fun p => (pr_id p =? projectId)%Z) (getAllProjects s))
    as [project|] eqn:Hfind; [|reflexivity].
  apply find_some in Hfind as [Hin Hid].
  apply (sort_by_In _ project (user_projects s)) in Hin.
  apply Z.eqb_eq in Hid. now elim (Hnone project).
Qed.

Lemma generateRecommendations_missing_project_witness :
  generateRecommendations 300 7 Samples.catalog =
  (Samples.catalog, Throw "Project 7 not found").
Proof.
  apply (generateRecommendations_missing_project 300 7 Samples.catalog).
  intros project Hin. cbn in Hin. destruct Hin as [<-|[]]. cbn. lia.
Defined.

(** ** Keyword classification *)

Lemma find_split {A} (f : A -> bool) (l : list A) (x : A) :
  find f l = Some x ->
  exists before after,
    l = before ++ x :: after /\ f x = true /\
    Forall (fun y => f y = false) before.
Proof.
  induction l as [|a l IH]; cbn; [discriminate|].
  destruct (f a) eqn:Ha.
  - intros [= ->]. exists [], l. repeat split; [assumption|constructor].
  - intros H. destruct (IH H) as (before & after & -> & Hx & Hb).
    exists (a :: before), after. repeat split; [assumption|now constructor].
Qed.

Lemma find_first {A} (f : A -> bool) (before after : list A) (x : A) :
  Forall (fun y => f y = false) before -> f x = true ->
  find f (before ++ x :: after) = Some x.
Proof.
  intros Hb Hx. induction Hb as [|a before Ha _ IH]; cbn.
  - now rewrite Hx.
  - now rewrite Ha.
Qed.

Lemma find_none_all {A} (f : A -> bool) (l : list A) :
  find f l = None <-> Forall (fun y => f y = false) l.
Proof.
  split.
  - intros H. apply Forall_forall. intros y Hy. now apply (find_none f l H).
  - intros H. induction H as [|a l Ha _ IH]; cbn; [reflexivity|].
    now rewrite Ha.
Qed.

Lemma split_by_key {A B} (l1 l2 l1' l2' : list (A * B)) (x x' : A * B) :
  NoDup (map fst (l1 ++ x :: l2)) ->
  l1 ++ x :: l2 = l1' ++ x' :: l2' -> fst x = fst x' ->
  l1 = l1' /\ x = x'.
Proof.
  revert l1'. induction l1 as [|a l1 IH]; intros l1' Hnd Heq Hk.
  - destruct l1' as [|a' l1']; cbn in Heq.
    + now inversion Heq.
    + inversion Heq; subst. cbn in Hnd. inversion Hnd as [|? ? Hnot _]; subst.
      elim Hnot. rewrite Hk, map_app. apply in_or_app. right. now left.
  - destruct l1' as [|a' l1']; cbn in Heq.
    + inversion Heq; subst. cbn in Hnd. inversion Hnd as [|? ? Hnot _]; subst.
      elim Hnot. rewrite <- Hk, map_app. apply in_or_app. right. now left.
    + inversion Heq; subst. cbn in Hnd. inversion Hnd; subst.
      destruct (IH l1') as [-> ->]; auto.
Qed.

Lemma categories_distinct :
  NoDup (map fst categories) /\ ~ In "General AI" (map fst categories).
Proof.
  split.
  - repeat constructor; cbn; intuition discriminate.
  - cbn. intuition discriminate.
Qed.

(** X19. [categorizeByKeywords] answers with the first category of its
    table, in the order the table is written, one of whose keywords occurs
    in the lower-cased text: for an entry of the table, the answer is its
    category exactly when one of its keywords occurs and none of the
    entries before it has a keyword that occurs. *)
Theorem categorizeByKeywords_first_match (text category : string)
  (keywords : list string) (before after : list (string * list string)) :
  categories = before ++ (category, keywords) :: after ->
  categorizeByKeywords text = category <->
  mentions (toLowerCase text) keywords = true /\
  silent (toLowerCase text) before.
Proof.
  intros Hsplit. unfold categorizeByKeywords, silent. cbv zeta.
  destruct categories_distinct as [Hnd Hgeneral].
  split.
  - destruct (find _ categories) as [entry|] eqn:Hfind.
    + intros Hcat. apply find_split in Hfind
        as (before' & after' & Heq & Hentry & Hbefore).
      rewrite Heq in Hnd. rewrite Heq in Hsplit.
      destruct (split_by_key before' after' before after entry
                  (category, keywords) Hnd Hsplit Hcat) as [-> ->].
      split; assumption.
    + intros <-. elim Hgeneral. rewrite Hsplit, map_app.
      apply in_or_app. right. now left.
  - intros [Hk Hb]. rewrite Hsplit.
    now rewrite (find_first (fun entry => mentions (toLowerCase text) (snd entry))
                   before after (category, keywords) Hb Hk).
Qed.

Lemma categorizeByKeywords_first_match_witness :
  categorizeByKeywords "A Robot that reads TEXT aloud" = "NLP" <->
  mentions (toLowerCase "A Robot that reads TEXT aloud")
    ["nlp"; "natural language"; "text"; "translation"; "sentiment"] = true /\
  silent (toLowerCase "A Robot that reads TEXT aloud") (firstn 2 categories).
Proof.
  apply (categorizeByKeywords_first_match _ "NLP" _ (firstn 2 categories)
           (skipn 3 categories)).
  reflexivity.
Defined.

Example keywords_match_inside_words :
  categorizeByKeywords "A Robot that reads TEXT aloud" = "NLP" /\
  categorizeByKeywords "Cloud storage manager" = "Agent" /\
  categorizeByKeywords "A spreadsheet" = "General AI".
Proof. repeat split. Qed.

(** X20. [categorizeByKeywords] answers "General AI" exactly when no
    keyword of the table occurs in the lower-cased text; any other answer
    is a category of the table; and the answer does not depend on the case
    of the letters of the text. *)
Theorem categorizeByKeywords_general (text : string) :
  (categorizeByKeywords text = "General AI" <->
   silent (toLowerCase text) categories) /\
  (categorizeByKeywords text <> "General AI" ->
   In (categorizeByKeywords text) (map fst categories)) /\
  categorizeByKeywords (toLowerCase text) = categorizeByKeywords text.
Proof.
  destruct categories_distinct as [_ Hgeneral].
  unfold categorizeByKeywords, silent. cbv zeta. split; [|split].
  - rewrite <- find_none_all.
    destruct (find _ categories) as [entry|] eqn:Hfind; [|tauto].
    split; [|discriminate]. intros Heq.
    apply find_some in Hfind as [Hin _]. elim Hgeneral. rewrite <- Heq.
    now apply in_map.
  - destruct (find _ categories) as [entry|] eqn:Hfind; [|congruence].
    intros _. apply find_some in Hfind as [Hin _]. now apply in_map.
  - assert (Hidem : forall t, toLowerCase (toLowerCase t) = toLowerCase t).
    { induction t as [|c t IH]; cbn; [reflexivity|]. rewrite IH. f_equal.
      unfold lower_ascii.
      destruct ((65 <=? nat_of_ascii c)%nat && (nat_of_ascii c <=? 90)%nat)
        eqn:Hc; [|now rewrite Hc].
      apply andb_prop in Hc as [H1 H2].
      apply Nat.leb_le in H1. apply Nat.leb_le in H2.
      rewrite nat_ascii_embedding by lia.
      replace ((nat_of_ascii c + 32 <=? 90)%nat) with false
        by (symmetry; apply Nat.leb_gt; lia).
      now rewrite andb_false_r. }
    now rewrite Hidem.
Qed.

(** ** Insertion-ordered sets *)

Section SetFacts.

Lemma existsb_eqb_In (x : string) (l : list string) :
  existsb (String.eqb x) l = true <-> In x l.
Proof.
  rewrite existsb_exists. split.
  - intros (y & Hin & Heq). apply String.eqb_eq in Heq. now subst.
  - intros Hin. exists x. split; [assumption|apply String.eqb_refl].
Qed.

Lemma In_add (x y : string) (l : list string) :
  In y (add x l) <-> y = x \/ In y l.
Proof.
  unfold add. destruct (existsb (String.eqb x) l) eqn:E.
  - apply existsb_eqb_In in E. split; [auto|]. intros [-> | H]; assumption.
  - rewrite in_app_iff. cbn. intuition.
Qed.

Lemma In_add_if (b : bool) (x y : string) (l : list string) :
  In y (add_if b x l) <-> (b = true /\ y = x) \/ In y l.
Proof.
  unfold add_if. destruct b; [rewrite In_add|]; intuition discriminate.
Qed.

Lemma NoDup_add (x : string) (l : list string) : NoDup l -> NoDup (add x l).
Proof.
  intros H. unfold add. destruct (existsb (String.eqb x) l) eqn:E; [assumption|].
  apply NoDup_app; [assumption|repeat constructor; intros []|].
  intros y Hy [<- | []]. apply existsb_eqb_In in Hy. congruence.
Qed.

Lemma NoDup_add_if (b : bool) (x : string) (l : list string) :
  NoDup l -> NoDup (add_if b x l).
Proof. destruct b; [apply NoDup_add|auto]. Qed.

Lemma add_not_nil (x : string) (l : list string) : add x l <> [].
Proof.
  unfold add. destruct (existsb (String.eqb x) l) eqn:E.
  - destruct l; [discriminate|discriminate].
  - destruct l; discriminate.
Qed.

End SetFacts.

Lemma hd_add (x h : string) (l : list string) :
  hd_error l = Some h -> hd_error (add x l) = Some h.
Proof.
  unfold add. destruct (existsb (String.eqb x) l); [auto|].
  destruct l; [discriminate|auto].
Qed.

Lemma hd_add_if (b : bool) (x h : string) (l : list string) :
  hd_error l = Some h -> hd_error (add_if b x l) = Some h.
Proof. destruct b; [apply hd_add|auto]. Qed.

Ltac members H :=
  repeat (first [rewrite In_add_if in H | rewrite In_add in H]).

Lemma incl_add (x : string) (l known : list string) :
  In x known -> incl l known -> incl (add x l) known.
Proof.
  intros Hx Hl y Hy. apply In_add in Hy as [-> | Hy]; [assumption|auto].
Qed.

Lemma incl_add_if (b : bool) (x : string) (l known : list string) :
  In x known -> incl l known -> incl (add_if b x l) known.
Proof. destruct b; [apply incl_add|auto]. Qed.

Lemma add_length (x : string) (l : list string) :
  (List.length (add x l) <= List.length l + 1)%nat.
Proof.
  unfold add. destruct (existsb (String.eqb x) l); [lia|].
  rewrite length_app. cbn. lia.
Qed.

(** ** Capabilities named in a text *)

Section CapabilityFacts.

Lemma prefix_lower (alt s : string) :
  String.prefix alt (toLowerCase s) = true ->
  toLowerCase (String.substring 0 (String.length alt) s) = alt.
Proof.
  revert s. induction alt as [|a alt IH]; intros s H.
  - destruct s; reflexivity.
  - destruct s as [|c s]; cbn in H; [discriminate|].
    destruct (Ascii.ascii_dec a (lower_ascii c)) as [->|]; [|discriminate].
    cbn. now rewrite (IH s H).
Qed.

Lemma search_alternative (alts : list string) (s : string) :
  forall prev capability,
    search prev s alts = Some capability -> In capability alts.
Proof.
  induction s as [|c s IH]; intros prev capability; cbn [search];
    destruct (find (matches_here prev _) alts) as [alt|] eqn:Hfind;
    try discriminate; try (now apply IH).
  all: intros H; apply find_some in Hfind as [Hin Hm];
    unfold matches_here in Hm;
    apply andb_prop in Hm as [Hm _]; apply andb_prop in Hm as [_ Hm];
    rewrite (prefix_lower _ _ Hm) in H; now injection H as <-.
Qed.

Let step (text : string) (capabilities : list string) (alts : list string) :=
  match search None text alts with
  | Some capability => add capability capabilities
  | None => capabilities
  end.

Lemma steps_members (text : string) (patterns : list (list string)) :
  forall capabilities c,
    In c (fold_left (step text) patterns capabilities) <->
    In c capabilities \/
    exists alts, In alts patterns /\ search None text alts = Some c.
Proof.
  induction patterns as [|alts patterns IH]; intros capabilities c;
    cbn [fold_left In].
  - split; [auto|]. intros [H|(alts & [] & _)]. exact H.
  - rewrite IH. unfold step.
    destruct (search None text alts) as [capability|] eqn:Hs.
    + rewrite In_add. split.
      * intros [[-> | H] | (alts' & Hin & Hs')]; eauto 6.
      * intros [H | (alts' & [<- | Hin] & Hs')]; eauto 6.
        left. left. congruence.
    + split.
      * intros [H | (alts' & Hin & Hs')]; eauto 6.
      * intros [H | (alts' & [<- | Hin] & Hs')]; eauto 6. congruence.
Qed.

Lemma steps_NoDup (text : string) (patterns : list (list string)) :
  forall capabilities,
    NoDup capabilities -> NoDup (fold_left (step text) patterns capabilities).
Proof.
  induction patterns as [|alts patterns IH]; intros capabilities H;
    cbn [fold_left]; [exact H|].
  apply IH. unfold step. destruct (search None text alts); [|exact H].
  now apply NoDup_add.
Qed.

Lemma steps_length (text : string) (patterns : list (list string)) :
  forall capabilities,
    (List.length (fold_left (step text) patterns capabilities) <=
     List.length capabilities + List.length patterns)%nat.
Proof.
  induction patterns as [|alts patterns IH]; intros capabilities;
    cbn [fold_left List.length]; [lia|].
  specialize (IH (step text capabilities alts)).
  assert (List.length (step text capabilities alts) <=
          List.length capabilities + 1)%nat.
  { unfold step. destruct (search None text alts); [apply add_length|lia]. }
  lia.
Qed.

Lemma same_group (patterns : list (list string)) :
  NoDup (List.concat patterns) ->
  forall group group' c,
    In group patterns -> In group' patterns -> In c group -> In c group' ->
    group = group'.
Proof.
  induction patterns as [|g patterns IH]; cbn; intros Hnd group group' c;
    [intros []|].
  apply NoDup_app_remove_l in Hnd as Hrest.
  assert (Hsep : forall x, In x g -> ~ In x (List.concat patterns)).
  { clear -Hnd. induction g as [|y g IHg]; cbn in *; [intros ? []|].
    inversion Hnd as [|? ? Hnot Hnd']; subst.
    intros x [<- | Hx]; [|now apply IHg].
    intros Hin. apply Hnot. apply in_or_app. now right. }
  intros [<- | Hg] [<- | Hg'] Hc Hc'.
  - reflexivity.
  - elim (Hsep c Hc). apply in_concat. eauto.
  - elim (Hsep c Hc'). apply in_concat. eauto.
  - now apply (IH Hrest group group' c).
Qed.

End CapabilityFacts.

(** X21. [extractCapabilities] returns alternatives of its ten patterns
    only, in lower case and without repetition, at most ten of them, and at
    most one alternative of each pattern: of "detection" and "recognition"
    only the one that comes first in the text is reported. *)
Theorem extractCapabilities_one_per_pattern (text : string) :
  let capabilities := extractCapabilities text in
  NoDup capabilities /\
  incl capabilities (List.concat capabilityPatterns) /\
  (List.length capabilities <= 10)%nat /\
  (forall alts a b,
      In alts capabilityPatterns -> In a alts -> In b alts ->
      In a capabilities -> In b capabilities -> a = b).
Proof.
  cbv zeta. unfold extractCapabilities.
  assert (Hdistinct : NoDup (List.concat capabilityPatterns)).
  { cbn. repeat constructor; cbn; intuition discriminate. }
  split; [apply steps_NoDup; constructor|]. split; [|split].
  - intros c Hc. apply steps_members in Hc as [[] | (alts & Hin & Hs)].
    apply in_concat. exists alts. split; [assumption|].
    now apply search_alternative in Hs.
  - apply (steps_length text capabilityPatterns []).
  - intros alts a b Halts Ha Hb Hina Hinb.
    apply steps_members in Hina as [[] | (ga & Hga & Hsa)].
    apply steps_members in Hinb as [[] | (gb & Hgb & Hsb)].
    pose proof (search_alternative _ _ _ _ Hsa) as Ha'.
    pose proof (search_alternative _ _ _ _ Hsb) as Hb'.
    rewrite (same_group _ Hdistinct ga alts a Hga Halts Ha' Ha) in Hsa.
    rewrite (same_group _ Hdistinct gb alts b Hgb Halts Hb' Hb) in Hsb.
    congruence.
Qed.

Example capabilities_are_whole_words :
  extractCapabilities "Image Generation and QA; aqua-detection, retraining"
  = ["generation"; "image generation"; "detection"; "qa"].
Proof. reflexivity. Qed.

(** ** The tools of a category *)

(** X22. [getToolsByCategory] lists exactly the rows whose category is the
    one asked for, each as often as the table holds it and without a limit;
    a row without category is in no listing; and no row of the listing comes
    right before one with a higher popularity score. *)
Theorem getToolsByCategory_complete (category : string) (s : Store) :
  (forall r, In r (getToolsByCategory category s) <->
             In r (ai_tools s) /\ row_category r = Some category) /\
  Permutation (getToolsByCategory category s)
    (filter (has_category category) (ai_tools s)) /\
  Sorted (fun a b =>
            real_desc_follows (row_popularity_score a) (row_popularity_score b)
            = false)
    (getToolsByCategory category s).
Proof.
  unfold getToolsByCategory. split; [|split].
  - intros r. rewrite sort_by_In, filter_In. unfold has_category.
    split; intros [Hin Hc]; (split; [exact Hin|]).
    + destruct (row_category r) as [c|]; [|discriminate].
      apply String.eqb_eq in Hc. now subst.
    + rewrite Hc. apply String.eqb_refl.
  - apply sort_by_perm.
  - apply sort_by_sorted. intros x y H.
    now destruct (real_desc_follows_asym _ _ H) as (H' & _).
Qed.

(** ** The user profile *)

Section ProfileFacts.

Context {J : Type} (stringify : J -> string) (parse : string -> option J).

Lemma find_filter_other (key key' : string) (rows : list ProfileRow) :
  key' <> key ->
  find (has_key key') (filter (fun r => negb (has_key key r)) rows) =
  find (has_key key') rows.
Proof.
  intros Hne. induction rows as [|r rows IH]; cbn; [reflexivity|].
  destruct (has_key key r) eqn:E; cbn.
  - destruct (has_key key' r) eqn:E'; [|exact IH].
    unfold has_key in E, E'. apply String.eqb_eq in E, E'. congruence.
  - destruct (has_key key' r); [reflexivity|exact IH].
Qed.

Lemma find_filter_same (key : string) (rows : list ProfileRow) :
  find (has_key key) (filter (fun r => negb (has_key key r)) rows) = None.
Proof.
  induction rows as [|r rows IH]; cbn; [reflexivity|].
  destruct (has_key key r) eqn:E; cbn; [exact IH|]. now rewrite E.
Qed.

(** X23. Reading a key back after [setUserProfile]: the stored text is
    parsed as JSON, so a value that is not a string comes back as it was
    given (when parsing undoes serializing), and a string comes back parsed
    if it happens to be JSON text and wrapped as [{ value }] otherwise; the
    lookups of the other keys are not affected. *)
Theorem setUserProfile_then_getUserProfile (now : Timestamp)
  (key category : string) (value : Value) (t : Table) :
  truthy_string key = true ->
  let t' := setUserProfile stringify now key value category t in
  getUserProfile parse (Some key) t' =
    match parse (stored stringify value) with
    | Some j => Parsed j
    | None => Wrapped (stored stringify value)
    end /\
  (forall j, (forall j', parse (stringify j') = Some j') ->
             value = Json j -> getUserProfile parse (Some key) t' = Parsed j) /\
  (forall key', key' <> key -> truthy_string key' = true ->
     getUserProfile parse (Some key') t' = getUserProfile parse (Some key') t).
Proof.
  intros Hkey. cbv zeta.
  assert (Hget : getUserProfile parse (Some key)
                   (setUserProfile stringify now key value category t) =
                 match parse (stored stringify value) with
                 | Some j => Parsed j
                 | None => Wrapped (stored stringify value)
                 end).
  { unfold getUserProfile, setUserProfile. rewrite Hkey. cbn.
    rewrite (find_app_none _ _ _ (find_filter_same key (user_profile t))).
    cbn. unfold has_key. cbn. now rewrite String.eqb_refl. }
  split; [exact Hget|]. split.
  - intros j Hround ->. rewrite Hget. cbn. now rewrite Hround.
  - intros key' Hne Hkey'. unfold getUserProfile, setUserProfile.
    rewrite Hkey'. cbn.
    destruct (find (has_key key') (user_profile t)) as [row|] eqn:Hfind.
    + rewrite <- (find_filter_other key key' _ Hne) in Hfind.
      now rewrite (find_app_some _ _ _ _ Hfind).
    + rewrite <- (find_filter_other key key' _ Hne) in Hfind.
      rewrite (find_app_none _ _ _ Hfind). cbn. unfold has_key. cbn.
      destruct (String.eqb_spec key key'); [congruence|reflexivity].
Qed.

Lemma filter_filter_same (key : string) (rows : list ProfileRow) :
  filter (has_key key) (filter (fun r => negb (has_key key r)) rows) = [].
Proof.
  induction rows as [|r rows IH]; cbn; [reflexivity|].
  destruct (has_key key r) eqn:E; cbn; [exact IH|]. now rewrite E.
Qed.

Lemma keys_of_filter (key : string) (rows : list ProfileRow) :
  NoDup (map up_key rows) ->
  NoDup (map up_key (filter (fun r => negb (has_key key r)) rows)) /\
  ~ In key (map up_key (filter (fun r => negb (has_key key r)) rows)).
Proof.
  induction rows as [|r rows IH]; cbn; intros Hnd.
  - split; [constructor|intros []].
  - inversion Hnd as [|? ? Hnot Hrest]; subst. destruct (IH Hrest) as [IH1 IH2].
    destruct (has_key key r) eqn:E; cbn; [now split|]. split.
    + constructor; [|assumption]. intros Hin. apply Hnot.
      apply in_map_iff in Hin as (r' & Hk & Hin).
      apply filter_In in Hin as [Hin _]. rewrite <- Hk. now apply in_map.
    + intros [Hk | Hin]; [|contradiction].
      unfold has_key in E. apply String.eqb_neq in E. contradiction.
Qed.

(** X24. [setUserProfile] replaces: in a table with distinct keys the keys
    stay distinct, the key is held by exactly one row afterwards, which has
    a new rowid, the value and the time of this call, the rows of the other
    keys are kept, and the table grows by one row at most. *)
Theorem setUserProfile_replaces (now : Timestamp) (key category : string)
  (value : Value) (t : Table) :
  keys_unique t ->
  let t' := setUserProfile stringify now key value category t in
  keys_unique t' /\
  (exists row,
      filter (has_key key) (user_profile t') = [row] /\
      up_id row = (user_profile_seq t + 1)%Z /\
      up_value row = stored stringify value /\
      up_last_updated row = now) /\
  (forall row, In row (user_profile t) -> up_key row <> key ->
               In row (user_profile t')) /\
  (List.length (user_profile t') <= List.length (user_profile t) + 1)%nat.
Proof.
  intros Hnd. cbv zeta. unfold keys_unique, setUserProfile. cbn.
  destruct (keys_of_filter key (user_profile t) Hnd) as [Hnd' Hnot].
  split; [|split; [|split]].
  - rewrite map_app. cbn. apply NoDup_app; [assumption|repeat constructor; intros []|].
    intros k Hk [<- | []]. contradiction.
  - eexists. split.
    + rewrite filter_app. cbn. unfold has_key at 2. cbn. rewrite String.eqb_refl.
      now rewrite filter_filter_same.
    + cbn. auto.
  - intros row Hin Hk. apply in_or_app. left. apply filter_In. split; [assumption|].
    unfold has_key. apply negb_true_iff. now apply String.eqb_neq.
  - rewrite length_app. cbn. pose proof (filter_length_le (fun r => negb (has_key key r)) (user_profile t)). lia.
Qed.

End ProfileFacts.

Lemma setUserProfile_then_getUserProfile_witness :
  let t' :=
    setUserProfile MoreSamples.stringify_bool 10 "beta" (Json true)
      "preferences" MoreSamples.no_profile in
  getUserProfile MoreSamples.parse_bool (Some "beta") t' = Parsed true /\
  (forall j, (forall j', MoreSamples.parse_bool (MoreSamples.stringify_bool j')
                         = Some j') ->
             Json true = Json j ->
             getUserProfile MoreSamples.parse_bool (Some "beta") t' = Parsed j) /\
  (forall key', key' <> "beta" -> truthy_string key' = true ->
     getUserProfile MoreSamples.parse_bool (Some key') t' =
     getUserProfile MoreSamples.parse_bool (Some key') MoreSamples.no_profile).
Proof.
  apply (setUserProfile_then_getUserProfile MoreSamples.stringify_bool
           MoreSamples.parse_bool 10 "beta" "preferences" (Json true)
           MoreSamples.no_profile).
  reflexivity.
Defined.

Example strings_come_back_parsed :
  getUserProfile MoreSamples.parse_bool (Some "learning_style")
    (setUserProfile MoreSamples.stringify_bool 10 "learning_style"
       (Str "true") "preferences" MoreSamples.no_profile) = Parsed true /\
  getUserProfile MoreSamples.parse_bool (Some "learning_style")
    (setUserProfile MoreSamples.stringify_bool 10 "learning_style"
       (Str "visual") "preferences" MoreSamples.no_profile) = Wrapped "visual".
Proof. split; reflexivity. Qed.

Lemma setUserProfile_replaces_witness :
  let t := setUserProfile MoreSamples.stringify_bool 10 "beta" (Json true)
             "preferences" MoreSamples.no_profile in
  let t' := setUserProfile MoreSamples.stringify_bool 20 "beta" (Json false)
              "preferences" t in
  keys_unique t' /\
  (exists row,
      filter (has_key "beta") (user_profile t') = [row] /\
      up_id row = (user_profile_seq t + 1)%Z /\
      up_value row = stored MoreSamples.stringify_bool (Json false) /\
      up_last_updated row = 20%Z) /\
  (forall row, In row (user_profile t) -> up_key row <> "beta" ->
               In row (user_profile t')) /\
  (List.length (user_profile t') <= List.length (user_profile t) + 1)%nat.
Proof.
  apply (setUserProfile_replaces MoreSamples.stringify_bool 20 "beta"
           "preferences" (Json false)).
  unfold keys_unique. cbn. repeat constructor. intros [].
Defined.

(** ** Project analysis *)

Lemma walkDirectory_not_dir depth dir node :
  (forall entries, node <> Dir entries) -> walkDirectory depth dir node = [].
Proof.
  intros H. destruct depth; [reflexivity|]. destruct node; try reflexivity.
  now elim (H entries).
Qed.

(** X25. [walkDirectory] returns exactly the files that lie at most
    [maxDepth] entry names below the directory and whose path from it has no
    name that begins with a dot or is [node_modules] or [vendor]; what
    cannot be read or is neither file nor directory is left out without an
    error. *)
Theorem walkDirectory_files depth : forall dir node p c,
  In (p, c) (walkDirectory depth dir node) <->
  exists segs, file_at node segs c /\ p = below dir segs /\
               (List.length segs <= depth)%nat /\ visible segs.
Proof.
  induction depth as [|depth IH]; intros dir node p c.
  - split; [intros []|]. intros (segs & Hat & _ & Hlen & _).
    inversion Hat; subst; simpl in Hlen; lia.
  - split.
    + intros Hin. destruct node; try now destruct Hin.
      simpl in Hin. apply in_flat_map in Hin as ([name child] & Hentry & Hin).
      simpl in Hin. destruct (skipped name) eqn:Hskip; [destruct Hin|].
      destruct child as [content|sub| | |].
      * destruct Hin as [Heq|[]]. inversion Heq; subst.
        exists [name]. split; [now apply file_here|].
        split; [reflexivity|]. split; [simpl; lia|]. now repeat constructor.
      * apply IH in Hin as (segs & Hat & -> & Hlen & Hvis).
        exists (name :: segs). split; [now apply file_below with sub|].
        split; [reflexivity|]. split; [simpl; lia|]. now constructor.
      * rewrite walkDirectory_not_dir in Hin by discriminate. destruct Hin.
      * destruct Hin.
      * destruct Hin.
    + intros (segs & Hat & -> & Hlen & Hvis).
      inversion Hat as [entries name c' Hentry|entries name sub segs' c' Hentry Hsub];
        subst; simpl; apply in_flat_map.
      * exists (name, File c). split; [assumption|]. simpl.
        inversion Hvis as [|? ? Hs _]; subst. rewrite Hs. now left.
      * exists (name, Dir sub). split; [assumption|]. simpl.
        inversion Hvis as [|? ? Hs Hrest]; subst. rewrite Hs.
        apply IH. exists segs'. split; [assumption|]. split; [reflexivity|].
        split; [simpl in Hlen; lia|assumption].
Qed.

Example walkDirectory_of_a_project :
  paths (walkDirectory 3 "/home/me/shop" MoreSamples.shop_tree) =
    [ "/home/me/shop/package.json"; "/home/me/shop/README.md";
      "/home/me/shop/src/index.ts" ] /\
  walkDirectory 3 "/home/me/shop" (File (Some "text")) = [] /\
  walkDirectory 3 "/home/me/shop" Broken = [].
Proof. repeat split. Qed.

(** X26. [detectTechStack] returns labels of its fixed vocabulary, each
    once, whatever the directory holds; and a framework label (React, Vue,
    Angular, Express, Next.js) is only returned after
    "JavaScript/TypeScript", which then comes first. *)
Theorem detectTechStack_labels has_dependency projectPath root :
  let stack := detectTechStack has_dependency projectPath root in
  NoDup stack /\ incl stack labels /\
  (forall framework,
      In framework ["React"; "Vue"; "Angular"; "Express"; "Next.js"] ->
      In framework stack -> hd_error stack = Some "JavaScript/TypeScript").
Proof.
  cbv zeta. unfold detectTechStack.
  set (files := walkDirectory 3 projectPath root).
  destruct (find (fun f => endsWith (fst f) "package.json") files)
    as [[file [content|]]|]; cbn [snd];
    (split; [|split];
     [ repeat first [apply NoDup_add_if | apply NoDup_add]; constructor
     | repeat first [apply incl_add_if | apply incl_add];
       try (intros y []); unfold labels; cbn; auto 20
     | ]);
    try (intros framework _ _; repeat apply hd_add_if; reflexivity).
  intros framework Hf Hin. members Hin. cbn in Hf, Hin.
  intuition (subst; discriminate).
Qed.

Section Defaults.

Let specific (needs : list string) : Prop :=
  NoDup needs /\ ~ In "automation" needs /\
  ~ In "general AI capabilities" needs.

Lemma specific_add (x : string) (needs : list string) :
  x <> "automation" -> x <> "general AI capabilities" ->
  specific needs -> specific (add x needs).
Proof.
  intros H1 H2 (Hnd & Ha & Hg). split; [now apply NoDup_add|].
  split; intros H; apply In_add in H as [H|H]; auto.
Qed.

Lemma specific_add_if (b : bool) (x : string) (needs : list string) :
  x <> "automation" -> x <> "general AI capabilities" ->
  specific needs -> specific (add_if b x needs).
Proof. destruct b; [apply specific_add|auto]. Qed.

Lemma specific_if (b : bool) (needs needs' : list string) :
  specific needs -> specific needs' -> specific (if b then needs else needs').
Proof. now destruct b. Qed.

Lemma readme_needs_specific (content : string) (needs : list string) :
  specific needs -> specific (readme_needs content needs).
Proof.
  intros H. unfold readme_needs. cbv zeta.
  repeat lazymatch goal with
         | |- specific (add_if _ _ _) =>
             apply specific_add_if; [discriminate|discriminate|]
         | |- specific (add _ _) =>
             apply specific_add; [discriminate|discriminate|]
         | |- specific (if _ then _ else _) => apply specific_if
         end.
  all: exact H.
Qed.

Lemma inferAINeeds_cases techStack projectPath root :
  let needs := inferAINeeds techStack projectPath root in
  needs = default_needs \/ (needs <> [] /\ specific needs).
Proof.
  cbv zeta. unfold inferAINeeds.
  set (found := match find is_readme (walkDirectory 2 projectPath root) with
                | Some (_, Some content) => readme_needs (toLowerCase content) []
                | _ => []
                end).
  assert (Hfound : specific found).
  { unfold found.
    destruct (find is_readme (walkDirectory 2 projectPath root))
      as [[file [content|]]|];
      try (apply readme_needs_specific);
      (split; [constructor|split; intros []]). }
  set (needs := add_if _ "ML framework integration" (add_if _ _ found)).
  assert (Hneeds : specific needs).
  { unfold needs. repeat (apply specific_add_if; [discriminate|discriminate|]).
    exact Hfound. }
  clearbody needs. destruct needs as [|n needs]; [left; reflexivity|].
  right. split; [discriminate|assumption].
Qed.

End Defaults.

(** X27. [inferAINeeds] never returns an empty list and never repeats a
    need; the two default needs are only returned together and alone, when
    neither the README nor the tech stack gave a need. *)
Theorem inferAINeeds_never_empty techStack projectPath root :
  let needs := inferAINeeds techStack projectPath root in
  needs <> [] /\ NoDup needs /\
  (In "automation" needs \/ In "general AI capabilities" needs ->
   needs = default_needs).
Proof.
  cbv zeta.
  destruct (inferAINeeds_cases techStack projectPath root)
    as [-> | (Hne & Hnd & Ha & Hg)].
  - split; [discriminate|]. split; [|reflexivity].
    unfold default_needs. repeat constructor; cbn; intuition discriminate.
  - split; [assumption|]. split; [assumption|]. intros [H|H]; contradiction.
Qed.

Lemma find_unique {A} (f : A -> bool) (l : list A) (x : A) :
  In x l -> f x = true -> (forall y, In y l -> f y = true -> y = x) ->
  find f l = Some x.
Proof.
  intros Hin Hx Huniq. destruct (find f l) as [y|] eqn:Hfind.
  - apply find_some in Hfind as [Hy Hfy]. now rewrite (Huniq y Hy Hfy).
  - now rewrite (find_none f l Hfind x Hin) in Hx.
Qed.

(** X28. [analyzeProject] always adds a row: analysing the same directory
    twice leaves two rows with consecutive keys, the same name, path, tech
    stack and needs, the keys being the ids the two calls return; the
    stored needs are never empty, and the other tables are not touched. *)
Theorem analyzeProject_twice_two_rows has_dependency now now' projectPath
  projectName root s :
  let first := analyzeProject has_dependency now projectPath projectName root s in
  let second :=
    analyzeProject has_dependency now' projectPath projectName root (fst first) in
  exists row row',
    user_projects (fst second) = user_projects s ++ [row; row'] /\
    analysed has_dependency projectPath root row /\
    analysed has_dependency projectPath root row' /\
    pr_name row = pr_name row' /\
    pr_id row = snd (snd first) /\ pr_id row' = snd (snd second) /\
    pr_id row' = (pr_id row + 1)%Z /\
    pr_ai_needs row <> [] /\
    ai_tools (fst second) = ai_tools s /\
    survey_runs (fst second) = survey_runs s /\
    Db.recommendations (fst second) = Db.recommendations s.
Proof.
  cbv zeta. unfold analyzeProject, insertProject. cbn.
  do 2 eexists. rewrite <- app_assoc. cbn.
  split; [reflexivity|]. unfold analysed. cbn.
  split; [auto|]. split; [auto|]. do 4 (split; [reflexivity|]).
  split; [|auto].
  destruct (inferAINeeds_cases
              (detectTechStack has_dependency projectPath root) projectPath root)
    as [-> | [H _]]; [discriminate|exact H].
Qed.

(** X29. In a store whose project keys do not exceed the sequence of the
    table, the id [analyzeProject] returns selects, among the projects
    [getAllProjects] lists, the row of this analysis, with its path, tech
    stack, needs, description and time; and [generateRecommendations] for
    that id does not fail with "not found". *)
Theorem analyzeProject_then_getAllProjects has_dependency now now' projectPath
  projectName root s :
  Forall (fun p => (pr_id p <= user_projects_seq s)%Z) (user_projects s) ->
  let result := analyzeProject has_dependency now projectPath projectName root s in
  exists row,
    find (fun p => (pr_id p =? snd (snd result))%Z) (getAllProjects (fst result))
      = Some row /\
    analysed has_dependency projectPath root row /\
    pr_description row =
      project_description (fst (snd result)) /\
    pr_last_analyzed row = now /\
    is_throw (snd (generateRecommendations now' (snd (snd result)) (fst result)))
      = false.
Proof.
  intros Hseq. cbv zeta. unfold analyzeProject, insertProject. cbn [fst snd].
  eexists. split; [|split; [|split; [|split]]].
  - apply find_unique.
    + apply sort_by_In. cbn. apply in_or_app. right. left. reflexivity.
    + cbn. apply Z.eqb_refl.
    + intros y Hy Hid. apply sort_by_In in Hy. cbn in Hy.
      apply in_app_or in Hy as [Hy|[<-|[]]]; [|reflexivity].
      rewrite Forall_forall in Hseq. apply Hseq in Hy.
      apply Z.eqb_eq in Hid. lia.
  - unfold analysed. cbn. auto.
  - reflexivity.
  - reflexivity.
  - apply generateRecommendations_returns. eexists. split.
    + cbn. apply in_or_app. right. left. reflexivity.
    + reflexivity.
Qed.

Lemma analyzeProject_then_getAllProjects_witness :
  let result :=
    analyzeProject MoreSamples.react_only 100 "/home/me/shop" None
      MoreSamples.shop_tree Db.empty in
  exists row,
    find (fun p => (pr_id p =? snd (snd result))%Z) (getAllProjects (fst result))
      = Some row /\
    analysed MoreSamples.react_only "/home/me/shop" MoreSamples.shop_tree row /\
    pr_description row = project_description (fst (snd result)) /\
    pr_last_analyzed row = 100%Z /\
    is_throw (snd (generateRecommendations 200 (snd (snd result)) (fst result)))
      = false.
Proof.
  apply (analyzeProject_then_getAllProjects MoreSamples.react_only 100 200
           "/home/me/shop" None MoreSamples.shop_tree Db.empty).
  constructor.
Defined.

Example analysis_of_a_project :
  let result :=
    analyzeProject MoreSamples.react_only 100 "/home/me/shop" None
      MoreSamples.shop_tree Db.empty in
  project_name (fst (snd result)) = "shop" /\
  tech_stack (fst (snd result)) =
    Some ["JavaScript/TypeScript"; "React"; "TypeScript"] /\
  ai_needs (fst (snd result)) =
    Some ["LLM integration"; "natural language processing";
          "frontend AI components"] /\
  project_description (fst (snd result)) =
    Some "shop project using JavaScript/TypeScript, React, TypeScript" /\
  snd (snd result) = 1%Z.
Proof. repeat split. Qed.
